(** * EZ Inventory: the transaction ledger and the report pipeline

    A shallow embedding of the inventory logic of the application, and the
    properties of it that the specification states.

    The model follows the pages that hold the logic:

    - [WarehouseDetailPage]: [loadWarehouseAndItems], [onAddItemSubmit],
      [onStockAdjustmentSubmit], [handlePrintReport], [handleArchiveItem]
      (src/app/(main)/warehouses/[warehouseId]/page.tsx);
    - [ReportsPage]: the flattening step of [loadData], the filter effect and
      [handlePrintArchivedReport] (the reports page);
    - [WarehousesPage]: [loadWarehouses], [handleArchiveWarehouse] and
      [handlePrintWarehouseReport] (the warehouse list page);
    - [ArchivePage]: [loadArchivedData], [getWarehouseName],
      [handleRestoreWarehouse] and [handleRestoreItem] (the archive page);
    - [ItemReport]: the totals and the table of the component
      [PrintableItemReport];
    - [ReportsData]: [loadData], [handleWarehouseChange] and
      [handleItemChange] of the reports page.

    Modelling conventions.

    - A quantity is a [number] of the language, a double, that the zod
      schemas force to be an integer.  The model holds it as a [Z] and
      computes a sum as the language does: [Js.add] rounds the exact sum to
      the nearest double, the tie going to the even significand
      (IEEE 754).  A comparison of two numbers is exact.  The infinities
      are not values of the model: a sum of a magnitude above the largest
      finite double is rounded like any other.
    - A string is held as the bytes of its UTF-8 encoding; [Js.length] is
      the length that the language gives it, the number of its UTF-16 code
      units.
    - A point in time is the number of milliseconds since the epoch, a [Z]:
      the time value of a JavaScript [Date].  The fields typed
      "ISO string date" in lib/types.ts carry the instant their string
      denotes, that is the value of [new Date(s).getTime()];
      [d.toISOString()] is the identity on instants.  The time zone of the
      browser is a parameter: the function [LocalTZA] of ECMAScript.
    - The readings of the clocks ([new Date()], [Date.now()], the time the
      store puts in place of [serverTimestamp()]) and the id that the store
      client generates for a new document are inputs of the handlers.
    - Firestore is a pair of finite maps from document ids to documents;
      localStorage['archivedReports'] is the list of the stored reports.
    - A handler is a computation in the monad [Eff]: it threads the [World]
      (the store, localStorage, the log of the write calls, the toasts, the
      printed documents) and may throw, as a rejected promise does.  React
      component state is a record that the handlers take and return.
    - The store is reliable: a write is rejected only for the reasons the
      store itself has (updating a document that does not exist, adding a
      document under an id that is taken).
    - A handler of the warehouse detail page starts the reload of the page
      and does not wait for it: the handler ends with the table as it was,
      and the reload settles later, as an event of its own that reads the
      store at that moment.  The timers of the print handlers have fired.
    - What the sources use and do not define is an input: the global
      [html2pdf] of [handlePrintReport], and whether localStorage accepts
      the report. *)

From stdpp Require Import base tactics option list gmap strings pretty sorting.

Local Open Scope Z_scope.

(** ** JavaScript values *)

Module Js.

(** Truthiness of a string, and of an optional string. *)
Definition truthy (s : string) : bool := negb (String.eqb s "").

Definition truthy_opt (o : option string) : bool :=
  match o with
  | Some s => truthy s
  | None => false
  end.

(** [a || b] on an optional string. *)
Definition or_else (o : option string) (d : string) : string :=
  match o with
  | Some s => if truthy s then s else d
  | None => d
  end.

(** [s.length]: the number of the UTF-16 code units of [s].  In the UTF-8
    encoding of [s], a byte that continues a sequence (10xxxxxx) adds
    nothing, the first byte of a sequence of four bytes (11110xxx) stands
    for a surrogate pair, and any other byte starts a character of one
    code unit. *)
Definition codeUnits (c : Ascii.ascii) : nat :=
  let n := Ascii.nat_of_ascii c in
  if (128 <=? n)%nat && (n <? 192)%nat then 0%nat
  else if (240 <=? n)%nat then 2%nat
  else 1%nat.

Fixpoint length (s : string) : nat :=
  match s with
  | EmptyString => 0%nat
  | String c s' => (codeUnits c + length s')%nat
  end.

(** The double nearest to an integer.  The integers up to 2^53 in
    magnitude are doubles; above, a double is a multiple of the unit in
    the last place of its binade, and the nearest one is taken, the one
    with the even significand when two are as near. *)
Definition roundToDouble (z : Z) : Z :=
  let m := Z.abs z in
  if m <=? 2 ^ 53 then z
  else
    let ulp := 2 ^ (Z.log2 m - 52) in
    let q := m `div` ulp in
    let r := m `mod` ulp in
    let q' := if 2 * r <? ulp then q
              else if ulp <? 2 * r then q + 1
              else if Z.even q then q else q + 1 in
    Z.sgn z * (q' * ulp).

(** [a + b] on two numbers that are integers. *)
Definition add (a b : Z) : Z := roundToDouble (a + b).

(** [Array.prototype.find]. *)
Fixpoint find {A} (p : A → bool) (l : list A) : option A :=
  match l with
  | [] => None
  | x :: l' => if p x then Some x else find p l'
  end.

(** [Array.prototype.sort] with a comparator.  The sort of the language is
    stable; for a consistent comparator its result is the one stable
    sorted rearrangement, which an insertion sort computes. *)
Fixpoint insert_sorted {A} (cmp : A → A → Z) (x : A) (l : list A) : list A :=
  match l with
  | [] => [x]
  | y :: l' => if cmp x y <=? 0 then x :: y :: l' else y :: insert_sorted cmp x l'
  end.

Definition sort {A} (cmp : A → A → Z) (l : list A) : list A :=
  foldr (insert_sorted cmp) [] l.

(** [Array.prototype.forEach] with a body that updates an accumulator. *)
Definition forEach {A S} (l : list A) (body : S → A → S) (s : S) : S :=
  foldl body s l.

(** [Array.prototype.push]. *)
Definition push {A} (l : list A) (x : A) : list A := l ++ [x].

End Js.

(** ** The time value of a Date (ECMAScript, 21.4.1) *)

Module JsDate.

Definition msPerDay : Z := 86400000.

Definition Day (t : Z) : Z := t `div` msPerDay.
Definition TimeWithinDay (t : Z) : Z := t `mod` msPerDay.

Definition MakeTime (hour min sec ms : Z) : Z :=
  hour * 3600000 + min * 60000 + sec * 1000 + ms.

Definition MakeDate (day time : Z) : Z := day * msPerDay + time.

(** The day number of a civil date (month from 1 to 12), counted from
    1970-01-01. *)
Definition MakeDay (year month date : Z) : Z :=
  let y := if month <=? 2 then year - 1 else year in
  let era := y `div` 400 in
  let yoe := y - era * 400 in
  let mp := (month + 9) `mod` 12 in
  let doy := (153 * mp + 2) `div` 5 + date - 1 in
  let doe := yoe * 365 + yoe `div` 4 - yoe `div` 100 + doy in
  era * 146097 + doe - 719468.

Section LocalTime.

(** [LocalTZA(t, isUTC)], the offset of the local time zone in
    milliseconds.  With [isUTC] true, [t] is an instant and the offset is
    the one in effect at [t].  With [isUTC] false, [t] is a local time and
    the offset is the one that this local time has; a local time that a
    transition skips or repeats has the offset in effect before the
    transition.  The zone is the one of the browser. *)
Variable LocalTZA : Z → bool → Z.

Definition LocalTime (t : Z) : Z := t + LocalTZA t true.
Definition UTC (t : Z) : Z := t - LocalTZA t false.

(** [d.setHours(hour, min, sec, ms)]: the new time value of [d]. *)
Definition setHours (t hour min sec ms : Z) : Z :=
  UTC (MakeDate (Day (LocalTime t)) (MakeTime hour min sec ms)).

(** The instant that a date-time without offset denotes; [Date] reads
    such a string ("2024-01-10T23:59:00") as local time. *)
Definition localDateTime (year month date hour min sec ms : Z) : Z :=
  UTC (MakeDate (MakeDay year month date) (MakeTime hour min sec ms)).
End LocalTime.

(** A zone that keeps one offset. *)
Definition fixedOffset (tza : Z) : Z → bool → Z := λ _ _, tza.

(** A zone with one transition: the offset is [before] up to the instant
    [transition] and [after] from it on.  The local times from
    [transition + before] to [transition + after] are skipped when the
    clocks go forward, and those from [transition + after] to
    [transition + before] are repeated when they go back; both have the
    offset [before]. *)
Definition oneTransition (transition before after : Z) : Z → bool → Z :=
  λ t isUTC,
    if isUTC then if t <? transition then before else after
    else if t <? transition + Z.max before after then before else after.

End JsDate.

(** ** The data model (lib/types.ts) *)

Inductive HistoryEntryType :=
  | CREATE_ITEM
  | ADD_STOCK
  | CONSUME_STOCK
  | ADJUST_STOCK
  | CREATE_WAREHOUSE
  | UPDATE_WAREHOUSE
  | DELETE_WAREHOUSE.

Global Instance HistoryEntryType_eq_dec : EqDecision HistoryEntryType.
Proof. solve_decision. Defined.

Module HistoryEntry.
Record t := mk {
  id : string;
  type : HistoryEntryType;
  change : Z;
  quantityBefore : Z;
  quantityAfter : Z;
  comment : option string;
  timestamp : Z;
}.

Global Instance eq_dec : EqDecision t.
Proof. solve_decision. Defined.
End HistoryEntry.

Module Warehouse.
Record t := mk {
  id : string;
  name : string;
  description : option string;
  isArchived : bool;
  createdAt : Z;
  updatedAt : Z;
  ownerId : string;
}.
End Warehouse.

Module Item.
Record t := mk {
  id : string;
  warehouseId : string;
  name : string;
  quantity : Z;
  location : option string;
  createdAt : Z;
  updatedAt : Z;
  history : list HistoryEntry.t;
  isArchived : bool;
  ownerId : option string;
}.
End Item.

Module FlattenedHistoryEntry.
Record t := mk {
  entry : HistoryEntry.t;
  itemName : string;
  warehouseName : string;
  itemId : string;
  warehouseId : string;
}.

Definition timestamp (f : t) : Z := HistoryEntry.timestamp (entry f).
End FlattenedHistoryEntry.

Inductive ReportType := ITEM | WAREHOUSE | TRANSACTIONS.

Global Instance ReportType_eq_dec : EqDecision ReportType.
Proof. solve_decision. Defined.

Module ItemSummary.
Record t := mk { name : string; quantity : Z }.
End ItemSummary.

Module ArchivedReport.
Record t := mk {
  id : string;
  reportType : option ReportType;
  warehouseId : option string;
  warehouseName : option string;
  warehouseDescription : option string;
  itemId : option string;
  itemName : option string;
  printedBy : string;
  printedAt : Z;
  historySnapshot : option (list HistoryEntry.t);
  itemsSnapshot : option (list ItemSummary.t);
  transactionsSnapshot : option (list FlattenedHistoryEntry.t);
  reportTitleSnapshot : option string;
}.
End ArchivedReport.

(** ** The document store, localStorage and the effects of a handler *)

Module ItemDoc.
(** The data of a document of the collection "items", as [onAddItemSubmit]
    writes it. *)
Record t := mk {
  warehouseId : string;
  name : string;
  quantity : Z;
  location : string;
  createdAt : Z;
  updatedAt : Z;
  history : list HistoryEntry.t;
  isArchived : bool;
}.

(** [{ id: itemDoc.id, ...itemData }] *)
Definition toItem (docId : string) (d : t) : Item.t :=
  {| Item.id := docId;
     Item.warehouseId := warehouseId d;
     Item.name := name d;
     Item.quantity := quantity d;
     Item.location := Some (location d);
     Item.createdAt := createdAt d;
     Item.updatedAt := updatedAt d;
     Item.history := history d;
     Item.isArchived := isArchived d;
     Item.ownerId := None |}.
End ItemDoc.

Module WarehouseDoc.
(** The data of a document of the collection "warehouses". *)
Record t := mk {
  name : string;
  description : string;
  isArchived : bool;
  createdAt : Z;
  updatedAt : Z;
  ownerId : string;
}.
End WarehouseDoc.

(** The fields of the object literal passed to [updateDoc] for an item. *)
Inductive ItemField :=
  | quantity_is (q : Z)
  | updatedAt_serverTimestamp
  | history_arrayUnion (elements : list HistoryEntry.t)
  | isArchived_is (b : bool).

(** The fields of the object literal passed to [updateDoc] for a warehouse. *)
Inductive WarehouseField :=
  | wh_isArchived_is (b : bool)
  | wh_updatedAt_serverTimestamp.

(** A write call issued to the store. *)
Inductive WriteCall :=
  | updateDoc_item (docId : string) (fields : list ItemField)
  | updateDoc_warehouse (docId : string) (fields : list WarehouseField)
  | addDoc_item (docId : string) (data : ItemDoc.t)
  | batch_commit (updates : list (string * list ItemField)).

(** A document rendered to the print surface. *)
Inductive Printable :=
  | PrintableItemReport (warehouseName : option string) (item : Item.t)
      (printedBy : string) (printDate : Z)
  | PrintableWarehouseReport (warehouse : Warehouse.t)
      (items : list ItemSummary.t) (printedBy : string) (printDate : Z).

Module World.
Record t := mk {
  items : gmap string ItemDoc.t;
  warehouses : gmap string WarehouseDoc.t;
  archivedReports : list ArchivedReport.t;
  writes : list WriteCall;
  toasts : list string;
  printed : list Printable;
}.

Definition with_items (f : gmap string ItemDoc.t → gmap string ItemDoc.t) (w : t) : t :=
  mk (f (items w)) (warehouses w) (archivedReports w) (writes w) (toasts w) (printed w).

Definition with_warehouses (f : gmap string WarehouseDoc.t → gmap string WarehouseDoc.t)
    (w : t) : t :=
  mk (items w) (f (warehouses w)) (archivedReports w) (writes w) (toasts w) (printed w).

Definition with_archivedReports (f : list ArchivedReport.t → list ArchivedReport.t)
    (w : t) : t :=
  mk (items w) (warehouses w) (f (archivedReports w)) (writes w) (toasts w) (printed w).

Definition with_writes (f : list WriteCall → list WriteCall) (w : t) : t :=
  mk (items w) (warehouses w) (archivedReports w) (f (writes w)) (toasts w) (printed w).

Definition with_toasts (f : list string → list string) (w : t) : t :=
  mk (items w) (warehouses w) (archivedReports w) (writes w) (f (toasts w)) (printed w).

Definition with_printed (f : list Printable → list Printable) (w : t) : t :=
  mk (items w) (warehouses w) (archivedReports w) (writes w) (toasts w) (f (printed w)).
End World.

(** *** The monad of handlers *)

Inductive Result (A : Type) :=
  | Ok (a : A)
  | Thrown (error : string).
Arguments Ok {A} a.
Arguments Thrown {A} error.

Definition Eff (A : Type) : Type := World.t → Result A * World.t.

Definition pure {A} (a : A) : Eff A := λ w, (Ok a, w).

Definition bind {A B} (m : Eff A) (k : A → Eff B) : Eff B :=
  λ w, match m w with
       | (Ok a, w') => k a w'
       | (Thrown e, w') => (Thrown e, w')
       end.

Definition throw {A} (e : string) : Eff A := λ w, (Thrown e, w).

(** [try { body } catch (error) { handler }] *)
Definition try_catch {A} (body : Eff A) (handler : string → Eff A) : Eff A :=
  λ w, match body w with
       | (Ok a, w') => (Ok a, w')
       | (Thrown e, w') => handler e w'
       end.

Definition get : Eff World.t := λ w, (Ok w, w).
Definition modify (f : World.t → World.t) : Eff unit := λ w, (Ok tt, f w).

Declare Scope eff_scope.
Delimit Scope eff_scope with eff.
Bind Scope eff_scope with Eff.
Notation "'let*' x := m 'in' k" := (bind m (λ x, k))
  (at level 10, x name, m at level 100, k at level 200) : eff_scope.
Notation "m ;;; k" := (bind m (λ _, k))
  (at level 100, k at level 200, right associativity) : eff_scope.
Local Open Scope eff_scope.

(** *** Firestore *)

Module Firestore.

(** [arrayUnion(...elements)]: every element that the array does not hold
    yet is added at its end. *)
Definition arrayUnion (elements array : list HistoryEntry.t) : list HistoryEntry.t :=
  foldl (λ acc e, if decide (e ∈ acc) then acc else acc ++ [e]) array elements.

Definition applyItemField (serverTime : Z) (d : ItemDoc.t) (f : ItemField) : ItemDoc.t :=
  match f with
  | quantity_is q =>
      ItemDoc.mk (ItemDoc.warehouseId d) (ItemDoc.name d) q (ItemDoc.location d)
        (ItemDoc.createdAt d) (ItemDoc.updatedAt d) (ItemDoc.history d) (ItemDoc.isArchived d)
  | updatedAt_serverTimestamp =>
      ItemDoc.mk (ItemDoc.warehouseId d) (ItemDoc.name d) (ItemDoc.quantity d) (ItemDoc.location d)
        (ItemDoc.createdAt d) serverTime (ItemDoc.history d) (ItemDoc.isArchived d)
  | history_arrayUnion es =>
      ItemDoc.mk (ItemDoc.warehouseId d) (ItemDoc.name d) (ItemDoc.quantity d) (ItemDoc.location d)
        (ItemDoc.createdAt d) (ItemDoc.updatedAt d) (arrayUnion es (ItemDoc.history d))
        (ItemDoc.isArchived d)
  | isArchived_is b =>
      ItemDoc.mk (ItemDoc.warehouseId d) (ItemDoc.name d) (ItemDoc.quantity d) (ItemDoc.location d)
        (ItemDoc.createdAt d) (ItemDoc.updatedAt d) (ItemDoc.history d) b
  end.

Definition applyItemFields (serverTime : Z) (fields : list ItemField) (d : ItemDoc.t) : ItemDoc.t :=
  foldl (applyItemField serverTime) d fields.

Definition applyWarehouseField (serverTime : Z) (d : WarehouseDoc.t) (f : WarehouseField)
    : WarehouseDoc.t :=
  match f with
  | wh_isArchived_is b =>
      WarehouseDoc.mk (WarehouseDoc.name d) (WarehouseDoc.description d) b
        (WarehouseDoc.createdAt d) (WarehouseDoc.updatedAt d) (WarehouseDoc.ownerId d)
  | wh_updatedAt_serverTimestamp =>
      WarehouseDoc.mk (WarehouseDoc.name d) (WarehouseDoc.description d) (WarehouseDoc.isArchived d)
        (WarehouseDoc.createdAt d) serverTime (WarehouseDoc.ownerId d)
  end.

Definition applyWarehouseFields (serverTime : Z) (fields : list WarehouseField)
    (d : WarehouseDoc.t) : WarehouseDoc.t :=
  foldl (applyWarehouseField serverTime) d fields.

Definition logWrite (c : WriteCall) : Eff unit := modify (World.with_writes (λ l, l ++ [c])).

(** [updateDoc(doc(db, "items", docId), fields)]: rejected when the
    document does not exist. *)
Definition updateItem (serverTime : Z) (docId : string) (fields : list ItemField) : Eff unit :=
  logWrite (updateDoc_item docId fields) ;;;
  let* w := get in
  match World.items w !! docId with
  | Some d => modify (World.with_items (insert docId (applyItemFields serverTime fields d)))
  | None => throw "not-found"
  end.

(** [updateDoc(doc(db, "warehouses", docId), fields)] *)
Definition updateWarehouse (serverTime : Z) (docId : string) (fields : list WarehouseField)
    : Eff unit :=
  logWrite (updateDoc_warehouse docId fields) ;;;
  let* w := get in
  match World.warehouses w !! docId with
  | Some d =>
      modify (World.with_warehouses (insert docId (applyWarehouseFields serverTime fields d)))
  | None => throw "not-found"
  end.

(** [addDoc(collection(db, "items"), data)] under the id [docId] that the
    client generates; the write carries the precondition that no document
    has this id. *)
Definition addItem (docId : string) (data : ItemDoc.t) : Eff unit :=
  logWrite (addDoc_item docId data) ;;;
  let* w := get in
  match World.items w !! docId with
  | Some _ => throw "already-exists"
  | None => modify (World.with_items (insert docId data))
  end.

(** [getDoc(doc(db, "warehouses", docId))] *)
Definition getWarehouse (docId : string) : Eff (option WarehouseDoc.t) :=
  let* w := get in pure (World.warehouses w !! docId).

(** [getDocs(query(collection(db, "items"), ...where))]: the documents
    that satisfy every [where] clause, with their ids. *)
Definition queryItems (where_ : ItemDoc.t → bool) : Eff (list (string * ItemDoc.t)) :=
  let* w := get in
  pure (filter (λ p, where_ p.2 = true) (map_to_list (World.items w))).

(** [batch.commit()] of a batch of [batch.update] calls: all the updates
    are applied, or none when one of the documents does not exist. *)
Definition applyBatch (serverTime : Z) (m : gmap string ItemDoc.t)
    (updates : list (string * list ItemField)) : gmap string ItemDoc.t :=
  foldl (λ acc u, alter (applyItemFields serverTime u.2) u.1 acc) m updates.

Definition commitBatch (serverTime : Z) (updates : list (string * list ItemField)) : Eff unit :=
  logWrite (batch_commit updates) ;;;
  let* w := get in
  if forallb (λ u, bool_decide (is_Some (World.items w !! u.1))) updates
  then modify (World.with_items (λ m, applyBatch serverTime m updates))
  else throw "not-found".

End Firestore.

(** [toast({ title, ... })] *)
Definition toast (title : string) : Eff unit := modify (World.with_toasts (λ l, l ++ [title])).

(** [root.render(...)] into the printable area. *)
Definition render (p : Printable) : Eff unit := modify (World.with_printed (λ l, l ++ [p])).

(** ** The warehouse detail page *)
Module WarehouseDetailPage.

(** ['ADD_STOCK' | 'CONSUME_STOCK'], the type of the state [adjustmentType]. *)
Inductive AdjustmentType := adj_ADD_STOCK | adj_CONSUME_STOCK.

Global Instance AdjustmentType_eq_dec : EqDecision AdjustmentType.
Proof. solve_decision. Defined.

Definition entryType (a : AdjustmentType) : HistoryEntryType :=
  match a with
  | adj_ADD_STOCK => ADD_STOCK
  | adj_CONSUME_STOCK => CONSUME_STOCK
  end.

Module ItemFormValues.
Record t := mk { name : string; quantity : Z; location : option string }.
End ItemFormValues.

Module StockAdjustmentFormValues.
Record t := mk { adjustmentQuantity : Z; comment : option string }.
End StockAdjustmentFormValues.

(** The zod schemas, on values that are integers already: the name has at
    least 2 characters and the quantity is at least 0; the adjustment is
    positive. *)
Definition itemFormSchema (v : ItemFormValues.t) : bool :=
  bool_decide (2 ≤ Js.length (ItemFormValues.name v))%nat
  && bool_decide (0 ≤ ItemFormValues.quantity v).

Definition stockAdjustmentFormSchema (v : StockAdjustmentFormValues.t) : bool :=
  bool_decide (0 < StockAdjustmentFormValues.adjustmentQuantity v).

(** The state of the component.  [adjustmentQuantityError] is the error
    that [stockAdjustmentForm] holds for the field "adjustmentQuantity".
    The states that the handlers below do not read ([isLoading],
    [selectedItemForHistory]) are left out. *)
Record State := mkState {
  warehouseIdFromParams : string;
  warehouse : option Warehouse.t;
  items : list Item.t;
  isAddItemDialogOpen : bool;
  isStockAdjustmentDialogOpen : bool;
  itemForAdjustment : option Item.t;
  adjustmentType : option AdjustmentType;
  adjustmentQuantityError : option string;
  itemToArchive : option Item.t;
}.

Definition setWarehouse (x : option Warehouse.t) (s : State) : State :=
  mkState (warehouseIdFromParams s) x (items s) (isAddItemDialogOpen s)
    (isStockAdjustmentDialogOpen s) (itemForAdjustment s) (adjustmentType s)
    (adjustmentQuantityError s) (itemToArchive s).

Definition setItems (x : list Item.t) (s : State) : State :=
  mkState (warehouseIdFromParams s) (warehouse s) x (isAddItemDialogOpen s)
    (isStockAdjustmentDialogOpen s) (itemForAdjustment s) (adjustmentType s)
    (adjustmentQuantityError s) (itemToArchive s).

Definition setIsAddItemDialogOpen (x : bool) (s : State) : State :=
  mkState (warehouseIdFromParams s) (warehouse s) (items s) x
    (isStockAdjustmentDialogOpen s) (itemForAdjustment s) (adjustmentType s)
    (adjustmentQuantityError s) (itemToArchive s).

Definition setIsStockAdjustmentDialogOpen (x : bool) (s : State) : State :=
  mkState (warehouseIdFromParams s) (warehouse s) (items s) (isAddItemDialogOpen s)
    x (itemForAdjustment s) (adjustmentType s) (adjustmentQuantityError s)
    (itemToArchive s).

Definition setItemForAdjustment (x : option Item.t) (s : State) : State :=
  mkState (warehouseIdFromParams s) (warehouse s) (items s) (isAddItemDialogOpen s)
    (isStockAdjustmentDialogOpen s) x (adjustmentType s) (adjustmentQuantityError s)
    (itemToArchive s).

Definition setAdjustmentType (x : option AdjustmentType) (s : State) : State :=
  mkState (warehouseIdFromParams s) (warehouse s) (items s) (isAddItemDialogOpen s)
    (isStockAdjustmentDialogOpen s) (itemForAdjustment s) x (adjustmentQuantityError s)
    (itemToArchive s).

(** [stockAdjustmentForm.setError("adjustmentQuantity", ...)] and, with
    [None], the part of [stockAdjustmentForm.reset] that clears it. *)
Definition setAdjustmentQuantityError (x : option string) (s : State) : State :=
  mkState (warehouseIdFromParams s) (warehouse s) (items s) (isAddItemDialogOpen s)
    (isStockAdjustmentDialogOpen s) (itemForAdjustment s) (adjustmentType s) x
    (itemToArchive s).

Definition setItemToArchive (x : option Item.t) (s : State) : State :=
  mkState (warehouseIdFromParams s) (warehouse s) (items s) (isAddItemDialogOpen s)
    (isStockAdjustmentDialogOpen s) (itemForAdjustment s) (adjustmentType s)
    (adjustmentQuantityError s) x.

Definition initialState (warehouseId : string) : State :=
  mkState warehouseId None [] false false None None None None.

Definition updateWarehouseTimestampInFirestore (serverTime : Z) (warehouseId : string)
    : Eff unit :=
  if negb (Js.truthy warehouseId) then pure tt
  else
    try_catch
      (Firestore.updateWarehouse serverTime warehouseId [wh_updatedAt_serverTimestamp])
      (λ _, pure tt).

(** [loadWarehouseAndItems], from its call to the moment it has set the
    state of the page. *)
Definition loadWarehouseAndItems (idToLoad : string) (s : State) : Eff State :=
  if negb (Js.truthy idToLoad) then
    toast "Error" ;;; pure s
  else
    let* docSnap := Firestore.getWarehouse idToLoad in
    match docSnap with
    | Some warehouseData =>
        if WarehouseDoc.isArchived warehouseData then
          toast "Warehouse Not Found" ;;;
          pure (setItems [] (setWarehouse None s))
        else
          let s1 :=
            setWarehouse
              (Some {| Warehouse.id := idToLoad;
                       Warehouse.name := WarehouseDoc.name warehouseData;
                       Warehouse.description := Some (WarehouseDoc.description warehouseData);
                       Warehouse.isArchived := WarehouseDoc.isArchived warehouseData;
                       Warehouse.createdAt := WarehouseDoc.createdAt warehouseData;
                       Warehouse.updatedAt := WarehouseDoc.updatedAt warehouseData;
                       Warehouse.ownerId := "placeholder-owner-id" |}) s in
          let* itemsSnapshot :=
            Firestore.queryItems
              (λ d, String.eqb (ItemDoc.warehouseId d) idToLoad
                    && negb (ItemDoc.isArchived d)) in
          let warehouseItems :=
            map (λ itemDoc, ItemDoc.toItem itemDoc.1 itemDoc.2) itemsSnapshot in
          pure (setItems
                  (Js.sort (λ a b, Item.updatedAt b - Item.updatedAt a) warehouseItems) s1)
    | None =>
        toast "Warehouse Not Found" ;;;
        pure (setItems [] (setWarehouse None s))
    end.

(** [now] is the value of [new Date()], [dateNow] the value of
    [Date.now()], [serverTime] the time that the store puts in place of
    [serverTimestamp()], [autoId] the id generated for the new document. *)
Definition initialHistoryEntry (now dateNow : Z) (data : ItemFormValues.t) : HistoryEntry.t :=
  {| HistoryEntry.id := pretty dateNow +:+ "-hist-create";
     HistoryEntry.type := CREATE_ITEM;
     HistoryEntry.change := ItemFormValues.quantity data;
     HistoryEntry.quantityBefore := 0;
     HistoryEntry.quantityAfter := ItemFormValues.quantity data;
     HistoryEntry.timestamp := now;
     HistoryEntry.comment := Some "Initial item creation" |}.

Definition newItemData (now dateNow serverTime : Z) (warehouseIdFromParams : string)
    (data : ItemFormValues.t) : ItemDoc.t :=
  {| ItemDoc.warehouseId := warehouseIdFromParams;
     ItemDoc.name := ItemFormValues.name data;
     ItemDoc.quantity := ItemFormValues.quantity data;
     ItemDoc.location := Js.or_else (ItemFormValues.location data) "";
     ItemDoc.createdAt := serverTime;
     ItemDoc.updatedAt := serverTime;
     ItemDoc.history := [initialHistoryEntry now dateNow data];
     ItemDoc.isArchived := false |}.

(** [onAddItemSubmit], to its end.  The handler calls
    [loadWarehouseAndItems] and does not wait for it: the reload is the
    event [LoadSettled] below, and the handler leaves the table as it
    is. *)
Definition onAddItemSubmit (now dateNow serverTime : Z) (autoId : string)
    (data : ItemFormValues.t) (s : State) : Eff State :=
  match warehouse s with
  | None => pure s
  | Some wh =>
      if negb (Js.truthy (warehouseIdFromParams s)) then pure s
      else
        try_catch
          (Firestore.addItem autoId
             (newItemData now dateNow serverTime (warehouseIdFromParams s) data) ;;;
           toast "Item Added" ;;;
           let s1 := setIsAddItemDialogOpen false s in
           updateWarehouseTimestampInFirestore serverTime (warehouseIdFromParams s) ;;;
           pure s1)
          (λ _, toast "Error" ;;; pure s)
  end.

Definition handleOpenStockAdjustmentDialog (item : Item.t) (type : AdjustmentType)
    (s : State) : State :=
  setIsStockAdjustmentDialogOpen true
    (setAdjustmentQuantityError None
       (setAdjustmentType (Some type) (setItemForAdjustment (Some item) s))).

Definition quantityChange (type : AdjustmentType) (data : StockAdjustmentFormValues.t) : Z :=
  match type with
  | adj_ADD_STOCK => StockAdjustmentFormValues.adjustmentQuantity data
  | adj_CONSUME_STOCK => - StockAdjustmentFormValues.adjustmentQuantity data
  end.

Definition newHistoryEntry (now dateNow : Z) (type : AdjustmentType) (item : Item.t)
    (data : StockAdjustmentFormValues.t) : HistoryEntry.t :=
  {| HistoryEntry.id := pretty dateNow +:+ "-hist-adjust";
     HistoryEntry.type := entryType type;
     HistoryEntry.change := quantityChange type data;
     HistoryEntry.quantityBefore := Item.quantity item;
     HistoryEntry.quantityAfter := Js.add (Item.quantity item) (quantityChange type data);
     HistoryEntry.timestamp := now;
     HistoryEntry.comment :=
       Some (Js.or_else (StockAdjustmentFormValues.comment data)
               (match type with
                | adj_ADD_STOCK => "Stock added"
                | adj_CONSUME_STOCK => "Stock consumed"
                end)) |}.

(** The message of the error set on the field "adjustmentQuantity". *)
Definition cannotConsume (available : Z) : string :=
  "Cannot consume more than available stock (" +:+ pretty available +:+ ").".

(** The object literal that [onStockAdjustmentSubmit] passes to [updateDoc]. *)
Definition stockUpdate (now dateNow : Z) (type : AdjustmentType) (item : Item.t)
    (data : StockAdjustmentFormValues.t) : list ItemField :=
  [ quantity_is (Js.add (Item.quantity item) (quantityChange type data));
    updatedAt_serverTimestamp;
    history_arrayUnion [newHistoryEntry now dateNow type item data] ].

(** [onStockAdjustmentSubmit], to its end; the reload that it starts is
    the event [LoadSettled]. *)
Definition onStockAdjustmentSubmit (now dateNow serverTime : Z)
    (data : StockAdjustmentFormValues.t) (s : State) : Eff State :=
  match itemForAdjustment s, adjustmentType s with
  | Some item, Some type =>
      if negb (Js.truthy (warehouseIdFromParams s)) then pure s
      else if bool_decide (type = adj_CONSUME_STOCK)
              && bool_decide (Item.quantity item
                              < StockAdjustmentFormValues.adjustmentQuantity data)
      then
        pure (setAdjustmentQuantityError (Some (cannotConsume (Item.quantity item))) s)
      else
        try_catch
          (Firestore.updateItem serverTime (Item.id item)
             (stockUpdate now dateNow type item data) ;;;
           toast "Stock Updated" ;;;
           let s1 := setAdjustmentQuantityError None
                       (setIsStockAdjustmentDialogOpen false s) in
           updateWarehouseTimestampInFirestore serverTime (warehouseIdFromParams s) ;;;
           pure s1)
          (λ _, toast "Error" ;;; pure s)
  | _, _ => pure s
  end.

(** What [handlePrintReport] meets when its timers fire.  The first timer
    looks for the element "printable-content" of the rendered report and,
    when it is there, calls the global [html2pdf], which the sources use
    and do not define: [html2pdfThrows] says that this call throws (as it
    does where the page has no such global), and then the timer ends there
    and the second timer is never set.  [storageThrows] says that
    localStorage throws when the report is stored. *)
Module PrintEnv.
Record t := mk { element : bool; html2pdfThrows : bool; storageThrows : bool }.
End PrintEnv.

(** [printDate] is the value of [new Date()] when the report is rendered,
    [now] its value when the second timer has fired and the report is
    archived. *)
Definition handlePrintReport (env : PrintEnv.t) (printDate now : Z) (itemToPrint : Item.t)
    (s : State) : Eff unit :=
  match warehouse s with
  | None => toast "Print Error"
  | Some wh =>
      render (PrintableItemReport (Some (Warehouse.name wh)) itemToPrint "Admin User" printDate) ;;;
      if PrintEnv.element env && PrintEnv.html2pdfThrows env then pure tt
      else
          let archivedReport :=
            {| ArchivedReport.id := Item.id itemToPrint +:+ "-" +:+ pretty now;
               ArchivedReport.reportType := Some ITEM;
               ArchivedReport.warehouseId := Some (Warehouse.id wh);
               ArchivedReport.warehouseName := Some (Warehouse.name wh);
               ArchivedReport.warehouseDescription := None;
               ArchivedReport.itemId := Some (Item.id itemToPrint);
               ArchivedReport.itemName := Some (Item.name itemToPrint);
               ArchivedReport.printedBy := "Admin User";
               ArchivedReport.printedAt := now;
               ArchivedReport.historySnapshot := Some (Item.history itemToPrint);
               ArchivedReport.itemsSnapshot := None;
               ArchivedReport.transactionsSnapshot := None;
               ArchivedReport.reportTitleSnapshot := None |} in
          try_catch
            ((if PrintEnv.storageThrows env then throw "QuotaExceededError"
              else modify (World.with_archivedReports
                             (λ existingReports, Js.push existingReports archivedReport))) ;;;
             toast "Report Archived")
            (λ _, toast "Archiving Error")
  end.

(** [handleArchiveItem], to its end; the reload that it starts is the
    event [LoadSettled]. *)
Definition handleArchiveItem (serverTime : Z) (s : State) : Eff State :=
  match itemToArchive s with
  | None => pure s
  | Some item =>
      if negb (Js.truthy (warehouseIdFromParams s)) then pure s
      else
        try_catch
          (Firestore.updateItem serverTime (Item.id item)
             [ isArchived_is true; updatedAt_serverTimestamp ] ;;;
           toast "Item Archived" ;;;
           let s1 := setItemToArchive None s in
           updateWarehouseTimestampInFirestore serverTime (warehouseIdFromParams s) ;;;
           pure s1)
          (λ _, toast "Error" ;;; pure s)
  end.

(** *** The events of the page

    What the user and the framework can do to the component: the effect
    that runs when it is mounted, the buttons of the page and of a row of
    the table (the row is given by its index in [items]), the two forms
    and the dialog that confirms the archiving of an item.  A form exists
    while its dialog is open, and [form.handleSubmit(handler)] calls the
    handler when the schema accepts the values.  [LoadSettled] is the end
    of a reload that a handler has started.  The button that confirms the
    archiving calls [handleArchiveItem] and closes its dialog, and the
    dialog, when it closes, clears [itemToArchive]. *)
Inductive Event :=
  | Mounted
  | LoadSettled
  | ClickAddItem
  | SubmitItemForm (data : ItemFormValues.t) (now dateNow serverTime : Z) (autoId : string)
  | ClickAdjustStock (row : nat) (type : AdjustmentType)
  | SubmitStockAdjustmentForm (data : StockAdjustmentFormValues.t)
      (now dateNow serverTime : Z)
  | CloseDialog
  | ClickPrintReport (row : nat) (env : PrintEnv.t) (printDate now : Z)
  | ClickArchiveItem (row : nat)
  | ConfirmArchiveItem (serverTime : Z)
  | CancelArchiveItem.

Definition handle (ev : Event) (s : State) : Eff State :=
  match ev with
  | Mounted | LoadSettled =>
      if Js.truthy (warehouseIdFromParams s)
      then loadWarehouseAndItems (warehouseIdFromParams s) s
      else pure s
  | ClickAddItem => pure (setIsAddItemDialogOpen true s)
  | SubmitItemForm data now dateNow serverTime autoId =>
      if isAddItemDialogOpen s && itemFormSchema data
      then onAddItemSubmit now dateNow serverTime autoId data s
      else pure s
  | ClickAdjustStock row type =>
      match items s !! row with
      | Some item => pure (handleOpenStockAdjustmentDialog item type s)
      | None => pure s
      end
  | SubmitStockAdjustmentForm data now dateNow serverTime =>
      if isStockAdjustmentDialogOpen s && stockAdjustmentFormSchema data
      then onStockAdjustmentSubmit now dateNow serverTime data s
      else pure s
  | CloseDialog =>
      pure (setAdjustmentQuantityError None
              (setIsStockAdjustmentDialogOpen false (setIsAddItemDialogOpen false s)))
  | ClickPrintReport row env printDate now =>
      match items s !! row with
      | Some item => handlePrintReport env printDate now item s ;;; pure s
      | None => pure s
      end
  | ClickArchiveItem row =>
      match items s !! row with
      | Some item => pure (setItemToArchive (Some item) s)
      | None => pure s
      end
  | ConfirmArchiveItem serverTime =>
      let* s' := handleArchiveItem serverTime s in
      pure (setItemToArchive None s')
  | CancelArchiveItem => pure (setItemToArchive None s)
  end.

(** An event leaves the component in the state its handler returns; a
    handler that throws leaves the state of the component as it was. *)
Definition dispatch (sw : State * World.t) (ev : Event) : State * World.t :=
  match handle ev sw.1 sw.2 with
  | (Ok s', w') => (s', w')
  | (Thrown _, w') => (sw.1, w')
  end.

Definition run (evs : list Event) (sw : State * World.t) : State * World.t :=
  foldl dispatch sw evs.

(** The store before the page is used: the warehouses are given, there is
    no item yet and nothing has been written or printed. *)
Definition initialWorld (warehouses : gmap string WarehouseDoc.t) : World.t :=
  World.mk ∅ warehouses [] [] [] [].

(** The [Date.now()] readings that the submissions of the stock adjustment
    form take in a sequence of events. *)
Definition adjustmentClock (evs : list Event) : list Z :=
  omap (λ ev, match ev with
              | SubmitStockAdjustmentForm _ _ dateNow _ => Some dateNow
              | _ => None
              end) evs.

(** Replaying a ledger: the sum of its changes, from 0. *)
Definition replay (ledger : list HistoryEntry.t) : Z :=
  foldl (λ quantity e, quantity + HistoryEntry.change e) 0 ledger.

End WarehouseDetailPage.

(** ** The reports page *)

Module ReportsPage.

(** *** The flattening step of [loadData] *)

Definition flatten (warehousesFromFirestore : list Warehouse.t)
    (itemsFromFirestore : list Item.t) : list FlattenedHistoryEntry.t :=
  Js.forEach itemsFromFirestore
    (λ flattened item,
       let warehouse :=
         Js.find (λ wh, String.eqb (Warehouse.id wh) (Item.warehouseId item))
           warehousesFromFirestore in
       match warehouse with
       | Some warehouse =>
           Js.forEach (Item.history item)
             (λ flattened entry,
                Js.push flattened
                  {| FlattenedHistoryEntry.entry := entry;
                     FlattenedHistoryEntry.itemName := Item.name item;
                     FlattenedHistoryEntry.itemId := Item.id item;
                     FlattenedHistoryEntry.warehouseName := Warehouse.name warehouse;
                     FlattenedHistoryEntry.warehouseId := Warehouse.id warehouse |})
             flattened
       | None => flattened
       end)
    [].

(** The value that [loadData] gives to [allFlattenedTransactions]. *)
Definition allFlattenedTransactions (warehousesFromFirestore : list Warehouse.t)
    (itemsFromFirestore : list Item.t) : list FlattenedHistoryEntry.t :=
  Js.sort
    (λ a b, FlattenedHistoryEntry.timestamp b - FlattenedHistoryEntry.timestamp a)
    (flatten warehousesFromFirestore itemsFromFirestore).

(** *** The filter effect *)

Record Filters := mkFilters {
  selectedWarehouseId : option string;
  selectedItemId : option string;
  startDate : option Z;
  endDate : option Z;
}.

Definition all_warehouses : string := "all_warehouses_option_value_placeholder_for_clear".
Definition all_items : string := "all_items_option_value_placeholder_for_clear".

(** [selected && selected !== placeholder]: the id that a selection
    stands for, if it stands for one. *)
Definition selection (selected : option string) (placeholder : string) : option string :=
  match selected with
  | Some x => if Js.truthy x && negb (String.eqb x placeholder) then Some x else None
  | None => None
  end.

Section FilterEffect.
Variable LocalTZA : Z → bool → Z.

Definition filteredTransactions (f : Filters)
    (allFlattenedTransactions : list FlattenedHistoryEntry.t)
    : list FlattenedHistoryEntry.t :=
  let transactions := allFlattenedTransactions in
  let transactions :=
    match selection (selectedWarehouseId f) all_warehouses with
    | Some warehouseId =>
        let transactions :=
          filter (λ t, FlattenedHistoryEntry.warehouseId t = warehouseId) transactions in
        match selection (selectedItemId f) all_items with
        | Some itemId => filter (λ t, FlattenedHistoryEntry.itemId t = itemId) transactions
        | None => transactions
        end
    | None =>
        match selection (selectedItemId f) all_items with
        | Some itemId => filter (λ t, FlattenedHistoryEntry.itemId t = itemId) transactions
        | None => transactions
        end
    end in
  let transactions :=
    match startDate f with
    | Some startDate =>
        let startOfDay := JsDate.setHours LocalTZA startDate 0 0 0 0 in
        filter (λ t, startOfDay ≤ FlattenedHistoryEntry.timestamp t) transactions
    | None => transactions
    end in
  let transactions :=
    match endDate f with
    | Some endDate =>
        let endOfDay := JsDate.setHours LocalTZA endDate 23 59 59 999 in
        filter (λ t, FlattenedHistoryEntry.timestamp t ≤ endOfDay) transactions
    | None => transactions
    end in
  transactions.
End FilterEffect.

(** *** Printing an archived report again *)

(** [historySnapshot[0]] and [historySnapshot[historySnapshot.length - 1]];
    both exist when [historySnapshot.length > 0]. *)
Definition first {A} (l : list A) : option A := l !! 0%nat.
Definition lastOf {A} (l : list A) : option A := l !! (length l - 1)%nat.

Definition itemForPrinting (report : ArchivedReport.t) (itemId itemName : string)
    (historySnapshot : list HistoryEntry.t) : Item.t :=
  {| Item.id := itemId;
     Item.name := itemName;
     Item.warehouseId := Js.or_else (ArchivedReport.warehouseId report) "";
     Item.quantity :=
       match first historySnapshot with
       | Some e => HistoryEntry.quantityAfter e
       | None => 0
       end;
     Item.location := None;
     Item.createdAt :=
       match lastOf historySnapshot with
       | Some e => HistoryEntry.timestamp e
       | None => ArchivedReport.printedAt report
       end;
     Item.updatedAt :=
       match first historySnapshot with
       | Some e => HistoryEntry.timestamp e
       | None => ArchivedReport.printedAt report
       end;
     Item.history := historySnapshot;
     Item.isArchived := true;
     Item.ownerId := Some "placeholder-owner-id" |}.

Definition warehouseForPrinting (now : Z) (report : ArchivedReport.t)
    (warehouseId warehouseName : string) : Warehouse.t :=
  {| Warehouse.id := warehouseId;
     Warehouse.name := warehouseName;
     Warehouse.description := Some (Js.or_else (ArchivedReport.warehouseDescription report) "");
     Warehouse.createdAt := now;
     Warehouse.ownerId := "placeholder-owner-id";
     Warehouse.updatedAt := now;
     Warehouse.isArchived := true |}.

(** What [handlePrintArchivedReport] renders, if the report can be
    printed; [now] is the value of [new Date()]. *)
Definition reprint (now : Z) (report : ArchivedReport.t) : option Printable :=
  match ArchivedReport.reportType report,
        ArchivedReport.itemId report, ArchivedReport.itemName report,
        ArchivedReport.historySnapshot report,
        ArchivedReport.itemsSnapshot report,
        ArchivedReport.warehouseId report, ArchivedReport.warehouseName report with
  | Some ITEM, Some itemId, Some itemName, Some historySnapshot, _, _, _ =>
      if Js.truthy itemId && Js.truthy itemName then
        Some (PrintableItemReport (ArchivedReport.warehouseName report)
                (itemForPrinting report itemId itemName historySnapshot)
                (Js.or_else (Some (ArchivedReport.printedBy report)) "System")
                (ArchivedReport.printedAt report))
      else None
  | Some WAREHOUSE, _, _, _, Some itemsSnapshot, Some warehouseId, Some warehouseName =>
      if Js.truthy warehouseId && Js.truthy warehouseName then
        Some (PrintableWarehouseReport
                (warehouseForPrinting now report warehouseId warehouseName)
                itemsSnapshot
                (Js.or_else (Some (ArchivedReport.printedBy report)) "System")
                (ArchivedReport.printedAt report))
      else None
  | _, _, _, _, _, _, _ => None
  end.

Definition handlePrintArchivedReport (now : Z) (report : ArchivedReport.t) : Eff unit :=
  match reprint now report with
  | Some document => render document
  | None => toast "Error"
  end.

End ReportsPage.
(** ** The warehouse list page *)

Module WarehousesPage.

Record State := mkState {
  allActiveWarehouses : list Warehouse.t;
  selectedWarehouseForArchive : option Warehouse.t;
}.

Definition loadWarehouses (s : State) : Eff State :=
  let* w := get in
  let querySnapshot :=
    filter (λ p, WarehouseDoc.isArchived p.2 = false) (map_to_list (World.warehouses w)) in
  let warehousesFromFirestore :=
    map (λ docSnap,
           {| Warehouse.id := docSnap.1;
              Warehouse.name := WarehouseDoc.name docSnap.2;
              Warehouse.description := Some (WarehouseDoc.description docSnap.2);
              Warehouse.isArchived := WarehouseDoc.isArchived docSnap.2;
              Warehouse.createdAt := WarehouseDoc.createdAt docSnap.2;
              Warehouse.updatedAt := WarehouseDoc.updatedAt docSnap.2;
              Warehouse.ownerId := "placeholder-owner-id" |})
        (Js.sort (λ a b, WarehouseDoc.updatedAt b.2 - WarehouseDoc.updatedAt a.2)
           querySnapshot) in
  pure (mkState warehousesFromFirestore (selectedWarehouseForArchive s)).

Definition handleArchiveWarehouse (serverTime : Z) (s : State) : Eff State :=
  match selectedWarehouseForArchive s with
  | None => pure s
  | Some selected =>
      try_catch
        (Firestore.updateWarehouse serverTime (Warehouse.id selected)
           [ wh_isArchived_is true; wh_updatedAt_serverTimestamp ] ;;;
         let* itemsSnapshot :=
           Firestore.queryItems
             (λ d, String.eqb (ItemDoc.warehouseId d) (Warehouse.id selected)) in
         Firestore.commitBatch serverTime
           (map (λ itemDoc, (itemDoc.1, [ isArchived_is true; updatedAt_serverTimestamp ]))
              itemsSnapshot) ;;;
         toast "Warehouse Archived" ;;;
         loadWarehouses (mkState (allActiveWarehouses s) None))
        (λ _, toast "Error" ;;; pure s)
  end.

(** [printDate] is the value of [new Date()] when the report is rendered,
    [now] its value when the report is archived. *)
Definition handlePrintWarehouseReport (printDate now : Z) (warehouseToPrint : Warehouse.t)
    : Eff unit :=
  let warehouseItems : list ItemSummary.t := [] in
  render (PrintableWarehouseReport warehouseToPrint warehouseItems "Admin User" printDate) ;;;
  let archivedReport :=
    {| ArchivedReport.id := Warehouse.id warehouseToPrint +:+ "-wh-report-" +:+ pretty now;
       ArchivedReport.reportType := Some WAREHOUSE;
       ArchivedReport.warehouseId := Some (Warehouse.id warehouseToPrint);
       ArchivedReport.warehouseName := Some (Warehouse.name warehouseToPrint);
       ArchivedReport.warehouseDescription := Warehouse.description warehouseToPrint;
       ArchivedReport.itemId := None;
       ArchivedReport.itemName := None;
       ArchivedReport.printedBy := "Admin User";
       ArchivedReport.printedAt := now;
       ArchivedReport.historySnapshot := None;
       ArchivedReport.itemsSnapshot := Some warehouseItems;
       ArchivedReport.transactionsSnapshot := None;
       ArchivedReport.reportTitleSnapshot := None |} in
  modify (World.with_archivedReports
            (λ existingReports, Js.push existingReports archivedReport)) ;;;
  toast "Report Archived".

End WarehousesPage.

(** ** The archive page *)

Module ArchivePage.

(** A row of the table of the archived warehouses: the object that
    [loadArchivedData] builds (it has no [ownerId]). *)
Module ArchivedWarehouse.
Record t := mk {
  id : string;
  name : string;
  description : string;
  isArchived : bool;
  createdAt : Z;
  updatedAt : Z;
}.
End ArchivedWarehouse.

Record State := mkState {
  archivedWarehouses : list ArchivedWarehouse.t;
  allWarehousesMap : gmap string string;
  archivedItems : list Item.t;
}.

Definition initialState : State := mkState [] ∅ [].

(** The version of the archive page: it has no test of the id. *)
Definition updateWarehouseTimestampInFirestore (serverTime : Z) (warehouseId : string)
    : Eff unit :=
  try_catch
    (Firestore.updateWarehouse serverTime warehouseId [wh_updatedAt_serverTimestamp])
    (λ _, pure tt).

Definition loadArchivedData (s : State) : Eff State :=
  let* w := get in
  let whMap := WarehouseDoc.name <$> World.warehouses w in
  let archivedWhSnapshot :=
    Js.sort (λ a b, WarehouseDoc.updatedAt b.2 - WarehouseDoc.updatedAt a.2)
      (filter (λ p, WarehouseDoc.isArchived p.2 = true) (map_to_list (World.warehouses w))) in
  let whsFromFirestore :=
    map (λ docSnap,
           {| ArchivedWarehouse.id := docSnap.1;
              ArchivedWarehouse.name := WarehouseDoc.name docSnap.2;
              ArchivedWarehouse.description := WarehouseDoc.description docSnap.2;
              ArchivedWarehouse.isArchived := WarehouseDoc.isArchived docSnap.2;
              ArchivedWarehouse.createdAt := WarehouseDoc.createdAt docSnap.2;
              ArchivedWarehouse.updatedAt := WarehouseDoc.updatedAt docSnap.2 |})
        archivedWhSnapshot in
  let archivedItemsSnapshot :=
    Js.sort (λ a b, ItemDoc.updatedAt b.2 - ItemDoc.updatedAt a.2)
      (filter (λ p, ItemDoc.isArchived p.2 = true) (map_to_list (World.items w))) in
  let itemsFromFirestore :=
    map (λ docSnap, ItemDoc.toItem docSnap.1 docSnap.2) archivedItemsSnapshot in
  pure (mkState whsFromFirestore whMap itemsFromFirestore).

Definition getWarehouseName (s : State) (warehouseId : string) : string :=
  Js.or_else (allWarehousesMap s !! warehouseId) "Unknown Warehouse".

Definition handleRestoreWarehouse (serverTime : Z) (warehouseId : string) (s : State)
    : Eff State :=
  try_catch
    (let* warehouseSnap := Firestore.getWarehouse warehouseId in
     Firestore.updateWarehouse serverTime warehouseId
       [ wh_isArchived_is false; wh_updatedAt_serverTimestamp ] ;;;
     toast "Warehouse Restored" ;;;
     loadArchivedData s)
    (λ _, toast "Error" ;;; pure s).

Definition handleRestoreItem (serverTime : Z) (itemId : string) (s : State) : Eff State :=
  try_catch
    (let* w := get in
     let itemSnap := World.items w !! itemId in
     let parentWarehouseId :=
       match itemSnap with
       | Some data => ItemDoc.warehouseId data
       | None => ""
       end in
     Firestore.updateItem serverTime itemId
       [ isArchived_is false; updatedAt_serverTimestamp ] ;;;
     toast "Item Restored" ;;;
     (if Js.truthy parentWarehouseId
      then updateWarehouseTimestampInFirestore serverTime parentWarehouseId
      else pure tt) ;;;
     loadArchivedData s)
    (λ _, toast "Error" ;;; pure s).

End ArchivePage.

(** ** The printable report of an item *)

Module ItemReport.

(** [sortedHistory] of the component [PrintableItemReport]. *)
Definition sortedHistory (item : Item.t) : list HistoryEntry.t :=
  Js.sort (λ a b, HistoryEntry.timestamp b - HistoryEntry.timestamp a) (Item.history item).

(** The pair of [totalAdded] and [totalConsumed] when the loop over the
    ledger is done. *)
Definition totals (item : Item.t) : Z * Z :=
  Js.forEach (Item.history item)
    (λ acc entry,
       let type := HistoryEntry.type entry in
       let change := HistoryEntry.change entry in
       if bool_decide (type = ADD_STOCK)
          || (bool_decide (type = CREATE_ITEM) && bool_decide (0 < change))
          || (bool_decide (type = ADJUST_STOCK) && bool_decide (0 < change))
       then (Js.add acc.1 change, acc.2)
       else if bool_decide (type = CONSUME_STOCK)
               || (bool_decide (type = ADJUST_STOCK) && bool_decide (change < 0))
       then (acc.1, Js.add acc.2 (Z.abs change))
       else acc)
    (0, 0).

Definition totalAdded (item : Item.t) : Z := (totals item).1.
Definition totalConsumed (item : Item.t) : Z := (totals item).2.

End ItemReport.

(** ** The reports page: loading the data *)

Module ReportsData.

(** The order of two names in a query ordered by name. *)
Definition compareNames (a b : string) : Z :=
  match String.compare a b with
  | Lt => -1
  | Eq => 0
  | Gt => 1
  end.

(** The states of the reports page that [loadData] sets. *)
Record State := mkState {
  allWarehouses : list Warehouse.t;
  allItems : list Item.t;
  allFlattenedTransactions : list FlattenedHistoryEntry.t;
  filteredTransactions : list FlattenedHistoryEntry.t;
  archivedReports : list ArchivedReport.t;
}.

(** [loadData], which runs when the page is mounted: the warehouses that
    are not archived, ordered by name, the items that are not archived, the
    flattened transactions of these, shown unfiltered at first, and the
    archived reports of localStorage. *)
Definition loadData : Eff State :=
  let* w := get in
  let whSnapshot :=
    Js.sort (λ a b, compareNames (WarehouseDoc.name a.2) (WarehouseDoc.name b.2))
      (filter (λ p, WarehouseDoc.isArchived p.2 = false) (map_to_list (World.warehouses w))) in
  let warehousesFromFirestore :=
    map (λ doc,
           {| Warehouse.id := doc.1;
              Warehouse.name := WarehouseDoc.name doc.2;
              Warehouse.description := Some (WarehouseDoc.description doc.2);
              Warehouse.isArchived := WarehouseDoc.isArchived doc.2;
              Warehouse.createdAt := WarehouseDoc.createdAt doc.2;
              Warehouse.updatedAt := WarehouseDoc.updatedAt doc.2;
              Warehouse.ownerId := WarehouseDoc.ownerId doc.2 |})
        whSnapshot in
  let itemsSnapshot :=
    filter (λ p, ItemDoc.isArchived p.2 = false) (map_to_list (World.items w)) in
  let itemsFromFirestore := map (λ doc, ItemDoc.toItem doc.1 doc.2) itemsSnapshot in
  let flattened :=
    ReportsPage.allFlattenedTransactions warehousesFromFirestore itemsFromFirestore in
  pure (mkState warehousesFromFirestore itemsFromFirestore flattened flattened
          (World.archivedReports w)).

(** [handleWarehouseChange] and [handleItemChange], on the selections of
    the filters: a new warehouse clears the selected item. *)
Definition handleWarehouseChange (warehouseId : string) (f : ReportsPage.Filters)
    : ReportsPage.Filters :=
  ReportsPage.mkFilters
    (if String.eqb warehouseId ReportsPage.all_warehouses then None else Some warehouseId)
    None (ReportsPage.startDate f) (ReportsPage.endDate f).

Definition handleItemChange (itemId : string) (f : ReportsPage.Filters)
    : ReportsPage.Filters :=
  ReportsPage.mkFilters (ReportsPage.selectedWarehouseId f)
    (if String.eqb itemId ReportsPage.all_items then None else Some itemId)
    (ReportsPage.startDate f) (ReportsPage.endDate f).

End ReportsData.
(** * The vocabulary of the properties *)

(** ** Orders *)

(** The order that a comparator defines: [x] may come before [y]. *)
Definition before {A : Type} (cmp : A → A → Z) (x y : A) : Prop := cmp x y ≤ 0.

(** ** The warehouse detail page and its store *)

Section DetailPageVocabulary.
Import WarehouseDetailPage.

(** Two worlds with the same store, the same reports, the same log of writes
    and the same printed documents: they differ in the toasts at most. *)
Definition same_but_toasts (w w' : World.t) : Prop :=
  World.items w' = World.items w
  ∧ World.warehouses w' = World.warehouses w
  ∧ World.archivedReports w' = World.archivedReports w
  ∧ World.writes w' = World.writes w
  ∧ World.printed w' = World.printed w.

(** An item of the component is the view of a document of the store. *)
Definition mirrors (w : World.t) (item : Item.t) : Prop :=
  ∃ d, World.items w !! Item.id item = Some d ∧ item = ItemDoc.toItem (Item.id item) d.

(** Two states of the component with the same dialogs and forms. *)
Definition same_dialogs (s s' : State) : Prop :=
  warehouseIdFromParams s' = warehouseIdFromParams s
  ∧ isAddItemDialogOpen s' = isAddItemDialogOpen s
  ∧ isStockAdjustmentDialogOpen s' = isStockAdjustmentDialogOpen s
  ∧ itemForAdjustment s' = itemForAdjustment s
  ∧ adjustmentType s' = adjustmentType s
  ∧ adjustmentQuantityError s' = adjustmentQuantityError s
  ∧ itemToArchive s' = itemToArchive s.

(** The items that the component holds: the rows of the table, the item of
    the stock adjustment dialog and the item of the archive dialog. *)
Definition visible (s : State) : list Item.t :=
  items s ++ option_list (itemForAdjustment s) ++ option_list (itemToArchive s).

(** The warehouse document with the time of the server as [updatedAt]. *)
Definition touched (serverTime : Z) (wd : WarehouseDoc.t) : WarehouseDoc.t :=
  WarehouseDoc.mk (WarehouseDoc.name wd) (WarehouseDoc.description wd)
    (WarehouseDoc.isArchived wd) (WarehouseDoc.createdAt wd) serverTime
    (WarehouseDoc.ownerId wd).

(** Two collections of warehouses that differ in [updatedAt] at most. *)
Definition same_but_updatedAt (m m' : gmap string WarehouseDoc.t) : Prop :=
  ∀ docId,
    match m !! docId, m' !! docId with
    | Some wd, Some wd' =>
        WarehouseDoc.name wd' = WarehouseDoc.name wd
        ∧ WarehouseDoc.description wd' = WarehouseDoc.description wd
        ∧ WarehouseDoc.isArchived wd' = WarehouseDoc.isArchived wd
        ∧ WarehouseDoc.createdAt wd' = WarehouseDoc.createdAt wd
        ∧ WarehouseDoc.ownerId wd' = WarehouseDoc.ownerId wd
    | None, None => True
    | _, _ => False
    end.

(** A handler that has written to the items and has gone on to its end:
    [call] is its write, [title] its toast; the timestamp of the warehouse
    is written after it, and the reports and the printed documents are as
    they were. *)
Definition written (serverTime : Z) (warehouseId : string) (call : WriteCall)
    (title : string) (w w' : World.t) : Prop :=
  World.writes w' =
    World.writes w ++ [call; updateDoc_warehouse warehouseId [wh_updatedAt_serverTimestamp]]
  ∧ World.toasts w' = World.toasts w ++ [title]
  ∧ World.archivedReports w' = World.archivedReports w
  ∧ World.printed w' = World.printed w
  ∧ same_but_updatedAt (World.warehouses w) (World.warehouses w')
  ∧ (∀ wd, World.warehouses w !! warehouseId = Some wd →
           World.warehouses w' !! warehouseId = Some (touched serverTime wd)).

(** A handler whose write to the items has been refused: the store, the
    reports and the printed documents are as they were, the write is
    logged and the toast "Error" is shown. *)
Definition refused (call : WriteCall) (w w' : World.t) : Prop :=
  World.items w' = World.items w
  ∧ World.warehouses w' = World.warehouses w
  ∧ World.archivedReports w' = World.archivedReports w
  ∧ World.printed w' = World.printed w
  ∧ World.writes w' = World.writes w ++ [call]
  ∧ World.toasts w' = World.toasts w ++ ["Error"].

(** The document of an item after [handleArchiveItem]. *)
Definition archivedItem (serverTime : Z) (d : ItemDoc.t) : ItemDoc.t :=
  ItemDoc.mk (ItemDoc.warehouseId d) (ItemDoc.name d) (ItemDoc.quantity d)
    (ItemDoc.location d) (ItemDoc.createdAt d) serverTime (ItemDoc.history d) true.

(** The consume guard lets the adjustment through. *)
Definition passes_guard (type : AdjustmentType) (item : Item.t)
    (data : StockAdjustmentFormValues.t) : Prop :=
  ¬ (type = adj_CONSUME_STOCK
     ∧ Item.quantity item < StockAdjustmentFormValues.adjustmentQuantity data).

(** The outcomes of [onStockAdjustmentSubmit]. *)
Inductive AdjustOutcome (now dateNow serverTime : Z) (data : StockAdjustmentFormValues.t)
    (s : State) (w : World.t) (s' : State) (w' : World.t) : Prop :=
  | adjust_nothing :
      itemForAdjustment s = None ∨ adjustmentType s = None
        ∨ Js.truthy (warehouseIdFromParams s) = false →
      s' = s → w' = w →
      AdjustOutcome now dateNow serverTime data s w s' w'
  | adjust_rejected item :
      itemForAdjustment s = Some item →
      adjustmentType s = Some adj_CONSUME_STOCK →
      Item.quantity item < StockAdjustmentFormValues.adjustmentQuantity data →
      s' = setAdjustmentQuantityError (Some (cannotConsume (Item.quantity item))) s →
      w' = w →
      AdjustOutcome now dateNow serverTime data s w s' w'
  | adjust_failed item type :
      itemForAdjustment s = Some item →
      adjustmentType s = Some type →
      passes_guard type item data →
      World.items w !! Item.id item = None →
      s' = s →
      refused (updateDoc_item (Item.id item) (stockUpdate now dateNow type item data)) w w' →
      AdjustOutcome now dateNow serverTime data s w s' w'
  | adjust_written item type d :
      itemForAdjustment s = Some item →
      adjustmentType s = Some type →
      Js.truthy (warehouseIdFromParams s) = true →
      passes_guard type item data →
      World.items w !! Item.id item = Some d →
      s' = setAdjustmentQuantityError None (setIsStockAdjustmentDialogOpen false s) →
      World.items w' =
        <[Item.id item :=
            Firestore.applyItemFields serverTime (stockUpdate now dateNow type item data) d]>
          (World.items w) →
      written serverTime (warehouseIdFromParams s)
        (updateDoc_item (Item.id item) (stockUpdate now dateNow type item data))
        "Stock Updated" w w' →
      AdjustOutcome now dateNow serverTime data s w s' w'.

(** The outcomes of [onAddItemSubmit]. *)
Inductive AddOutcome (now dateNow serverTime : Z) (autoId : string)
    (data : ItemFormValues.t) (s : State) (w : World.t) (s' : State) (w' : World.t) : Prop :=
  | add_nothing :
      warehouse s = None ∨ Js.truthy (warehouseIdFromParams s) = false →
      s' = s → w' = w →
      AddOutcome now dateNow serverTime autoId data s w s' w'
  | add_failed d :
      is_Some (warehouse s) →
      World.items w !! autoId = Some d →
      s' = s →
      refused (addDoc_item autoId
                 (newItemData now dateNow serverTime (warehouseIdFromParams s) data)) w w' →
      AddOutcome now dateNow serverTime autoId data s w s' w'
  | add_written :
      is_Some (warehouse s) →
      Js.truthy (warehouseIdFromParams s) = true →
      World.items w !! autoId = None →
      s' = setIsAddItemDialogOpen false s →
      World.items w' =
        <[autoId := newItemData now dateNow serverTime (warehouseIdFromParams s) data]>
          (World.items w) →
      written serverTime (warehouseIdFromParams s)
        (addDoc_item autoId (newItemData now dateNow serverTime (warehouseIdFromParams s) data))
        "Item Added" w w' →
      AddOutcome now dateNow serverTime autoId data s w s' w'.

(** The outcomes of [handleArchiveItem]. *)
Inductive ArchiveOutcome (serverTime : Z)
    (s : State) (w : World.t) (s' : State) (w' : World.t) : Prop :=
  | archive_nothing :
      itemToArchive s = None ∨ Js.truthy (warehouseIdFromParams s) = false →
      s' = s → w' = w →
      ArchiveOutcome serverTime s w s' w'
  | archive_failed item :
      itemToArchive s = Some item →
      World.items w !! Item.id item = None →
      s' = s →
      refused (updateDoc_item (Item.id item) [isArchived_is true; updatedAt_serverTimestamp])
        w w' →
      ArchiveOutcome serverTime s w s' w'
  | archive_written item d :
      itemToArchive s = Some item →
      Js.truthy (warehouseIdFromParams s) = true →
      World.items w !! Item.id item = Some d →
      s' = setItemToArchive None s →
      World.items w' = <[Item.id item := archivedItem serverTime d]> (World.items w) →
      written serverTime (warehouseIdFromParams s)
        (updateDoc_item (Item.id item) [isArchived_is true; updatedAt_serverTimestamp])
        "Item Archived" w w' →
      ArchiveOutcome serverTime s w s' w'.

(** What an event does to the documents of the items and to the items that
    the component holds: it leaves the documents as they are, and the
    component holds items that it held or views of documents; or it creates
    a document, adjusts one or archives one, and the component holds no
    other items than before. *)
Inductive Step (s : State) (w : World.t) : Event → State → World.t → Prop :=
  | step_idle ev s' w' :
      World.items w' = World.items w →
      (∀ item, item ∈ visible s' → item ∈ visible s ∨ mirrors w item) →
      Step s w ev s' w'
  | step_create data now dateNow serverTime autoId s' w' :
      itemFormSchema data = true →
      World.items w !! autoId = None →
      World.items w' =
        <[autoId := newItemData now dateNow serverTime (warehouseIdFromParams s) data]>
          (World.items w) →
      (∀ item, item ∈ visible s' → item ∈ visible s) →
      Step s w (SubmitItemForm data now dateNow serverTime autoId) s' w'
  | step_adjust data now dateNow serverTime item type d s' w' :
      stockAdjustmentFormSchema data = true →
      isStockAdjustmentDialogOpen s = true →
      itemForAdjustment s = Some item →
      adjustmentType s = Some type →
      passes_guard type item data →
      World.items w !! Item.id item = Some d →
      World.items w' =
        <[Item.id item :=
            Firestore.applyItemFields serverTime (stockUpdate now dateNow type item data) d]>
          (World.items w) →
      (∀ item, item ∈ visible s' → item ∈ visible s) →
      Step s w (SubmitStockAdjustmentForm data now dateNow serverTime) s' w'
  | step_archive serverTime item d s' w' :
      itemToArchive s = Some item →
      World.items w !! Item.id item = Some d →
      World.items w' = <[Item.id item := archivedItem serverTime d]> (World.items w) →
      (∀ item, item ∈ visible s' → item ∈ visible s) →
      Step s w (ConfirmArchiveItem serverTime) s' w'.

(** Where the ids of the entries of the ledgers come from: an entry
    carries the [Date.now()] reading of its submission and the suffix of
    its handler. *)
Definition id_from (clock : list Z) (e : HistoryEntry.t) : Prop :=
  (∃ t : Z, HistoryEntry.id e = pretty t +:+ "-hist-create")
  ∨ (∃ t : Z, t ∈ clock ∧ HistoryEntry.id e = pretty t +:+ "-hist-adjust").

(** The documents of a world keep a property of documents. *)
Definition documents (P : ItemDoc.t → Prop) (w : World.t) : Prop :=
  ∀ docId d, World.items w !! docId = Some d → P d.

Definition reconciled (d : ItemDoc.t) : Prop :=
  replay (ItemDoc.history d) = ItemDoc.quantity d.

Definition ids_from (clock : list Z) (d : ItemDoc.t) : Prop :=
  Forall (id_from clock) (ItemDoc.history d).

(** *** Conditions on the events of a run *)

(** Every event of a run passes a check, made on the state and the store
    that the event meets. *)
Fixpoint every_step (check : State * World.t → Event → bool) (evs : list Event)
    (sw : State * World.t) : bool :=
  match evs with
  | [] => true
  | ev :: evs' => check sw ev && every_step check evs' (dispatch sw ev)
  end.

(** The dialog is in step with the store when the adjustment is submitted:
    the quantity that the dialog holds for its item is the quantity of the
    document. *)
Definition inStep (sw : State * World.t) (ev : Event) : bool :=
  match ev, itemForAdjustment sw.1 with
  | SubmitStockAdjustmentForm _ _ _ _, Some item =>
      match World.items sw.2 !! Item.id item with
      | Some d => bool_decide (ItemDoc.quantity d = Item.quantity item)
      | None => true
      end
  | _, _ => true
  end.

(** The largest magnitude below which every integer is a double. *)
Definition maxSafe : Z := 2 ^ 53.

(** The sum of an adjustment is an integer that a double holds exactly. *)
Definition inSafeRange (sw : State * World.t) (ev : Event) : bool :=
  match ev, itemForAdjustment sw.1, adjustmentType sw.1 with
  | SubmitStockAdjustmentForm data _ _ _, Some item, Some type =>
      bool_decide (Z.abs (Item.quantity item + quantityChange type data) ≤ maxSafe)
  | _, _, _ => true
  end.

(** Both conditions. *)
Definition exact (sw : State * World.t) (ev : Event) : bool :=
  inStep sw ev && inSafeRange sw ev.

End DetailPageVocabulary.

(** ** The reports *)

Section ReportsVocabulary.
Import ReportsPage.

(** The loaded warehouse that an item belongs to: the first one with the
    id that the item refers to. *)
Definition parent (warehouses : list Warehouse.t) (item : Item.t) : option Warehouse.t :=
  Js.find (λ wh, String.eqb (Warehouse.id wh) (Item.warehouseId item)) warehouses.

(** An entry of the ledger of an item, widened with the names and the ids
    of the item and of its warehouse. *)
Definition widen (item : Item.t) (wh : Warehouse.t) (entry : HistoryEntry.t)
    : FlattenedHistoryEntry.t :=
  FlattenedHistoryEntry.mk entry (Item.name item) (Warehouse.name wh)
    (Item.id item) (Warehouse.id wh).

(** The entries that an item contributes: one for each entry of its ledger
    if its warehouse is loaded, none otherwise. *)
Definition contribution (warehouses : list Warehouse.t) (item : Item.t)
    : list FlattenedHistoryEntry.t :=
  match parent warehouses item with
  | Some wh => widen item wh <$> Item.history item
  | None => []
  end.

(** Most recent first. *)
Definition newest_first (a b : FlattenedHistoryEntry.t) : Prop :=
  FlattenedHistoryEntry.timestamp b ≤ FlattenedHistoryEntry.timestamp a.

(** The filters without the dates. *)
Definition withoutDates (f : Filters) : Filters :=
  mkFilters (selectedWarehouseId f) (selectedItemId f) None None.

(** The day of the local calendar that an instant falls on. *)
Definition localDay (LocalTZA : Z → bool → Z) (t : Z) : Z :=
  JsDate.Day (JsDate.LocalTime LocalTZA t).

(** The first and the last millisecond of a day of the local calendar, as
    local times. *)
Definition firstOfDay (day : Z) : Z := JsDate.MakeDate day (JsDate.MakeTime 0 0 0 0).
Definition lastOfDay (day : Z) : Z := JsDate.MakeDate day (JsDate.MakeTime 23 59 59 999).

(** The local time [x] opens a period in a zone: the instants from the one
    that [x] denotes on are those at which the local clock reads [x] or
    more.  It closes a period: the instants up to the one that [x] denotes
    are those at which the local clock reads [x] or less.  A clock that is
    set back across [x] breaks both. *)
Definition opens (LocalTZA : Z → bool → Z) (x : Z) : Prop :=
  ∀ t, JsDate.UTC LocalTZA x ≤ t ↔ x ≤ JsDate.LocalTime LocalTZA t.

Definition closes (LocalTZA : Z → bool → Z) (x : Z) : Prop :=
  ∀ t, t ≤ JsDate.UTC LocalTZA x ↔ JsDate.LocalTime LocalTZA t ≤ x.

Definition archivedWarehouse (serverTime : Z) (d : WarehouseDoc.t) : WarehouseDoc.t :=
  WarehouseDoc.mk (WarehouseDoc.name d) (WarehouseDoc.description d) true
    (WarehouseDoc.createdAt d) serverTime (WarehouseDoc.ownerId d).

(** What a printed document shows of the item it is about (the quantity
    that the report labels "Current Quantity"), if it is an item report. *)
Definition printedItem (p : Printable) : option Item.t :=
  match p with
  | PrintableItemReport _ item _ _ => Some item
  | PrintableWarehouseReport _ _ _ _ => None
  end.

(** The rows of a printed warehouse report. *)
Definition printedRows (p : Printable) : list ItemSummary.t :=
  match p with
  | PrintableItemReport _ _ _ _ => []
  | PrintableWarehouseReport _ items _ _ => items
  end.

End ReportsVocabulary.

(** ** A scenario

    One warehouse, one item: the item is created with 10 pieces, 5 are
    added, and 3 are consumed. *)

Module Scenario.
Import WarehouseDetailPage.

Definition warehouses : gmap string WarehouseDoc.t :=
  {[ "w1" := WarehouseDoc.mk "Main" "" false 0 0 "u1" ]}.

Definition start : State * World.t := (initialState "w1", initialWorld warehouses).

Definition createBolt : Event :=
  SubmitItemForm (ItemFormValues.mk "Bolt" 10 None) 1000 1001 1002 "i1".

Definition entryCreate : HistoryEntry.t :=
  HistoryEntry.mk "1001-hist-create" CREATE_ITEM 10 0 10 (Some "Initial item creation") 1000.

Definition entryAdd : HistoryEntry.t :=
  HistoryEntry.mk "2001-hist-adjust" ADD_STOCK 5 10 15 (Some "Stock added") 2000.

Definition entryConsume : HistoryEntry.t :=
  HistoryEntry.mk "3001-hist-adjust" CONSUME_STOCK (-3) 15 12 (Some "Stock consumed") 3000.

(** The item as the page shows it once it is created. *)
Definition bolt : Item.t :=
  Item.mk "i1" "w1" "Bolt" 10 (Some "") 1002 1002 [entryCreate] false None.

(** The item is created and the dialog to add stock is open. *)
Definition created : list Event :=
  [Mounted; ClickAddItem; createBolt; LoadSettled; ClickAdjustStock 0 adj_ADD_STOCK].

Definition add5 : Event :=
  SubmitStockAdjustmentForm (StockAdjustmentFormValues.mk 5 None) 2000 2001 2002.

Definition consume3 : Event :=
  SubmitStockAdjustmentForm (StockAdjustmentFormValues.mk 3 None) 3000 3001 3002.

Definition adjusted : list Event :=
  created ++ [add5; LoadSettled; ClickAdjustStock 0 adj_CONSUME_STOCK; consume3].

(** The document of the item after the three mutations. *)
Definition boltDoc : ItemDoc.t :=
  ItemDoc.mk "w1" "Bolt" 12 "" 1002 3002 [entryCreate; entryAdd; entryConsume] false.


Definition nut : Item.t :=
  Item.mk "i2" "w1" "Nut" 5 (Some "") 402 402
    [HistoryEntry.mk "401-hist-create" CREATE_ITEM 5 0 5 (Some "Initial item creation") 400]
    false None.


(** The page when the reports are printed: what the page needs is there,
    the element of the report and [html2pdf], and localStorage takes the
    report. *)
Definition printing : PrintEnv.t := PrintEnv.mk true false false.

(** The dialog to consume is opened from the table before the reload that
    the addition has started has settled: the row still shows 10 pieces. *)
Definition beforeReload : list Event :=
  created ++ [add5; ClickAdjustStock 0 adj_CONSUME_STOCK; consume3].

Definition entryConsumeStale : HistoryEntry.t :=
  HistoryEntry.mk "3001-hist-adjust" CONSUME_STOCK (-3) 10 7 (Some "Stock consumed") 3000.

(** An addition of 1, a consumption of 1 and a second addition of 1 that
    all read the same millisecond. *)
Definition one : StockAdjustmentFormValues.t := StockAdjustmentFormValues.mk 1 None.

Definition sameMillisecond : list Event :=
  created ++
  [ SubmitStockAdjustmentForm one 2000 2001 2002; LoadSettled;
    ClickAdjustStock 0 adj_CONSUME_STOCK;
    SubmitStockAdjustmentForm one 2000 2001 2002; LoadSettled;
    ClickAdjustStock 0 adj_ADD_STOCK;
    SubmitStockAdjustmentForm one 2000 2001 2002 ].

(** Two additions of 5 whose submissions read the same millisecond. *)
Definition sameId : list Event :=
  created ++ [add5; LoadSettled; ClickAdjustStock 0 adj_ADD_STOCK; add5].

Definition entryAddAgain : HistoryEntry.t :=
  HistoryEntry.mk "2001-hist-adjust" ADD_STOCK 5 15 20 (Some "Stock added") 2000.

(** An item created with 2^53 pieces, to which 1 piece is added. *)
Definition createLarge : Event :=
  SubmitItemForm (ItemFormValues.mk "Bolt" (2 ^ 53) None) 1000 1001 1002 "i1".

Definition large : list Event :=
  [Mounted; ClickAddItem; createLarge; LoadSettled; ClickAdjustStock 0 adj_ADD_STOCK;
   SubmitStockAdjustmentForm one 2000 2001 2002].

Definition entryAddLarge : HistoryEntry.t :=
  HistoryEntry.mk "2001-hist-adjust" ADD_STOCK 1 (2 ^ 53) (2 ^ 53) (Some "Stock added") 2000.
End Scenario.

(** ** A warehouse with three items

    Two items of the warehouse "w1", one of them archived already, and one
    item of the warehouse "w2". *)

Module ArchiveScenario.
Import WarehousesPage.

Definition main : Warehouse.t :=
  Warehouse.mk "w1" "Main" (Some "") false 0 0 "placeholder-owner-id".

Definition bolt : ItemDoc.t := ItemDoc.mk "w1" "Bolt" 12 "" 10 30 [] false.
Definition nut : ItemDoc.t := ItemDoc.mk "w1" "Nut" 0 "" 11 31 [] true.
Definition gear : ItemDoc.t := ItemDoc.mk "w2" "Gear" 7 "" 12 32 [] false.

Definition world : World.t :=
  World.mk {[ "i1" := bolt; "i2" := nut; "i3" := gear ]}
    {[ "w1" := WarehouseDoc.mk "Main" "" false 0 0 "u1";
       "w2" := WarehouseDoc.mk "Annex" "" false 1 1 "u1" ]}
    [] [] [] [].

Definition page : State := mkState [main] (Some main).

(** The detail page of "w1" with the dialog that confirms the archiving of
    the item "i1", and with that of an item that the store does not
    hold. *)
Definition confirming : WarehouseDetailPage.State :=
  WarehouseDetailPage.setItemToArchive (Some (ItemDoc.toItem "i1" bolt))
    (WarehouseDetailPage.initialState "w1").

Definition confirmingMissing : WarehouseDetailPage.State :=
  WarehouseDetailPage.setItemToArchive (Some (ItemDoc.toItem "i9" bolt))
    (WarehouseDetailPage.initialState "w1").
End ArchiveScenario.

(** ** Two entries around a midnight

    In a zone that keeps the offset UTC+03:00: the date that the calendar
    gives for 2024-01-10 (its local midnight), an entry of
    2024-01-10T23:59:00 and an entry of 2024-01-11T00:00:01. *)

Module DateScenario.
Definition zone : Z → bool → Z := JsDate.fixedOffset 10800000.

Definition picked : Z := JsDate.localDateTime zone 2024 1 10 0 0 0 0.



Definition filters : ReportsPage.Filters :=
  ReportsPage.mkFilters None None (Some picked) (Some picked).
End DateScenario.

(** ** A day on which the clocks go forward

    The rules of America/New_York around 2024-03-10: the offset is
    UTC-05:00 up to 2024-03-10T07:00:00Z and UTC-04:00 from then on, so
    that the local day has 23 hours and its two ends have different
    offsets. *)

Module SpringForward.
Definition transition : Z := JsDate.MakeDate (JsDate.MakeDay 2024 3 10) (JsDate.MakeTime 7 0 0 0).

Definition zone : Z → bool → Z := JsDate.oneTransition transition (-18000000) (-14400000).

Definition day : Z := JsDate.MakeDay 2024 3 10.

(** The date that the calendar gives for the day: its local midnight. *)
Definition picked : Z := JsDate.localDateTime zone 2024 3 10 0 0 0 0.
End SpringForward.

(** ** A day on which the clocks go back at midnight

    The rules of America/Sao_Paulo around 2018-02-17: the offset is
    UTC-02:00 up to 2018-02-18T02:00:00Z, the local midnight, and
    UTC-03:00 from then on, so that the local clock reads the hour from
    23:00 to 24:00 of 2018-02-17 twice.  The entry is written half an
    hour after the transition, at 23:30 of 2018-02-17 on the local clock. *)

Module FallBack.
Definition transition : Z := JsDate.MakeDate (JsDate.MakeDay 2018 2 18) (JsDate.MakeTime 2 0 0 0).

Definition zone : Z → bool → Z := JsDate.oneTransition transition (-7200000) (-10800000).

Definition day : Z := JsDate.MakeDay 2018 2 17.

Definition picked : Z := JsDate.localDateTime zone 2018 2 17 0 0 0 0.


Definition filters : ReportsPage.Filters :=
  ReportsPage.mkFilters None None (Some picked) (Some picked).
End FallBack.

(** ** Ledgers *)

(** An entry whose quantities add up as numbers do: quantityAfter is the
    double nearest to quantityBefore + change. *)
Definition balanced (e : HistoryEntry.t) : Prop :=
  HistoryEntry.quantityAfter e
  = Js.add (HistoryEntry.quantityBefore e) (HistoryEntry.change e).

(** An entry whose quantities are within the range in which every integer
    is a double. *)
Definition safe (e : HistoryEntry.t) : Prop :=
  Z.abs (HistoryEntry.quantityBefore e + HistoryEntry.change e) ≤ maxSafe.

(** A ledger that starts from the quantity [q]: every entry starts from the
    quantity that the entry before it has left. *)
Fixpoint chained (q : Z) (ledger : list HistoryEntry.t) : Prop :=
  match ledger with
  | [] => True
  | e :: ledger' =>
      HistoryEntry.quantityBefore e = q ∧ chained (HistoryEntry.quantityAfter e) ledger'
  end.

(** The quantity that a ledger that starts from [q] leaves. *)
Definition closing (q : Z) (ledger : list HistoryEntry.t) : Z :=
  foldl (λ _ e, HistoryEntry.quantityAfter e) q ledger.

(** The ledger of an item of the page: the entry of its creation, then
    additions and consumptions. *)
Definition created_then_adjusted (ledger : list HistoryEntry.t) : Prop :=
  ∃ e rest,
    ledger = e :: rest
    ∧ HistoryEntry.type e = CREATE_ITEM
    ∧ Forall (λ e', HistoryEntry.type e' = ADD_STOCK ∨ HistoryEntry.type e' = CONSUME_STOCK) rest.

(** A later version of a document: the ledger has grown at its end, and
    the fields that no handler of the page writes are the same. *)
Definition extends (d d' : ItemDoc.t) : Prop :=
  ItemDoc.history d `prefix_of` ItemDoc.history d'
  ∧ ItemDoc.warehouseId d' = ItemDoc.warehouseId d
  ∧ ItemDoc.name d' = ItemDoc.name d
  ∧ ItemDoc.location d' = ItemDoc.location d
  ∧ ItemDoc.createdAt d' = ItemDoc.createdAt d.

(** An item that the component holds is a view of a document of the store,
    taken now or earlier: the document is there and it is a later version
    of the one that was read. *)
Definition seen (w : World.t) (item : Item.t) : Prop :=
  ∃ d0 d,
    item = ItemDoc.toItem (Item.id item) d0
    ∧ World.items w !! Item.id item = Some d
    ∧ extends d0 d.

(** The volume of a ledger: the sum of the magnitudes of its changes. *)
Definition volume (ledger : list HistoryEntry.t) : Z :=
  foldl (λ total e, total + Z.abs (HistoryEntry.change e)) 0 ledger.

(** The sign that the engine gives to the change of an entry. *)
Definition signed (e : HistoryEntry.t) : Prop :=
  match HistoryEntry.type e with
  | CREATE_ITEM => 0 ≤ HistoryEntry.change e
  | ADD_STOCK => 0 < HistoryEntry.change e
  | CONSUME_STOCK => HistoryEntry.change e < 0
  | _ => False
  end.

(** ** The table of the warehouse detail page *)

Section PageVocabulary.
Import WarehouseDetailPage.

(** A list shows the items of a warehouse in a store: its members are the
    views of the documents of the warehouse that are not archived. *)
Definition lists (warehouseId : string) (w : World.t) (l : list Item.t) : Prop :=
  ∀ item,
    item ∈ l
    ↔ ∃ d, World.items w !! Item.id item = Some d
           ∧ ItemDoc.warehouseId d = warehouseId
           ∧ ItemDoc.isArchived d = false
           ∧ item = ItemDoc.toItem (Item.id item) d.

Definition latest_first (l : list Item.t) : Prop :=
  StronglySorted (λ a b, Item.updatedAt b ≤ Item.updatedAt a) l.

Definition listing (warehouseId : string) (w : World.t) (l : list Item.t) : Prop :=
  lists warehouseId w l ∧ latest_first l ∧ NoDup (Item.id <$> l).

(** A warehouse that the page can open: the id of the route is not empty
    and names a document that is not archived. *)
Definition usable (warehouses : gmap string WarehouseDoc.t) (warehouseId : string) : Prop :=
  Js.truthy warehouseId = true
  ∧ ∃ wd, warehouses !! warehouseId = Some wd ∧ WarehouseDoc.isArchived wd = false.

(** The page and the store of a warehouse, [warehouses] being the
    warehouses that the store had when the page was opened. *)
Record Page (warehouses : gmap string WarehouseDoc.t) (warehouseId : string)
    (s : State) (w : World.t) : Prop := mkPage {
  page_id : warehouseIdFromParams s = warehouseId;
  page_warehouses : same_but_updatedAt warehouses (World.warehouses w);
  page_warehouse :
    ∀ wh, warehouse s = Some wh →
      usable warehouses warehouseId
      ∧ Warehouse.id wh = warehouseId
      ∧ ∃ wd, warehouses !! warehouseId = Some wd ∧ Warehouse.name wh = WarehouseDoc.name wd;
  page_closed :
    warehouse s = None →
      visible s = []
      ∧ World.items w = ∅ ∧ World.writes w = [] ∧ World.archivedReports w = []
      ∧ World.printed w = [];
  page_rows : latest_first (items s) ∧ NoDup (Item.id <$> items s);
}.

End PageVocabulary.

(** ** The archive *)

(** The fields that [handleRestoreItem] writes to a document. *)
Definition restoredItem (serverTime : Z) (d : ItemDoc.t) : ItemDoc.t :=
  ItemDoc.mk (ItemDoc.warehouseId d) (ItemDoc.name d) (ItemDoc.quantity d)
    (ItemDoc.location d) (ItemDoc.createdAt d) serverTime (ItemDoc.history d) false.

Definition restoredWarehouse (serverTime : Z) (d : WarehouseDoc.t) : WarehouseDoc.t :=
  WarehouseDoc.mk (WarehouseDoc.name d) (WarehouseDoc.description d) false
    (WarehouseDoc.createdAt d) serverTime (WarehouseDoc.ownerId d).

(** The row of the archive page for a warehouse document. *)
Definition archiveRow (docId : string) (wd : WarehouseDoc.t) : ArchivePage.ArchivedWarehouse.t :=
  {| ArchivePage.ArchivedWarehouse.id := docId;
     ArchivePage.ArchivedWarehouse.name := WarehouseDoc.name wd;
     ArchivePage.ArchivedWarehouse.description := WarehouseDoc.description wd;
     ArchivePage.ArchivedWarehouse.isArchived := WarehouseDoc.isArchived wd;
     ArchivePage.ArchivedWarehouse.createdAt := WarehouseDoc.createdAt wd;
     ArchivePage.ArchivedWarehouse.updatedAt := WarehouseDoc.updatedAt wd |}.

(** The archive page shows the archive of a store: its two tables hold the
    archived documents, each one once, the one updated last first, and its
    map gives the names of all the warehouses. *)
Definition shows_the_archive (w : World.t) (s : ArchivePage.State) : Prop :=
  (∀ item,
     item ∈ ArchivePage.archivedItems s
     ↔ ∃ d, World.items w !! Item.id item = Some d
            ∧ ItemDoc.isArchived d = true
            ∧ item = ItemDoc.toItem (Item.id item) d)
  ∧ latest_first (ArchivePage.archivedItems s)
  ∧ NoDup (Item.id <$> ArchivePage.archivedItems s)
  ∧ (∀ row,
       row ∈ ArchivePage.archivedWarehouses s
       ↔ ∃ wd, World.warehouses w !! ArchivePage.ArchivedWarehouse.id row = Some wd
               ∧ WarehouseDoc.isArchived wd = true
               ∧ row = archiveRow (ArchivePage.ArchivedWarehouse.id row) wd)
  ∧ StronglySorted
      (λ a b, ArchivePage.ArchivedWarehouse.updatedAt b ≤ ArchivePage.ArchivedWarehouse.updatedAt a)
      (ArchivePage.archivedWarehouses s)
  ∧ NoDup (ArchivePage.ArchivedWarehouse.id <$> ArchivePage.archivedWarehouses s)
  ∧ ArchivePage.allWarehousesMap s = WarehouseDoc.name <$> World.warehouses w.

(** ** The list of the warehouses *)

(** The row of the list for a warehouse document. *)
Definition warehouseRow (docId : string) (wd : WarehouseDoc.t) : Warehouse.t :=
  {| Warehouse.id := docId;
     Warehouse.name := WarehouseDoc.name wd;
     Warehouse.description := Some (WarehouseDoc.description wd);
     Warehouse.isArchived := WarehouseDoc.isArchived wd;
     Warehouse.createdAt := WarehouseDoc.createdAt wd;
     Warehouse.updatedAt := WarehouseDoc.updatedAt wd;
     Warehouse.ownerId := "placeholder-owner-id" |}.

(** A list shows the warehouses of a store: the warehouses that are not
    archived, each once, the one updated last first. *)
Definition shows_the_warehouses (w : World.t) (l : list Warehouse.t) : Prop :=
  (∀ wh,
     wh ∈ l
     ↔ ∃ wd, World.warehouses w !! Warehouse.id wh = Some wd
             ∧ WarehouseDoc.isArchived wd = false
             ∧ wh = warehouseRow (Warehouse.id wh) wd)
  ∧ StronglySorted (λ a b, Warehouse.updatedAt b ≤ Warehouse.updatedAt a) l
  ∧ NoDup (Warehouse.id <$> l).

(** A handler that has failed and has left things as they were: it
    returns [a], the store and the archived reports are those of [w], and
    the toast "Error" is shown. *)
Definition fails_unchanged {A} (w : World.t) (r : Result A * World.t) (a : A) : Prop :=
  r.1 = Ok a
  ∧ World.items r.2 = World.items w
  ∧ World.warehouses r.2 = World.warehouses w
  ∧ World.archivedReports r.2 = World.archivedReports w
  ∧ World.toasts r.2 = World.toasts w ++ ["Error"].

(** ** The archived reports *)

(** A computation that keeps the archived reports: whatever it returns or
    throws, the reports of localStorage are those that there were, with
    new ones at the end at most. *)
Definition keeps_reports {A} (m : Eff A) : Prop :=
  ∀ w, World.archivedReports w `prefix_of` World.archivedReports (m w).2.

(** * Properties *)

(** ** Sorting *)

Section Sort.
Context {A : Type} (cmp : A → A → Z).

Lemma insert_sorted_Permutation x l : Js.insert_sorted cmp x l ≡ₚ x :: l.
Proof.
  induction l as [|y l IH]; simpl; [done|].
  destruct (cmp x y <=? 0); [done|].
  rewrite IH. apply Permutation_swap.
Qed.

Lemma sort_Permutation l : Js.sort cmp l ≡ₚ l.
Proof.
  induction l as [|x l IH]; simpl; [done|].
  rewrite insert_sorted_Permutation. by rewrite IH.
Qed.

Lemma elem_of_sort x l : x ∈ Js.sort cmp l ↔ x ∈ l.
Proof. by rewrite sort_Permutation. Qed.

Hypothesis before_total : ∀ x y, before cmp x y ∨ before cmp y x.
Hypothesis before_trans : ∀ x y z, before cmp x y → before cmp y z → before cmp x z.

Lemma insert_sorted_StronglySorted x l :
  StronglySorted (before cmp) l → StronglySorted (before cmp) (Js.insert_sorted cmp x l).
Proof.
  induction 1 as [|y l Hl IH Hy]; simpl.
  - repeat constructor.
  - destruct (Z.leb_spec (cmp x y) 0) as [Hxy|Hxy].
    + constructor; [by constructor|].
      constructor; [done|].
      eapply Forall_impl; [exact Hy|]. intros z Hz. by eapply before_trans.
    + constructor; [done|].
      rewrite insert_sorted_Permutation. constructor; [|done].
      destruct (before_total x y) as [H|H]; [unfold before in H; lia|done].
Qed.

Lemma sort_StronglySorted l : StronglySorted (before cmp) (Js.sort cmp l).
Proof.
  induction l as [|x l IH]; simpl; [constructor|].
  by apply insert_sorted_StronglySorted.
Qed.
End Sort.

(** ** Strings *)

Lemma string_length_app (a b : string) :
  String.length (a +:+ b) = (String.length a + String.length b)%nat.
Proof.
  induction a as [|c a IH]; [done|].
  change (S (String.length (a +:+ b)) = S (String.length a + String.length b)).
  by rewrite IH.
Qed.

Lemma string_app_inj_suffix (a b s1 s2 : string) :
  String.length s1 = String.length s2 → a +:+ s1 = b +:+ s2 → a = b ∧ s1 = s2.
Proof.
  revert b. induction a as [|c a IH]; intros [|c' b] Hlen Heq.
  - split; [done|exact Heq].
  - change (s1 = String c' (b +:+ s2)) in Heq. rewrite Heq in Hlen.
    change (S (String.length (b +:+ s2)) = String.length s2) in Hlen.
    rewrite string_length_app in Hlen. lia.
  - change (String c (a +:+ s1) = s2) in Heq. rewrite <- Heq in Hlen.
    change (String.length s1 = S (String.length (a +:+ s1))) in Hlen.
    rewrite string_length_app in Hlen. lia.
  - change (String c (a +:+ s1) = String c' (b +:+ s2)) in Heq.
    injection Heq as -> Heq. destruct (IH b Hlen Heq) as [-> ->]. done.
Qed.

Lemma truthy_ne (x : string) : Js.truthy x = true ↔ x ≠ "".
Proof.
  unfold Js.truthy. destruct (String.eqb_spec x ""); simpl; split; done.
Qed.

(** ** The monad of handlers *)

Ltac eff_unfold :=
  cbv beta iota zeta delta
    [bind pure throw try_catch get modify toast render
     Firestore.logWrite Firestore.getWarehouse Firestore.queryItems
     Firestore.updateItem Firestore.updateWarehouse Firestore.addItem
     Firestore.commitBatch] in *.

(** ** Numbers *)

Section Numbers.

Lemma roundToDouble_exact (z : Z) : Z.abs z ≤ 2 ^ 53 → Js.roundToDouble z = z.
Proof.
  intros Hz. unfold Js.roundToDouble. cbv zeta.
  by rewrite (proj2 (Z.leb_le _ _) Hz).
Qed.

Lemma add_exact (a b : Z) : Z.abs (a + b) ≤ maxSafe → Js.add a b = a + b.
Proof. apply roundToDouble_exact. Qed.

Lemma roundToDouble_nonneg (z : Z) : 0 ≤ z → 0 ≤ Js.roundToDouble z.
Proof.
  intros Hz. unfold Js.roundToDouble. cbv zeta.
  destruct (Z.abs z <=? 2 ^ 53) eqn:Hsmall; [done|].
  apply Z.leb_gt in Hsmall.
  assert (0 < z) as Hpos by lia.
  rewrite (Z.abs_eq z) by lia. rewrite (Z.sgn_pos z) by done.
  set (ulp := 2 ^ (Z.log2 z - 52)).
  assert (0 < ulp) as Hulp.
  { apply Z.pow_pos_nonneg; [done|]. 
    assert (53 ≤ Z.log2 z); [|lia].
    apply Z.log2_le_pow2; lia. }
  pose proof (Z.div_pos z ulp ltac:(lia) Hulp).
  repeat case_match; nia.
Qed.

Lemma add_nonneg (a b : Z) : 0 ≤ a + b → 0 ≤ Js.add a b.
Proof. apply roundToDouble_nonneg. Qed.

End Numbers.

Example roundToDouble_above_2_53 :
  Js.roundToDouble (2 ^ 53 + 1) = 2 ^ 53 ∧ Js.roundToDouble (2 ^ 53 + 3) = 2 ^ 53 + 4
  ∧ Js.roundToDouble (2 ^ 54 + 2) = 2 ^ 54 ∧ Js.roundToDouble (- (2 ^ 53) - 1) = - 2 ^ 53.
Proof. by vm_compute. Qed.

Example length_counts_code_units :
  Js.length "ab" = 2%nat
  ∧ Js.length (String (Ascii.ascii_of_nat 195) (String (Ascii.ascii_of_nat 169) "")) = 1%nat
  ∧ Js.length (String (Ascii.ascii_of_nat 240) (String (Ascii.ascii_of_nat 159)
                 (String (Ascii.ascii_of_nat 152) (String (Ascii.ascii_of_nat 128) ""))))
    = 2%nat.
Proof. by vm_compute. Qed.

(** ** The warehouse detail page: the handlers *)

Section DetailPageHandlers.
Import WarehouseDetailPage.

Lemma same_but_updatedAt_refl m : same_but_updatedAt m m.
Proof. intros docId. by destruct (m !! docId). Qed.

Lemma same_but_updatedAt_trans m1 m2 m3 :
  same_but_updatedAt m1 m2 → same_but_updatedAt m2 m3 → same_but_updatedAt m1 m3.
Proof.
  intros H12 H23 docId. specialize (H12 docId). specialize (H23 docId).
  destruct (m1 !! docId), (m2 !! docId), (m3 !! docId); try done.
  destruct H12 as (? & ? & ? & ? & ?), H23 as (? & ? & ? & ? & ?).
  repeat split; congruence.
Qed.

Lemma same_but_updatedAt_lookup m m' docId wd :
  same_but_updatedAt m m' → m !! docId = Some wd →
  ∃ wd', m' !! docId = Some wd'
         ∧ WarehouseDoc.name wd' = WarehouseDoc.name wd
         ∧ WarehouseDoc.isArchived wd' = WarehouseDoc.isArchived wd.
Proof.
  intros H Hwd. specialize (H docId). rewrite Hwd in H.
  destruct (m' !! docId) as [wd'|]; [|done]. exists wd'. tauto.
Qed.

Lemma same_but_updatedAt_lookup_r m m' docId wd' :
  same_but_updatedAt m m' → m' !! docId = Some wd' →
  ∃ wd, m !! docId = Some wd
        ∧ WarehouseDoc.name wd' = WarehouseDoc.name wd
        ∧ WarehouseDoc.isArchived wd' = WarehouseDoc.isArchived wd.
Proof.
  intros H Hwd. specialize (H docId). rewrite Hwd in H.
  destruct (m !! docId) as [wd|]; [|done]. exists wd. tauto.
Qed.

Lemma updateWarehouseTimestampInFirestore_spec serverTime warehouseId w :
  Js.truthy warehouseId = true →
  ∃ w', updateWarehouseTimestampInFirestore serverTime warehouseId w = (Ok tt, w')
    ∧ World.items w' = World.items w
    ∧ World.archivedReports w' = World.archivedReports w
    ∧ World.toasts w' = World.toasts w
    ∧ World.printed w' = World.printed w
    ∧ World.writes w' =
        World.writes w ++ [updateDoc_warehouse warehouseId [wh_updatedAt_serverTimestamp]]
    ∧ same_but_updatedAt (World.warehouses w) (World.warehouses w')
    ∧ (∀ wd, World.warehouses w !! warehouseId = Some wd →
             World.warehouses w' !! warehouseId = Some (touched serverTime wd)).
Proof.
  intros Hid. unfold updateWarehouseTimestampInFirestore. rewrite Hid. simpl.
  eff_unfold. simpl.
  destruct (World.warehouses w !! warehouseId) as [wd|] eqn:Hwd; simpl.
  - eexists. split; [done|]. simpl. repeat split.
    + intros docId. destruct (decide (warehouseId = docId)) as [<-|Hne].
      * rewrite lookup_insert_eq, Hwd. done.
      * rewrite lookup_insert_ne by done. by destruct (World.warehouses w !! docId).
    + intros wd' [= <-]. by rewrite lookup_insert_eq.
  - eexists. split; [done|]. simpl. repeat split; [apply same_but_updatedAt_refl|done].
Qed.

Lemma onStockAdjustmentSubmit_outcome now dateNow serverTime data s w :
  ∃ s' w', onStockAdjustmentSubmit now dateNow serverTime data s w = (Ok s', w')
    ∧ AdjustOutcome now dateNow serverTime data s w s' w'.
Proof.
  unfold onStockAdjustmentSubmit.
  destruct (itemForAdjustment s) as [item|] eqn:Hitem;
    [|eexists _, _; split; [done|]; apply adjust_nothing; auto].
  destruct (adjustmentType s) as [type|] eqn:Htype;
    [|eexists _, _; split; [done|]; apply adjust_nothing; auto].
  destruct (Js.truthy (warehouseIdFromParams s)) eqn:Hwid; simpl;
    [|eexists _, _; split; [done|]; apply adjust_nothing; auto].
  destruct (bool_decide (type = adj_CONSUME_STOCK)
            && bool_decide (Item.quantity item
                            < StockAdjustmentFormValues.adjustmentQuantity data)) eqn:Hguard.
  - apply andb_true_iff in Hguard as [->%bool_decide_eq_true Hlt%bool_decide_eq_true].
    eexists _, _. split; [done|]. by eapply adjust_rejected.
  - assert (passes_guard type item data) as Hok.
    { intros [H1 H2]. apply andb_false_iff in Hguard as [H|H];
        apply bool_decide_eq_false in H; done. }
    eff_unfold. simpl.
    destruct (World.items w !! Item.id item) as [d|] eqn:Hd; simpl.
    + match goal with
      | |- context [updateWarehouseTimestampInFirestore ?t ?i ?w1] =>
          destruct (updateWarehouseTimestampInFirestore_spec t i w1 Hwid)
            as (w3 & -> & Hi3 & Ha3 & Ht3 & Hp3 & Hw3 & Hsame & Hstamp)
      end.
      eexists _, _. split; [done|].
      eapply adjust_written; eauto.
      repeat split; try done.
      by rewrite Hw3; simpl; rewrite <- app_assoc.
    + eexists _, _. split; [done|]. by eapply adjust_failed.
Qed.

Lemma onAddItemSubmit_outcome now dateNow serverTime autoId data s w :
  ∃ s' w', onAddItemSubmit now dateNow serverTime autoId data s w = (Ok s', w')
    ∧ AddOutcome now dateNow serverTime autoId data s w s' w'.
Proof.
  unfold onAddItemSubmit.
  destruct (warehouse s) as [wh|] eqn:Hwh;
    [|eexists _, _; split; [done|]; apply add_nothing; auto].
  destruct (Js.truthy (warehouseIdFromParams s)) eqn:Hwid; simpl;
    [|eexists _, _; split; [done|]; apply add_nothing; auto].
  eff_unfold. simpl.
  destruct (World.items w !! autoId) as [d|] eqn:Hd; simpl.
  - eexists _, _. split; [done|]. by eapply add_failed.
  - match goal with
    | |- context [updateWarehouseTimestampInFirestore ?t ?i ?w1] =>
        destruct (updateWarehouseTimestampInFirestore_spec t i w1 Hwid)
          as (w3 & -> & Hi3 & Ha3 & Ht3 & Hp3 & Hw3 & Hsame & Hstamp)
    end.
    eexists _, _. split; [done|].
    eapply add_written; eauto.
    repeat split; try done.
    by rewrite Hw3; simpl; rewrite <- app_assoc.
Qed.

Lemma handleArchiveItem_outcome serverTime s w :
  ∃ s' w', handleArchiveItem serverTime s w = (Ok s', w')
    ∧ ArchiveOutcome serverTime s w s' w'.
Proof.
  unfold handleArchiveItem.
  destruct (itemToArchive s) as [item|] eqn:Hitem;
    [|eexists _, _; split; [done|]; apply archive_nothing; auto].
  destruct (Js.truthy (warehouseIdFromParams s)) eqn:Hwid; simpl;
    [|eexists _, _; split; [done|]; apply archive_nothing; auto].
  eff_unfold. simpl.
  destruct (World.items w !! Item.id item) as [d|] eqn:Hd; simpl.
  - match goal with
    | |- context [updateWarehouseTimestampInFirestore ?t ?i ?w1] =>
        destruct (updateWarehouseTimestampInFirestore_spec t i w1 Hwid)
          as (w3 & -> & Hi3 & Ha3 & Ht3 & Hp3 & Hw3 & Hsame & Hstamp)
    end.
    eexists _, _. split; [done|].
    eapply archive_written; eauto.
    repeat split; try done.
    by rewrite Hw3; simpl; rewrite <- app_assoc.
  - eexists _, _. split; [done|]. by eapply archive_failed.
Qed.

End DetailPageHandlers.

(** ** Lists *)

Lemma StronglySorted_weaken {A} (R1 R2 : A → A → Prop) (l : list A) :
  (∀ x y, R1 x y → R2 x y) → StronglySorted R1 l → StronglySorted R2 l.
Proof.
  intros HR. induction 1 as [|x l _ IH Hx]; constructor; [done|].
  eapply Forall_impl; [exact Hx|]. intros y. apply HR.
Qed.

Lemma StronglySorted_map {A B} (R : B → B → Prop) (f : A → B) (l : list A) :
  StronglySorted (λ a b, R (f a) (f b)) l → StronglySorted R (map f l).
Proof.
  induction 1 as [|x l _ IH Hx]; simpl; constructor; [done|].
  apply Forall_forall. intros y Hy. apply list_elem_of_In, in_map_iff in Hy as (a & <- & Ha).
  rewrite Forall_forall in Hx. apply Hx. by apply list_elem_of_In.
Qed.

Lemma StronglySorted_sublist {A} (R : A → A → Prop) (l1 l2 : list A) :
  l1 `sublist_of` l2 → StronglySorted R l2 → StronglySorted R l1.
Proof.
  induction 1 as [|x l1 l2 Hsub IH|x l1 l2 Hsub IH]; intros Hs.
  - constructor.
  - apply StronglySorted_inv in Hs as [Hs Hx]. constructor; [by apply IH|].
    eapply Forall_forall. intros y Hy. rewrite Forall_forall in Hx. apply Hx.
    by eapply elem_of_sublist.
  - apply StronglySorted_inv in Hs as [Hs _]. by apply IH.
Qed.

Lemma NoDup_fst_filter {A B} (P : A * B → Prop) `{∀ x, Decision (P x)} (l : list (A * B)) :
  NoDup l.*1 → NoDup (filter P l).*1.
Proof.
  induction l as [|x l IH]; [done|].
  rewrite fmap_cons, NoDup_cons. intros [Hx Hl]. rewrite filter_cons.
  destruct (decide (P x)); [|by apply IH].
  rewrite fmap_cons, NoDup_cons. split; [|by apply IH].
  intros Hin. apply Hx. apply list_elem_of_fmap in Hin as (y & -> & Hy).
  apply list_elem_of_filter in Hy as [_ Hy]. apply list_elem_of_fmap. by exists y.
Qed.

(** ** The warehouse detail page: loading *)

Section DetailPageLoad.
Import WarehouseDetailPage.

Lemma loaded_items_listing (warehouseId : string) (w : World.t) :
  listing warehouseId w
    (Js.sort (λ a b, Item.updatedAt b - Item.updatedAt a)
       (map (λ itemDoc, ItemDoc.toItem itemDoc.1 itemDoc.2)
          (filter (λ p : string * ItemDoc.t,
                     String.eqb (ItemDoc.warehouseId p.2) warehouseId
                     && negb (ItemDoc.isArchived p.2) = true)
             (map_to_list (World.items w))))).
Proof.
  split; [|split].
  - intros item. rewrite elem_of_sort, list_elem_of_In, in_map_iff. split.
    + intros ([docId d] & <- & Hin).
      apply list_elem_of_In, list_elem_of_filter in Hin as [Hp Hin]. simpl in *.
      apply elem_of_map_to_list in Hin.
      apply andb_true_iff in Hp as [Hw Ha]. apply String.eqb_eq in Hw.
      apply negb_true_iff in Ha. by exists d.
    + intros (d & Hd & Hw & Ha & ->). exists (Item.id item, d). split; [done|].
      apply list_elem_of_In, list_elem_of_filter. split.
      * simpl. apply andb_true_iff. split; [by apply String.eqb_eq|by apply negb_true_iff].
      * by apply elem_of_map_to_list.
  - eapply StronglySorted_weaken; [|apply sort_StronglySorted].
    + intros a b. unfold before. lia.
    + intros a b. unfold before. lia.
    + intros a b c. unfold before. lia.
  - rewrite sort_Permutation. rewrite <- list_fmap_compose.
    apply (NoDup_fst_filter _). apply NoDup_fst_map_to_list.
Qed.

Lemma listing_items warehouseId w w' l :
  World.items w' = World.items w → listing warehouseId w l → listing warehouseId w' l.
Proof. unfold listing, lists. by intros ->. Qed.

Lemma listing_mirrors warehouseId w l item : listing warehouseId w l → item ∈ l → mirrors w item.
Proof. intros (Hl & _) Hin. apply Hl in Hin as (d & Hd & _ & _ & Heq). by exists d. Qed.

Lemma loadWarehouseAndItems_cases idToLoad s w :
  Js.truthy idToLoad = true →
  ∃ s' w', loadWarehouseAndItems idToLoad s w = (Ok s', w')
    ∧ same_but_toasts w w' ∧ same_dialogs s s'
    ∧ ((∃ wd, World.warehouses w !! idToLoad = Some wd
              ∧ WarehouseDoc.isArchived wd = false
              ∧ warehouse s' =
                  Some {| Warehouse.id := idToLoad;
                          Warehouse.name := WarehouseDoc.name wd;
                          Warehouse.description := Some (WarehouseDoc.description wd);
                          Warehouse.isArchived := false;
                          Warehouse.createdAt := WarehouseDoc.createdAt wd;
                          Warehouse.updatedAt := WarehouseDoc.updatedAt wd;
                          Warehouse.ownerId := "placeholder-owner-id" |}
              ∧ listing idToLoad w (items s')
              ∧ World.toasts w' = World.toasts w)
       ∨ ((∀ wd, World.warehouses w !! idToLoad = Some wd → WarehouseDoc.isArchived wd = true)
          ∧ warehouse s' = None ∧ items s' = []
          ∧ World.toasts w' = World.toasts w ++ ["Warehouse Not Found"])).
Proof.
  intros Hid. unfold loadWarehouseAndItems. rewrite Hid. simpl. eff_unfold.
  destruct (World.warehouses w !! idToLoad) as [wd|] eqn:Hwd; simpl; rewrite ?Hwd.
  - destruct (WarehouseDoc.isArchived wd) eqn:Harch; simpl.
    + eexists _, _. split; [done|]. split; [done|]. split; [done|]. right.
      split; [|done]. intros wd' [= <-]. done.
    + eexists _, _. split; [done|]. split; [done|]. split; [done|]. left.
      exists wd. split; [done|]. split; [done|]. split; [done|]. split; [|done].
      simpl. apply loaded_items_listing.
  - eexists _, _. split; [done|]. split; [done|]. split; [done|]. right.
    split; [|done]. intros wd' [=].
Qed.

End DetailPageLoad.

(** ** The warehouse detail page: sequences of events *)

Section DetailPageRuns.
Import WarehouseDetailPage.

Lemma elem_of_option_list {A} (mx : option A) (x : A) : x ∈ option_list mx ↔ mx = Some x.
Proof.
  destruct mx as [y|]; simpl.
  - rewrite list_elem_of_singleton. split; congruence.
  - split; [by intros ?%elem_of_nil|done].
Qed.

Lemma elem_of_visible s item :
  item ∈ visible s
  ↔ item ∈ items s ∨ itemForAdjustment s = Some item ∨ itemToArchive s = Some item.
Proof.
  unfold visible. rewrite !elem_of_app, !elem_of_option_list. tauto.
Qed.

Lemma visible_nil s :
  visible s = [] ↔ items s = [] ∧ itemForAdjustment s = None ∧ itemToArchive s = None.
Proof.
  unfold visible. split.
  - intros H. apply app_eq_nil in H as [H1 H]. apply app_eq_nil in H as [H2 H3].
    destruct (itemForAdjustment s), (itemToArchive s); done.
  - intros (-> & -> & ->). done.
Qed.

(** No event throws: every handler catches what its writes throw. *)
Lemma handle_ok ev s w : ∃ s' w', handle ev s w = (Ok s', w').
Proof.
  destruct ev as [| | |data now dateNow serverTime autoId|row type
                  |data now dateNow serverTime| |row env printDate now
                  |row|serverTime|]; simpl.
  - destruct (Js.truthy (warehouseIdFromParams s)) eqn:Hid; [|by eexists _, _].
    destruct (loadWarehouseAndItems_cases _ s w Hid) as (s' & w' & -> & _). by eexists _, _.
  - destruct (Js.truthy (warehouseIdFromParams s)) eqn:Hid; [|by eexists _, _].
    destruct (loadWarehouseAndItems_cases _ s w Hid) as (s' & w' & -> & _). by eexists _, _.
  - by eexists _, _.
  - destruct (isAddItemDialogOpen s && itemFormSchema data); [|by eexists _, _].
    destruct (onAddItemSubmit_outcome now dateNow serverTime autoId data s w)
      as (s' & w' & -> & _). by eexists _, _.
  - destruct (items s !! row); by eexists _, _.
  - destruct (isStockAdjustmentDialogOpen s && stockAdjustmentFormSchema data);
      [|by eexists _, _].
    destruct (onStockAdjustmentSubmit_outcome now dateNow serverTime data s w)
      as (s' & w' & -> & _). by eexists _, _.
  - by eexists _, _.
  - destruct (items s !! row) as [item|]; [|by eexists _, _].
    unfold handlePrintReport. destruct (warehouse s); eff_unfold; simpl; [|by eexists _, _].
    destruct (PrintEnv.element env && PrintEnv.html2pdfThrows env); [by eexists _, _|].
    destruct (PrintEnv.storageThrows env); by eexists _, _.
  - destruct (items s !! row); by eexists _, _.
  - unfold bind.
    destruct (handleArchiveItem_outcome serverTime s w) as (s' & w' & -> & _).
    by eexists _, _.
  - by eexists _, _.
Qed.

Lemma dispatch_handle ev s w s' w' :
  handle ev s w = (Ok s', w') → dispatch (s, w) ev = (s', w').
Proof. unfold dispatch. simpl. by intros ->. Qed.

Lemma run_snoc evs ev sw : run (evs ++ [ev]) sw = dispatch (run evs sw) ev.
Proof. unfold run. by rewrite foldl_snoc. Qed.

Lemma run_app evs more sw : run (evs ++ more) sw = run more (run evs sw).
Proof. unfold run. apply foldl_app. Qed.

Lemma every_step_app check evs more sw :
  every_step check (evs ++ more) sw
  = every_step check evs sw && every_step check more (run evs sw).
Proof.
  revert sw. induction evs as [|ev evs IH]; intros sw; simpl; [done|].
  by rewrite IH, andb_assoc.
Qed.

Lemma every_step_snoc check evs ev sw :
  every_step check (evs ++ [ev]) sw = true
  ↔ every_step check evs sw = true ∧ check (run evs sw) ev = true.
Proof.
  rewrite every_step_app. simpl. rewrite andb_true_r. apply andb_true_iff.
Qed.

Lemma adjustmentClock_snoc evs ev :
  adjustmentClock (evs ++ [ev]) = adjustmentClock evs ++ adjustmentClock [ev].
Proof. unfold adjustmentClock. by rewrite omap_app. Qed.

(** The load: the store is as it was, and the rows are views of its
    documents. *)
Lemma load_step ev s w :
  Js.truthy (warehouseIdFromParams s) = true →
  ∃ s' w', loadWarehouseAndItems (warehouseIdFromParams s) s w = (Ok s', w')
           ∧ Step s w ev s' w'.
Proof.
  intros Hid.
  destruct (loadWarehouseAndItems_cases (warehouseIdFromParams s) s w Hid)
    as (s' & w' & -> & (Hi & _) & (D1 & D2 & D3 & D4 & D5 & D6 & D7) & Hcases).
  eexists _, _. split; [done|]. apply step_idle; [done|].
  intros item Hin. apply elem_of_visible in Hin as [Hin|Hin].
  - destruct Hcases as [(wd & _ & _ & _ & Hl & _)|(_ & _ & Hnil & _)].
    + right. by eapply listing_mirrors.
    + rewrite Hnil in Hin. by apply elem_of_nil in Hin.
  - left. apply elem_of_visible. right. by rewrite <- D4, <- D7.
Qed.

(** Every event is a step. *)
Lemma handle_step ev s w :
  ∃ s' w', handle ev s w = (Ok s', w') ∧ Step s w ev s' w'.
Proof.
  assert (∀ ev s' , (∀ item, item ∈ visible s' → item ∈ visible s) →
            ∃ s'' w', (Ok s', w) = (Ok s'', w') ∧ Step s w ev s'' w') as Hidle.
  { intros ev' s' Hsub. eexists _, _. split; [done|]. apply step_idle; [done|]. auto. }
  destruct ev as [| | |data now dateNow serverTime autoId|row type
                  |data now dateNow serverTime| |row env printDate now
                  |row|serverTime|]; simpl.
  - (* Mounted *)
    destruct (Js.truthy (warehouseIdFromParams s)) eqn:Hid; [by apply load_step|].
    by apply Hidle.
  - (* LoadSettled *)
    destruct (Js.truthy (warehouseIdFromParams s)) eqn:Hid; [by apply load_step|].
    by apply Hidle.
  - (* ClickAddItem *)
    by apply Hidle.
  - (* SubmitItemForm *)
    destruct (isAddItemDialogOpen s && itemFormSchema data) eqn:Hgate; [|by apply Hidle].
    apply andb_true_iff in Hgate as [_ Hschema].
    destruct (onAddItemSubmit_outcome now dateNow serverTime autoId data s w)
      as (s' & w' & -> & Hout).
    eexists _, _. split; [done|].
    destruct Hout as [_ -> ->|d _ Hd -> (Hi & _)|_ Hid Hnone -> Hi _].
    + apply step_idle; auto.
    + apply step_idle; auto.
    + by apply step_create.
  - (* ClickAdjustStock *)
    destruct (items s !! row) as [item|] eqn:Hrow; [|by apply Hidle].
    apply Hidle. intros item' Hin. apply elem_of_visible in Hin. simpl in Hin.
    apply elem_of_visible. destruct Hin as [?|[[= <-]|?]]; auto.
    left. by eapply list_elem_of_lookup_2.
  - (* SubmitStockAdjustmentForm *)
    destruct (isStockAdjustmentDialogOpen s && stockAdjustmentFormSchema data) eqn:Hgate;
      [|by apply Hidle].
    apply andb_true_iff in Hgate as [Hopen Hschema].
    destruct (onStockAdjustmentSubmit_outcome now dateNow serverTime data s w)
      as (s' & w' & -> & Hout).
    eexists _, _. split; [done|].
    destruct Hout as [_ -> ->|item Hitem Hty Hlt -> ->|item type Hitem Hty _ Hnone -> (Hi & _)
                      |item type d Hitem Hty Hid Hok Hd -> Hi _].
    + apply step_idle; auto.
    + apply step_idle; auto.
    + apply step_idle; auto.
    + by eapply step_adjust.
  - (* CloseDialog *)
    by apply Hidle.
  - (* ClickPrintReport *)
    destruct (items s !! row) as [item|] eqn:Hrow; [|by apply Hidle].
    unfold handlePrintReport. destruct (warehouse s); eff_unfold; simpl.
    + destruct (PrintEnv.element env && PrintEnv.html2pdfThrows env); simpl;
        [|destruct (PrintEnv.storageThrows env); simpl];
        (eexists _, _; split; [done|]; apply step_idle; auto).
    + eexists _, _. split; [done|]. apply step_idle; auto.
  - (* ClickArchiveItem *)
    destruct (items s !! row) as [item|] eqn:Hrow; [|by apply Hidle].
    apply Hidle. intros item' Hin. apply elem_of_visible in Hin. simpl in Hin.
    apply elem_of_visible. destruct Hin as [?|[?|[= <-]]]; auto.
    left. by eapply list_elem_of_lookup_2.
  - (* ConfirmArchiveItem *)
    unfold bind.
    destruct (handleArchiveItem_outcome serverTime s w) as (s' & w' & -> & Hout).
    eexists _, _. split; [done|].
    assert (∀ item, item ∈ visible (setItemToArchive None s) → item ∈ visible s) as Hsub.
    { intros item Hin. apply elem_of_visible in Hin. simpl in Hin.
      apply elem_of_visible. destruct Hin as [?|[?|?]]; auto. done. }
    destruct Hout as [_ -> ->|item Hitem Hnone -> (Hi & _)|item d Hitem Hid Hd -> Hi _].
    + apply step_idle; auto.
    + apply step_idle; auto.
    + by eapply step_archive.
  - (* CancelArchiveItem *)
    apply Hidle. intros item Hin. apply elem_of_visible in Hin. simpl in Hin.
    apply elem_of_visible. destruct Hin as [?|[?|?]]; auto. done.
Qed.

Lemma dispatch_step ev s w : Step s w ev (dispatch (s, w) ev).1 (dispatch (s, w) ev).2.
Proof.
  destruct (handle_step ev s w) as (s' & w' & Heq & Hstep).
  by rewrite (dispatch_handle _ _ _ _ _ Heq).
Qed.

(** An invariant of the component and the store that every step keeps holds
    after every sequence of events.  The invariant may speak of the events
    handled so far. *)
Lemma run_invariant (warehouseId : string) (warehouses : gmap string WarehouseDoc.t)
    (I : list Event → State → World.t → Prop) :
  I [] (initialState warehouseId) (initialWorld warehouses) →
  (∀ evs ev s w s' w',
     run evs (initialState warehouseId, initialWorld warehouses) = (s, w) →
     I evs s w → Step s w ev s' w' → I (evs ++ [ev]) s' w') →
  ∀ evs,
    let sw := run evs (initialState warehouseId, initialWorld warehouses) in
    I evs sw.1 sw.2.
Proof.
  intros Hinit Hstep evs. induction evs as [|ev evs IH] using rev_ind; simpl.
  - done.
  - rewrite run_snoc.
    destruct (run evs (initialState warehouseId, initialWorld warehouses)) as [s w] eqn:Hrun.
    simpl in *. eapply (Hstep evs ev s w); [done|done|apply dispatch_step].
Qed.

(** The id of the route is the same after every event. *)
Lemma dispatch_id ev s w :
  warehouseIdFromParams (dispatch (s, w) ev).1 = warehouseIdFromParams s.
Proof.
  unfold dispatch. simpl.
  destruct ev as [| | |data now dateNow serverTime autoId|row type
                  |data now dateNow serverTime| |row env printDate now
                  |row|serverTime|]; simpl.
  - destruct (Js.truthy (warehouseIdFromParams s)) eqn:Hid; [|done].
    destruct (loadWarehouseAndItems_cases _ s w Hid) as (s' & w' & -> & _ & (D1 & _) & _).
    done.
  - destruct (Js.truthy (warehouseIdFromParams s)) eqn:Hid; [|done].
    destruct (loadWarehouseAndItems_cases _ s w Hid) as (s' & w' & -> & _ & (D1 & _) & _).
    done.
  - done.
  - destruct (isAddItemDialogOpen s && itemFormSchema data); [|done].
    destruct (onAddItemSubmit_outcome now dateNow serverTime autoId data s w)
      as (s' & w' & -> & Hout).
    by destruct Hout as [_ -> _|? _ _ -> _|_ _ _ -> _ _].
  - by destruct (items s !! row).
  - destruct (isStockAdjustmentDialogOpen s && stockAdjustmentFormSchema data); [|done].
    destruct (onStockAdjustmentSubmit_outcome now dateNow serverTime data s w)
      as (s' & w' & -> & Hout).
    by destruct Hout as [_ -> _|? _ _ _ -> _|? ? _ _ _ _ -> _|? ? ? _ _ _ _ _ -> _ _].
  - done.
  - destruct (items s !! row) as [item|]; [|done].
    unfold bind. by destruct (handlePrintReport env printDate now item s w) as [[] ?].
  - by destruct (items s !! row).
  - unfold bind.
    destruct (handleArchiveItem_outcome serverTime s w) as (s' & w' & -> & Hout).
    by destruct Hout as [_ -> _|? _ _ -> _|? ? _ _ _ -> _ _].
  - done.
Qed.

Lemma run_id warehouseId warehouses evs :
  warehouseIdFromParams (run evs (initialState warehouseId, initialWorld warehouses)).1
  = warehouseId.
Proof.
  induction evs as [|ev evs IH] using rev_ind; [done|].
  rewrite run_snoc.
  destruct (run evs (initialState warehouseId, initialWorld warehouses)) as [s w].
  by rewrite dispatch_id.
Qed.

End DetailPageRuns.

(** ** The warehouse detail page: the page and its warehouse *)

Section DetailPage.
Import WarehouseDetailPage.

Lemma Page_open warehouses warehouseId s w item :
  Page warehouses warehouseId s w → item ∈ visible s →
  ∃ wh, warehouse s = Some wh.
Proof.
  intros [_ _ _ P4 _] Hin. destruct (warehouse s) as [wh|]; [by exists wh|].
  destruct P4 as (Hnil & _); [done|]. rewrite Hnil in Hin. by apply elem_of_nil in Hin.
Qed.

Lemma Page_truthy warehouses warehouseId s w wh :
  Page warehouses warehouseId s w → warehouse s = Some wh →
  Js.truthy (warehouseIdFromParams s) = true.
Proof. intros [P1 _ P3 _ _] Hwh. destruct (P3 _ Hwh) as ((Hid & _) & _). by rewrite P1. Qed.

(** The page after an event that leaves the warehouse and the rows as
    they are. *)
Lemma Page_kept warehouses warehouseId s w s' w' :
  Page warehouses warehouseId s w →
  warehouseIdFromParams s' = warehouseIdFromParams s →
  warehouse s' = warehouse s →
  items s' = items s →
  (∀ item, item ∈ visible s' → item ∈ visible s) →
  same_but_updatedAt (World.warehouses w) (World.warehouses w') →
  (warehouse s = None →
   World.items w' = World.items w
   ∧ World.writes w' = World.writes w
   ∧ World.archivedReports w' = World.archivedReports w
   ∧ World.printed w' = World.printed w) →
  Page warehouses warehouseId s' w'.
Proof.
  intros [P1 P2 P3 P4 P5] H1 H2 H3 H4 H5 H6.
  split.
  - congruence.
  - by eapply same_but_updatedAt_trans.
  - intros wh Hwh. apply P3. congruence.
  - intros Hnone. rewrite H2 in Hnone. destruct (H6 Hnone) as (-> & -> & -> & ->).
    destruct (P4 Hnone) as (Hnil & ?). split; [|done].
    destruct (visible s') as [|item l] eqn:Hv; [done|].
    specialize (H4 item). rewrite Hnil in H4. exfalso.
    eapply elem_of_nil, H4. by left.
  - by rewrite H3.
Qed.

Lemma Page_written warehouses warehouseId serverTime call title s w s' w' wh :
  Page warehouses warehouseId s w →
  warehouse s = Some wh →
  warehouseIdFromParams s' = warehouseIdFromParams s →
  warehouse s' = warehouse s →
  items s' = items s →
  (∀ item, item ∈ visible s' → item ∈ visible s) →
  written serverTime (warehouseIdFromParams s) call title w w' →
  Page warehouses warehouseId s' w'.
Proof.
  intros HP Hwh H1 H2 H3 H4 (_ & _ & _ & _ & Hsame & _).
  eapply Page_kept; eauto. by rewrite Hwh.
Qed.

Lemma Page_refused warehouses warehouseId call s w w' wh :
  Page warehouses warehouseId s w →
  warehouse s = Some wh →
  refused call w w' →
  Page warehouses warehouseId s w'.
Proof.
  intros HP Hwh (_ & Hw & _).
  eapply Page_kept; eauto; [|by rewrite Hwh]. rewrite Hw. apply same_but_updatedAt_refl.
Qed.

Lemma Page_load warehouses warehouseId s w :
  Page warehouses warehouseId s w →
  Js.truthy (warehouseIdFromParams s) = true →
  ∃ s' w', loadWarehouseAndItems (warehouseIdFromParams s) s w = (Ok s', w')
           ∧ Page warehouses warehouseId s' w'.
Proof.
  intros HP Hid. pose proof HP as [P1 P2 P3 P4 P5].
  destruct (loadWarehouseAndItems_cases (warehouseIdFromParams s) s w Hid)
    as (s' & w' & -> & (Hi & Hw & Ha & Hwr & Hp) & (D1 & D2 & D3 & D4 & D5 & D6 & D7)
        & Hcases).
  eexists _, _. split; [done|]. rewrite P1 in *.
  destruct Hcases as [(wd' & Hwd' & Harch' & Hwh' & (_ & Hsorted & Hnodup) & _)
                     |(Hnot & Hnone & Hnil & _)].
  - destruct (same_but_updatedAt_lookup_r _ _ _ _ P2 Hwd') as (wd & Hwd & Hn & Harch).
    split.
    + congruence.
    + by rewrite Hw.
    + intros wh2 Hwh2. rewrite Hwh' in Hwh2. injection Hwh2 as <-. simpl.
      split; [split; [done|exists wd; split; [done|congruence]]|].
      split; [done|]. by exists wd.
    + intros Hnone. by rewrite Hwh' in Hnone.
    + done.
  - assert (warehouse s = None) as Hclosed.
    { destruct (warehouse s) as [wh|] eqn:Hwh; [|done].
      destruct (P3 _ eq_refl) as ((_ & wd & Hwd & Harch) & _).
      destruct (same_but_updatedAt_lookup _ _ _ _ P2 Hwd) as (wd1 & Hwd1 & _ & Ha1).
      specialize (Hnot _ Hwd1). congruence. }
    destruct (P4 Hclosed) as (E0 & E1 & E2 & E3 & E4).
    apply visible_nil in E0 as (_ & E5 & E6).
    split.
    + congruence.
    + by rewrite Hw.
    + intros wh2 Hwh2. by rewrite Hnone in Hwh2.
    + intros _. rewrite Hi, Hwr, Ha, Hp. split; [|done].
      apply visible_nil. by rewrite Hnil, D4, D7.
    + rewrite Hnil. split; [constructor|simpl; constructor].
Qed.

Lemma Page_handle warehouses warehouseId ev s w :
  Page warehouses warehouseId s w →
  ∃ s' w', handle ev s w = (Ok s', w') ∧ Page warehouses warehouseId s' w'.
Proof.
  intros HP. pose proof HP as [P1 P2 P3 P4 P5].
  assert (∀ s', warehouseIdFromParams s' = warehouseIdFromParams s →
                warehouse s' = warehouse s → items s' = items s →
                (∀ item, item ∈ visible s' → item ∈ visible s) →
                ∃ s'' w', (Ok s', w) = (Ok s'', w') ∧ Page warehouses warehouseId s'' w')
    as Hidle.
  { intros s' H1 H2 H3 H4. eexists _, _. split; [done|].
    eapply Page_kept; eauto. apply same_but_updatedAt_refl. }
  assert (∀ row item, items s !! row = Some item → item ∈ visible s) as Hrow.
  { intros row item Hr. apply elem_of_visible. left. by eapply list_elem_of_lookup_2. }
  destruct ev as [| | |data now dateNow serverTime autoId|row type
                  |data now dateNow serverTime| |row env printDate now
                  |row|serverTime|]; simpl.
  - (* Mounted *)
    destruct (Js.truthy (warehouseIdFromParams s)) eqn:Hid; [by apply Page_load|].
    by apply Hidle.
  - (* LoadSettled *)
    destruct (Js.truthy (warehouseIdFromParams s)) eqn:Hid; [by apply Page_load|].
    by apply Hidle.
  - (* ClickAddItem *)
    by apply Hidle.
  - (* SubmitItemForm *)
    destruct (isAddItemDialogOpen s && itemFormSchema data) eqn:Hgate; [|by apply Hidle].
    destruct (onAddItemSubmit_outcome now dateNow serverTime autoId data s w)
      as (s' & w' & -> & Hout).
    eexists _, _. split; [done|].
    destruct Hout as [_ -> ->|d [wh Hwh] Hd -> Href|[wh Hwh] Hid Hnone -> Hi Hwr].
    + done.
    + by eapply Page_refused.
    + by eapply Page_written.
  - (* ClickAdjustStock *)
    destruct (items s !! row) as [item|] eqn:Hr; [|by apply Hidle].
    apply Hidle; try done. intros item' Hin. apply elem_of_visible in Hin. simpl in Hin.
    destruct Hin as [?|[[= <-]|?]]; [|by eapply Hrow|]; apply elem_of_visible; auto.
  - (* SubmitStockAdjustmentForm *)
    destruct (isStockAdjustmentDialogOpen s && stockAdjustmentFormSchema data) eqn:Hgate;
      [|by apply Hidle].
    destruct (onStockAdjustmentSubmit_outcome now dateNow serverTime data s w)
      as (s' & w' & -> & Hout).
    eexists _, _. split; [done|].
    destruct Hout as [_ -> ->|item Hitem Hty Hlt -> ->|item type Hitem Hty _ Hnone -> Href
                      |item type d Hitem Hty Hid Hok Hd -> Hi Hwr].
    + done.
    + eapply Page_kept; eauto. apply same_but_updatedAt_refl.
    + destruct (Page_open _ _ _ _ item HP) as (wh & Hwh);
        [apply elem_of_visible; auto|]. by eapply Page_refused.
    + destruct (Page_open _ _ _ _ item HP) as (wh & Hwh);
        [apply elem_of_visible; auto|]. by eapply Page_written.
  - (* CloseDialog *)
    by apply Hidle.
  - (* ClickPrintReport *)
    destruct (items s !! row) as [item|] eqn:Hr; [|by apply Hidle].
    destruct (Page_open _ _ _ _ item HP) as (wh & Hwh); [by eapply Hrow|].
    unfold handlePrintReport. rewrite Hwh. eff_unfold. simpl.
    destruct (PrintEnv.element env && PrintEnv.html2pdfThrows env); simpl;
      [|destruct (PrintEnv.storageThrows env); simpl];
      (eexists _, _; split; [done|]; eapply Page_kept; eauto;
       [apply same_but_updatedAt_refl|by rewrite Hwh]).
  - (* ClickArchiveItem *)
    destruct (items s !! row) as [item|] eqn:Hr; [|by apply Hidle].
    apply Hidle; try done. intros item' Hin. apply elem_of_visible in Hin. simpl in Hin.
    destruct Hin as [?|[?|[= <-]]]; [| |by eapply Hrow]; apply elem_of_visible; auto.
  - (* ConfirmArchiveItem *)
    unfold bind.
    destruct (handleArchiveItem_outcome serverTime s w) as (s' & w' & -> & Hout).
    eexists _, _. split; [done|].
    assert (∀ item, item ∈ visible (setItemToArchive None s) → item ∈ visible s) as Hsub.
    { intros item Hin. apply elem_of_visible in Hin. simpl in Hin.
      apply elem_of_visible. destruct Hin as [?|[?|?]]; auto. done. }
    destruct Hout as [_ -> ->|item Hitem Hnone -> Href|item d Hitem Hid Hd -> Hi Hwr].
    + eapply Page_kept; eauto. apply same_but_updatedAt_refl.
    + destruct (Page_open _ _ _ _ item HP) as (wh & Hwh);
        [apply elem_of_visible; auto|].
      eapply Page_kept; [by eapply Page_refused|done..| |by rewrite Hwh].
      apply same_but_updatedAt_refl.
    + destruct (Page_open _ _ _ _ item HP) as (wh & Hwh);
        [apply elem_of_visible; auto|]. by eapply Page_written.
  - (* CancelArchiveItem *)
    apply Hidle; try done. intros item Hin. apply elem_of_visible in Hin. simpl in Hin.
    apply elem_of_visible. destruct Hin as [?|[?|?]]; auto. done.
Qed.

Lemma Page_initial warehouses warehouseId :
  Page warehouses warehouseId (initialState warehouseId) (initialWorld warehouses).
Proof.
  split; simpl; try done.
  - apply same_but_updatedAt_refl.
  - split; [constructor|simpl; constructor].
Qed.

(** The page and the store after every sequence of events. *)
Lemma Page_run warehouses warehouseId evs :
  let sw := run evs (initialState warehouseId, initialWorld warehouses) in
  Page warehouses warehouseId sw.1 sw.2.
Proof.
  induction evs as [|ev evs IH] using rev_ind; simpl.
  - apply Page_initial.
  - rewrite run_snoc.
    destruct (run evs (initialState warehouseId, initialWorld warehouses)) as [s w].
    simpl in IH. destruct (Page_handle warehouses warehouseId ev s w IH) as (s' & w' & Heq & HP).
    by rewrite (dispatch_handle _ _ _ _ _ Heq).
Qed.

End DetailPage.

(** ** The ledger of an item *)

Section Ledger.
Import WarehouseDetailPage.

Lemma foldl_change (q : Z) (ledger : list HistoryEntry.t) :
  foldl (λ quantity e, quantity + HistoryEntry.change e) q ledger = q + replay ledger.
Proof.
  unfold replay. revert q. induction ledger as [|e l IH] using rev_ind; intros q.
  - simpl. lia.
  - rewrite !foldl_snoc, IH. lia.
Qed.

Lemma replay_snoc ledger e : replay (ledger ++ [e]) = replay ledger + HistoryEntry.change e.
Proof. unfold replay. by rewrite foldl_snoc. Qed.

Lemma replay_cons e ledger : replay (e :: ledger) = HistoryEntry.change e + replay ledger.
Proof. unfold replay at 1. simpl. by rewrite foldl_change. Qed.

Lemma replay_Permutation l1 l2 : l1 ≡ₚ l2 → replay l1 = replay l2.
Proof.
  induction 1 as [|e l1 l2 _ IH|e1 e2 l|l1 l2 l3 _ IH1 _ IH2].
  - done.
  - by rewrite !replay_cons, IH.
  - rewrite !replay_cons. lia.
  - congruence.
Qed.

Lemma id_from_mono clock clock' e :
  (∀ t, t ∈ clock → t ∈ clock') → id_from clock e → id_from clock' e.
Proof. intros Hsub [H|(t & Ht & H)]; [by left|right; eauto]. Qed.

Lemma newHistoryEntry_id_fresh clock ledger now dateNow type item data :
  Forall (id_from clock) ledger → dateNow ∉ clock →
  ∀ e, e ∈ ledger →
    HistoryEntry.id e ≠ HistoryEntry.id (newHistoryEntry now dateNow type item data).
Proof.
  intros Hids Hfresh e He Heq. simpl in Heq.
  rewrite Forall_forall in Hids. destruct (Hids e He) as [[t Ht]|(t & Htin & Ht)];
    rewrite Ht in Heq; apply string_app_inj_suffix in Heq as [Hp Hs]; try done.
  apply (inj pretty) in Hp. by subst t.
Qed.

Lemma applyItemFields_stockUpdate serverTime now dateNow type item data d :
  Firestore.applyItemFields serverTime (stockUpdate now dateNow type item data) d
  = ItemDoc.mk (ItemDoc.warehouseId d) (ItemDoc.name d)
      (Js.add (Item.quantity item) (quantityChange type data)) (ItemDoc.location d)
      (ItemDoc.createdAt d) serverTime
      (Firestore.arrayUnion [newHistoryEntry now dateNow type item data] (ItemDoc.history d))
      (ItemDoc.isArchived d).
Proof. done. Qed.

Lemma arrayUnion_fresh e ledger : e ∉ ledger → Firestore.arrayUnion [e] ledger = ledger ++ [e].
Proof. intros He. unfold Firestore.arrayUnion. simpl. by rewrite decide_False. Qed.

Lemma arrayUnion_elem e e' ledger :
  e' ∈ Firestore.arrayUnion [e] ledger → e' ∈ ledger ∨ e' = e.
Proof.
  unfold Firestore.arrayUnion. simpl. destruct (decide (e ∈ ledger)); [by left|].
  rewrite elem_of_app, list_elem_of_singleton. tauto.
Qed.

Lemma arrayUnion_cases e ledger :
  Firestore.arrayUnion [e] ledger = ledger ∨ Firestore.arrayUnion [e] ledger = ledger ++ [e].
Proof.
  unfold Firestore.arrayUnion. simpl. destruct (decide (e ∈ ledger)); [by left|by right].
Qed.

Lemma documents_initial P warehouses : documents P (initialWorld warehouses).
Proof. intros docId d Hd. simpl in Hd. by rewrite lookup_empty in Hd. Qed.

Lemma ids_step evs ev s w s' w' :
  documents (ids_from (adjustmentClock evs)) w → Step s w ev s' w' →
  documents (ids_from (adjustmentClock (evs ++ [ev]))) w'.
Proof.
  intros IH Hstep docId d' Hd'.
  assert (∀ d, ids_from (adjustmentClock evs) d →
               ids_from (adjustmentClock (evs ++ [ev])) d) as Hmono.
  { intros d Hall. eapply Forall_impl; [exact Hall|]. intros e. apply id_from_mono.
    intros t Ht. rewrite adjustmentClock_snoc, elem_of_app. by left. }
  destruct Hstep as [ev s' w' Hi _|data now dateNow serverTime autoId s' w' _ Hnone Hi _
                     |data now dateNow serverTime item type d s' w' _ _ _ _ _ Hd Hi _
                     |serverTime item d s' w' _ Hd Hi _].
  - rewrite Hi in Hd'. eauto.
  - rewrite Hi in Hd'. destruct (decide (autoId = docId)) as [->|Hne].
    + rewrite lookup_insert_eq in Hd'. injection Hd' as <-.
      unfold ids_from. simpl. constructor; [|constructor]. left. by eexists.
    + rewrite lookup_insert_ne in Hd' by done. eauto.
  - rewrite Hi in Hd'. destruct (decide (Item.id item = docId)) as [<-|Hne].
    + rewrite lookup_insert_eq in Hd'. apply (inj Some) in Hd' as <-.
      rewrite applyItemFields_stockUpdate. unfold ids_from.
      cbn [ItemDoc.history]. apply Forall_forall. intros e He.
      apply arrayUnion_elem in He as [He| ->].
      * pose proof (Hmono d (IH _ _ Hd)) as Hall. unfold ids_from in Hall.
        rewrite Forall_forall in Hall. eauto.
      * right. exists dateNow. split; [|done].
        rewrite adjustmentClock_snoc, elem_of_app. right. simpl. by left.
    + rewrite lookup_insert_ne in Hd' by done. eauto.
  - rewrite Hi in Hd'. destruct (decide (Item.id item = docId)) as [<-|Hne].
    + rewrite lookup_insert_eq in Hd'. apply (inj Some) in Hd' as <-.
      apply Hmono. exact (IH _ _ Hd).
    + rewrite lookup_insert_ne in Hd' by done. eauto.
Qed.

Lemma ids_run warehouseId warehouses evs :
  documents (ids_from (adjustmentClock evs))
    (run evs (initialState warehouseId, initialWorld warehouses)).2.
Proof.
  apply (run_invariant warehouseId warehouses
           (λ evs _ w, documents (ids_from (adjustmentClock evs)) w)).
  - apply documents_initial.
  - intros evs' ev s w s' w' _ IH Hstep. by eapply ids_step.
Qed.

(** *** Documents only grow *)

Lemma extends_refl d : extends d d.
Proof. by repeat split. Qed.

Lemma extends_trans d1 d2 d3 : extends d1 d2 → extends d2 d3 → extends d1 d3.
Proof.
  intros (Hp1 & ? & ? & ? & ?) (Hp2 & ? & ? & ? & ?).
  split; [by etrans|]. repeat split; congruence.
Qed.

Lemma Step_extends s w ev s' w' docId d :
  Step s w ev s' w' →
  World.items w !! docId = Some d →
  ∃ d', World.items w' !! docId = Some d' ∧ extends d d'.
Proof.
  intros Hstep Hd.
  destruct Hstep as [ev s' w' Hi _|data now dateNow serverTime autoId s' w' _ Hnone Hi _
                     |data now dateNow serverTime item type d0 s' w' _ _ _ _ _ Hd0 Hi _
                     |serverTime item d0 s' w' _ Hd0 Hi _].
  - exists d. rewrite Hi. split; [done|apply extends_refl].
  - exists d. rewrite Hi. split; [|apply extends_refl].
    rewrite lookup_insert_ne; [done|]. intros ->. congruence.
  - rewrite Hi. destruct (decide (Item.id item = docId)) as [<-|Hne].
    + rewrite lookup_insert_eq. eexists. split; [done|].
      assert (d0 = d) as -> by congruence.
      rewrite applyItemFields_stockUpdate. split; [|done].
      cbn [ItemDoc.history].
      destruct (arrayUnion_cases (newHistoryEntry now dateNow type item data)
                  (ItemDoc.history d)) as [-> | ->]; [done|by apply prefix_app_r].
    + rewrite lookup_insert_ne by done. exists d. split; [done|apply extends_refl].
  - rewrite Hi. destruct (decide (Item.id item = docId)) as [<-|Hne].
    + rewrite lookup_insert_eq. eexists. split; [done|].
      assert (d0 = d) as -> by congruence. done.
    + rewrite lookup_insert_ne by done. exists d. split; [done|apply extends_refl].
Qed.

Lemma Step_visible s w ev s' w' item :
  Step s w ev s' w' → item ∈ visible s' → item ∈ visible s ∨ mirrors w item.
Proof.
  intros Hstep Hin.
  destruct Hstep as [ev s' w' _ Hv|data now dateNow serverTime autoId s' w' _ _ _ Hv
                     |data now dateNow serverTime item0 type d0 s' w' _ _ _ _ _ _ _ Hv
                     |serverTime item0 d0 s' w' _ _ _ Hv]; auto.
Qed.

Lemma seen_step s w ev s' w' item :
  Step s w ev s' w' → seen w item → seen w' item.
Proof.
  intros Hstep (d0 & d & Heq & Hd & Hext).
  destruct (Step_extends _ _ _ _ _ _ _ Hstep Hd) as (d' & Hd' & Hext').
  exists d0, d'. split; [done|]. split; [done|]. by eapply extends_trans.
Qed.

Lemma mirrors_seen w item : mirrors w item → seen w item.
Proof. intros (d & Hd & Heq). exists d, d. split; [done|]. split; [done|apply extends_refl]. Qed.

(** The items that the component holds are views of documents of the
    store, taken now or earlier. *)
Lemma seen_run warehouseId warehouses evs :
  let sw := run evs (initialState warehouseId, initialWorld warehouses) in
  Forall (seen sw.2) (visible sw.1).
Proof.
  apply (run_invariant warehouseId warehouses (λ _ s w, Forall (seen w) (visible s))).
  - constructor.
  - intros evs' ev s w s' w' _ IH Hstep. apply Forall_forall. intros item Hin.
    rewrite Forall_forall in IH.
    destruct (Step_visible _ _ _ _ _ _ Hstep Hin) as [Hold|Hnew].
    + eapply seen_step; eauto.
    + eapply seen_step; eauto. by apply mirrors_seen.
Qed.

(** *** Invariants of the documents *)

(** A property [P] of documents, with the property [Q] that it gives to
    their views: when a new document has [P], and an adjustment made from
    a view with [Q] and an archiving keep [P], whether [arrayUnion] adds
    the entry or not, then [P] holds of every document and [Q] of every
    item that the component holds, in every state that the page reaches
    by events that pass a check.  [C] is what the check says of the item
    of the dialog, of the form and of the document. *)
Lemma checked_documents_invariant (warehouseId : string) (P : ItemDoc.t → Prop)
    (Q : Item.t → Prop) (check : State * World.t → Event → bool)
    (C : Item.t → AdjustmentType → StockAdjustmentFormValues.t → ItemDoc.t → Prop) :
  (∀ s w data now dateNow serverTime item type d,
     check (s, w) (SubmitStockAdjustmentForm data now dateNow serverTime) = true →
     itemForAdjustment s = Some item → adjustmentType s = Some type →
     World.items w !! Item.id item = Some d →
     C item type data d) →
  (∀ docId d, P d → Q (ItemDoc.toItem docId d)) →
  (∀ now dateNow serverTime data,
     itemFormSchema data = true → P (newItemData now dateNow serverTime warehouseId data)) →
  (∀ now dateNow serverTime type item data d ledger,
     P d → Q item → C item type data d →
     stockAdjustmentFormSchema data = true →
     passes_guard type item data →
     ledger = ItemDoc.history d
     ∨ ledger = ItemDoc.history d ++ [newHistoryEntry now dateNow type item data] →
     P (ItemDoc.mk (ItemDoc.warehouseId d) (ItemDoc.name d)
          (Js.add (Item.quantity item) (quantityChange type data)) (ItemDoc.location d)
          (ItemDoc.createdAt d) serverTime ledger (ItemDoc.isArchived d))) →
  (∀ serverTime d, P d → P (archivedItem serverTime d)) →
  ∀ warehouses evs,
    let sw := run evs (initialState warehouseId, initialWorld warehouses) in
    every_step check evs (initialState warehouseId, initialWorld warehouses) = true →
    documents P sw.2 ∧ Forall Q (visible sw.1).
Proof.
  intros Hcheck Hview Hnew Hadj Harch warehouses.
  apply (run_invariant warehouseId warehouses
           (λ evs s w,
              every_step check evs (initialState warehouseId, initialWorld warehouses) = true →
              documents P w ∧ Forall Q (visible s))).
  - intros _. split; [apply documents_initial|constructor].
  - intros evs ev s w s' w' Hrun IH0 Hstep Hevery.
    apply every_step_snoc in Hevery as [Hevery Hev]. rewrite Hrun in Hev.
    destruct (IH0 Hevery) as [IH IHQ].
    rewrite Forall_forall in IHQ.
    assert (∀ item, item ∈ visible s' → Q item) as HQ'.
    { intros item Hin. destruct (Step_visible _ _ _ _ _ _ Hstep Hin) as [Hold|Hnew'].
      - by apply IHQ.
      - destruct Hnew' as (d & Hd & ->). apply Hview. by eapply IH. }
    split; [|by apply Forall_forall].
    intros docId d' Hd'.
    destruct Hstep as [ev s' w' Hi _|data now dateNow serverTime autoId s' w' Hschema Hnone Hi _
                     |data now dateNow serverTime item type d s' w' Hschema _ Hitem Hty Hok Hd Hi _
                     |serverTime item d s' w' _ Hd Hi _].
    + rewrite Hi in Hd'. eauto.
    + rewrite Hi in Hd'. destruct (decide (autoId = docId)) as [->|Hne].
      * rewrite lookup_insert_eq in Hd'. apply (inj Some) in Hd' as <-.
        pose proof (run_id warehouseId warehouses evs) as Hid. rewrite Hrun in Hid.
        simpl in Hid. rewrite Hid. by apply Hnew.
      * rewrite lookup_insert_ne in Hd' by done. eauto.
    + rewrite Hi in Hd'. destruct (decide (Item.id item = docId)) as [<-|Hne].
      * rewrite lookup_insert_eq in Hd'. apply (inj Some) in Hd' as <-.
        rewrite applyItemFields_stockUpdate.
        apply (Hadj now dateNow); [by apply (IH _ _ Hd)| |by eapply Hcheck|done..|].
        -- apply IHQ. apply elem_of_visible. auto.
        -- destruct (arrayUnion_cases (newHistoryEntry now dateNow type item data)
                       (ItemDoc.history d)) as [-> | ->]; auto.
      * rewrite lookup_insert_ne in Hd' by done. eauto.
    + rewrite Hi in Hd'. destruct (decide (Item.id item = docId)) as [<-|Hne].
      * rewrite lookup_insert_eq in Hd'. apply (inj Some) in Hd' as <-.
        apply Harch. by apply (IH _ _ Hd).
      * rewrite lookup_insert_ne in Hd' by done. eauto.
Qed.

Lemma every_step_true evs sw : every_step (λ _ _, true) evs sw = true.
Proof. revert sw. induction evs as [|ev evs IH]; intros sw; simpl; [done|apply IH]. Qed.

(** The same without a check: in every state that the page reaches. *)
Lemma documents_invariant (warehouseId : string) (P : ItemDoc.t → Prop)
    (Q : Item.t → Prop) :
  (∀ docId d, P d → Q (ItemDoc.toItem docId d)) →
  (∀ now dateNow serverTime data,
     itemFormSchema data = true → P (newItemData now dateNow serverTime warehouseId data)) →
  (∀ now dateNow serverTime type item data d ledger,
     P d → Q item →
     stockAdjustmentFormSchema data = true →
     passes_guard type item data →
     ledger = ItemDoc.history d
     ∨ ledger = ItemDoc.history d ++ [newHistoryEntry now dateNow type item data] →
     P (ItemDoc.mk (ItemDoc.warehouseId d) (ItemDoc.name d)
          (Js.add (Item.quantity item) (quantityChange type data)) (ItemDoc.location d)
          (ItemDoc.createdAt d) serverTime ledger (ItemDoc.isArchived d))) →
  (∀ serverTime d, P d → P (archivedItem serverTime d)) →
  ∀ warehouses evs,
    let sw := run evs (initialState warehouseId, initialWorld warehouses) in
    documents P sw.2 ∧ Forall Q (visible sw.1).
Proof.
  intros Hview Hnew Hadj Harch warehouses evs.
  apply (checked_documents_invariant warehouseId P Q (λ _ _, true) (λ _ _ _ _, True));
    auto using every_step_true.
  intros. eapply Hadj; eauto.
Qed.

(** The same for a property that an adjustment keeps when its entry is
    new and the adjustment passes a check: it holds in the states reached
    by submissions with distinct [Date.now()] readings that all pass the
    check.  [C] is what the check says of the item of the dialog, of the
    form and of the document. *)
Lemma fresh_documents_invariant (warehouseId : string) (P : ItemDoc.t → Prop)
    (check : State * World.t → Event → bool)
    (C : Item.t → AdjustmentType → StockAdjustmentFormValues.t → ItemDoc.t → Prop) :
  (∀ s w data now dateNow serverTime item type d,
     check (s, w) (SubmitStockAdjustmentForm data now dateNow serverTime) = true →
     itemForAdjustment s = Some item → adjustmentType s = Some type →
     World.items w !! Item.id item = Some d →
     C item type data d) →
  (∀ now dateNow serverTime data,
     itemFormSchema data = true → P (newItemData now dateNow serverTime warehouseId data)) →
  (∀ now dateNow serverTime type item data d,
     P d →
     C item type data d →
     stockAdjustmentFormSchema data = true →
     passes_guard type item data →
     (∀ e', e' ∈ ItemDoc.history d →
            HistoryEntry.id e' ≠ HistoryEntry.id (newHistoryEntry now dateNow type item data)) →
     P (ItemDoc.mk (ItemDoc.warehouseId d) (ItemDoc.name d)
          (Js.add (Item.quantity item) (quantityChange type data)) (ItemDoc.location d)
          (ItemDoc.createdAt d) serverTime
          (ItemDoc.history d ++ [newHistoryEntry now dateNow type item data])
          (ItemDoc.isArchived d))) →
  (∀ serverTime d, P d → P (archivedItem serverTime d)) →
  ∀ warehouses evs,
    NoDup (adjustmentClock evs) →
    every_step check evs (initialState warehouseId, initialWorld warehouses) = true →
    documents P (run evs (initialState warehouseId, initialWorld warehouses)).2.
Proof.
  intros Hcheck Hnew Hadj Harch warehouses evs.
  apply (run_invariant warehouseId warehouses
           (λ evs _ w,
              NoDup (adjustmentClock evs) →
              every_step check evs (initialState warehouseId, initialWorld warehouses) = true →
              documents P w)).
  - intros _ _. apply documents_initial.
  - intros evs' ev s w s' w' Hrun IH Hstep Hnodup Hevery.
    rewrite adjustmentClock_snoc in Hnodup.
    apply NoDup_app in Hnodup as (Hnodup & Hfresh & _).
    apply every_step_snoc in Hevery as [Hevery Hev]. rewrite Hrun in Hev.
    specialize (IH Hnodup Hevery).
    pose proof (ids_run warehouseId warehouses evs') as IHids. rewrite Hrun in IHids.
    simpl in IHids.
    intros docId d' Hd'.
    destruct Hstep as [ev s' w' Hi _|data now dateNow serverTime autoId s' w' Hschema Hnone Hi _
                     |data now dateNow serverTime item type d s' w' Hschema _ Hitem Hty Hok Hd Hi _
                     |serverTime item d s' w' _ Hd Hi _].
    + rewrite Hi in Hd'. eauto.
    + rewrite Hi in Hd'. destruct (decide (autoId = docId)) as [->|Hne].
      * rewrite lookup_insert_eq in Hd'. apply (inj Some) in Hd' as <-.
        pose proof (run_id warehouseId warehouses evs') as Hid. rewrite Hrun in Hid.
        simpl in Hid. rewrite Hid. by apply Hnew.
      * rewrite lookup_insert_ne in Hd' by done. eauto.
    + rewrite Hi in Hd'. destruct (decide (Item.id item = docId)) as [<-|Hne].
      * rewrite lookup_insert_eq in Hd'. apply (inj Some) in Hd' as <-.
        rewrite applyItemFields_stockUpdate.
        assert (dateNow ∉ adjustmentClock evs') as Hnew'.
        { intros Hin. apply (Hfresh _ Hin). simpl. by left. }
        pose proof (newHistoryEntry_id_fresh _ _ now dateNow type item data
                      (IHids _ _ Hd) Hnew') as Hid.
        rewrite arrayUnion_fresh by (intros Hin; by apply (Hid _ Hin)).
        apply Hadj; [by apply (IH _ _ Hd)|by eapply Hcheck|done..].
      * rewrite lookup_insert_ne in Hd' by done. eauto.
    + rewrite Hi in Hd'. destruct (decide (Item.id item = docId)) as [<-|Hne].
      * rewrite lookup_insert_eq in Hd'. apply (inj Some) in Hd' as <-.
        apply Harch. by apply (IH _ _ Hd).
      * rewrite lookup_insert_ne in Hd' by done. eauto.
Qed.

(** What the two conditions on an adjustment say. *)
Lemma exact_spec s w data now dateNow serverTime item type d :
  exact (s, w) (SubmitStockAdjustmentForm data now dateNow serverTime) = true →
  itemForAdjustment s = Some item → adjustmentType s = Some type →
  World.items w !! Item.id item = Some d →
  ItemDoc.quantity d = Item.quantity item
  ∧ Z.abs (Item.quantity item + quantityChange type data) ≤ maxSafe.
Proof.
  unfold exact, inStep, inSafeRange. simpl. intros Hex Hitem Hty Hd.
  rewrite Hitem, Hty, Hd in Hex.
  apply andb_true_iff in Hex as [H1%bool_decide_eq_true H2%bool_decide_eq_true]. done.
Qed.

Lemma inStep_spec s w data now dateNow serverTime item type d :
  inStep (s, w) (SubmitStockAdjustmentForm data now dateNow serverTime) = true →
  itemForAdjustment s = Some item → adjustmentType s = Some type →
  World.items w !! Item.id item = Some d →
  ItemDoc.quantity d = Item.quantity item.
Proof.
  unfold inStep. simpl. intros Hex Hitem Hty Hd. rewrite Hitem, Hd in Hex.
  by apply bool_decide_eq_true in Hex.
Qed.

Lemma inSafeRange_spec s w data now dateNow serverTime item type (d : ItemDoc.t) :
  inSafeRange (s, w) (SubmitStockAdjustmentForm data now dateNow serverTime) = true →
  itemForAdjustment s = Some item → adjustmentType s = Some type →
  World.items w !! Item.id item = Some d →
  Z.abs (Item.quantity item + quantityChange type data) ≤ maxSafe.
Proof.
  unfold inSafeRange. simpl. intros Hex Hitem Hty _. rewrite Hitem, Hty in Hex.
  by apply bool_decide_eq_true in Hex.
Qed.

(** Every item that the component holds is the view of a document that
    the store has held after some of the events handled so far. *)
Lemma views_of_earlier_documents warehouseId warehouses evs :
  Forall (λ item,
            ∃ pre d0,
              pre `prefix_of` evs
              ∧ World.items (run pre (initialState warehouseId, initialWorld warehouses)).2
                !! Item.id item = Some d0
              ∧ item = ItemDoc.toItem (Item.id item) d0)
    (visible (run evs (initialState warehouseId, initialWorld warehouses)).1).
Proof.
  apply (run_invariant warehouseId warehouses
           (λ evs s _,
              Forall (λ item,
                        ∃ pre d0,
                          pre `prefix_of` evs
                          ∧ World.items
                              (run pre (initialState warehouseId, initialWorld warehouses)).2
                            !! Item.id item = Some d0
                          ∧ item = ItemDoc.toItem (Item.id item) d0)
                (visible s))).
  - constructor.
  - intros evs' ev s w s' w' Hrun IH Hstep. apply Forall_forall. intros item Hin.
    rewrite Forall_forall in IH.
    destruct (Step_visible _ _ _ _ _ _ Hstep Hin) as [Hold|(d & Hd & Heq)].
    + destruct (IH _ Hold) as (pre & d0 & Hpre & Hd0 & Heq).
      exists pre, d0. split; [|done]. by apply prefix_app_r.
    + exists evs', d. split; [by apply prefix_app_r|]. by rewrite Hrun.
Qed.

(** The two conditions on a run hold of its beginnings. *)
Lemma NoDup_adjustmentClock_prefix pre evs :
  pre `prefix_of` evs → NoDup (adjustmentClock evs) → NoDup (adjustmentClock pre).
Proof.
  intros [rest ->]. unfold adjustmentClock. rewrite omap_app. by intros [? _]%NoDup_app.
Qed.

Lemma every_step_prefix check pre evs sw :
  pre `prefix_of` evs → every_step check evs sw = true → every_step check pre sw = true.
Proof.
  intros [rest ->]. rewrite every_step_app. by intros [? _]%andb_true_iff.
Qed.

(** The ledgers and the quantities of the store after a run of exact
    adjustments with distinct [Date.now()] readings. *)
Lemma reconciled_run warehouseId warehouses evs :
  NoDup (adjustmentClock evs) →
  every_step exact evs (initialState warehouseId, initialWorld warehouses) = true →
  documents reconciled (run evs (initialState warehouseId, initialWorld warehouses)).2.
Proof.
  apply (fresh_documents_invariant warehouseId reconciled exact
           (λ item type data d,
              ItemDoc.quantity d = Item.quantity item
              ∧ Z.abs (Item.quantity item + quantityChange type data) ≤ maxSafe)).
  - intros. by eapply exact_spec.
  - intros. unfold reconciled, replay. simpl. lia.
  - intros now dateNow serverTime type item data d0 Hrec [Hq Hsafe] _ _ _.
    unfold reconciled in *. simpl. rewrite replay_snoc, Hrec, Hq. simpl.
    by rewrite (add_exact _ _ Hsafe).
  - intros. done.
Qed.

End Ledger.

(** ** The stock mutation engine *)

Section StockMutation.
Import WarehouseDetailPage.


(** C4.  On a page that has loaded its warehouse, [onAddItemSubmit] with a
    generated id that no document has creates the document of that id: its
    quantity is N, the quantity of the form, and its ledger is one
    CREATE_ITEM entry with quantityBefore 0, quantityAfter N and change N;
    the handler returns with the dialog closed and the toast "Item Added".
    In every state, a document that is in the store after the call and
    was not there before it is that document. *)
Theorem created_item_has_one_entry (now dateNow serverTime : Z) (autoId : string)
    (data : ItemFormValues.t) (s : State) (w : World.t) :
  let N := ItemFormValues.quantity data in
  let result := onAddItemSubmit now dateNow serverTime autoId data s w in
  (is_Some (warehouse s) →
   warehouseIdFromParams s ≠ "" →
   World.items w !! autoId = None →
   result.1 = Ok (setIsAddItemDialogOpen false s)
   ∧ World.toasts result.2 = World.toasts w ++ ["Item Added"]
   ∧ ∃ d e,
       World.items result.2 !! autoId = Some d
       ∧ ItemDoc.quantity d = N
       ∧ ItemDoc.history d = [e]
       ∧ HistoryEntry.type e = CREATE_ITEM
       ∧ HistoryEntry.quantityBefore e = 0
       ∧ HistoryEntry.quantityAfter e = N
       ∧ HistoryEntry.change e = N)
  ∧ (∀ docId d,
       World.items w !! docId = None →
       World.items result.2 !! docId = Some d →
       docId = autoId
       ∧ ItemDoc.quantity d = N
       ∧ ∃ e, ItemDoc.history d = [e]
              ∧ HistoryEntry.type e = CREATE_ITEM
              ∧ HistoryEntry.quantityBefore e = 0
              ∧ HistoryEntry.quantityAfter e = N
              ∧ HistoryEntry.change e = N).
Proof.
  intros N result. subst result.
  destruct (onAddItemSubmit_outcome now dateNow serverTime autoId data s w)
    as (s' & w' & Heq & Hout).
  rewrite Heq. simpl. split.
  - intros [wh Hwh] Hid%truthy_ne Hnone.
    destruct Hout as [[?|?] _ _|d0 _ Hd0 _ _|_ _ _ -> Hi (_ & Ht & _)]; [congruence..|].
    split; [done|]. split; [done|].
    eexists _, _. rewrite Hi, lookup_insert_eq. split; [done|]. by repeat split.
  - intros docId d Hnone Hd.
    destruct Hout as [_ _ ->|d0 _ _ _ (Hi & _)|_ _ _ _ Hi _].
    + congruence.
    + rewrite Hi in Hd. congruence.
    + rewrite Hi in Hd. destruct (decide (autoId = docId)) as [->|Hne].
      * rewrite lookup_insert_eq in Hd. apply (inj Some) in Hd as <-.
        split; [done|]. split; [done|]. eexists. by repeat split.
      * rewrite lookup_insert_ne in Hd by done. congruence.
Qed.

(** C3.  In a state that the page reaches, a stock adjustment that passes
    the form and the consume guard, made from the open dialog, which holds
    the item [item] with the quantity q.  The document of the item is in
    the store.  The entry has quantityBefore q, change delta and, as
    quantityAfter, the double nearest to q + delta, which is q + delta
    when its magnitude is 2^53 at most (then quantityAfter =
    quantityBefore + change); it has the timestamp [now] and the id made
    of the [Date.now()] reading, which no entry of the ledger has when no
    earlier adjustment has taken the same reading, and then [arrayUnion]
    adds the entry at the end of the ledger.  The handler issues exactly
    one write to the item, a single [updateDoc] that carries the new
    quantity and the [arrayUnion] of the entry (the other write is the
    timestamp of the warehouse), and the store then holds the document
    with both. *)
Theorem adjustment_is_one_update (warehouseId : string)
    (warehouses : gmap string WarehouseDoc.t) (evs : list Event)
    (data : StockAdjustmentFormValues.t) (now dateNow serverTime : Z)
    (item : Item.t) (type : AdjustmentType) :
  let s := (run evs (initialState warehouseId, initialWorld warehouses)).1 in
  let w := (run evs (initialState warehouseId, initialWorld warehouses)).2 in
  let delta := quantityChange type data in
  let q := Item.quantity item in
  let e := newHistoryEntry now dateNow type item data in
  let w' := (dispatch (s, w) (SubmitStockAdjustmentForm data now dateNow serverTime)).2 in
  isStockAdjustmentDialogOpen s = true →
  itemForAdjustment s = Some item →
  adjustmentType s = Some type →
  stockAdjustmentFormSchema data = true →
  ¬ (type = adj_CONSUME_STOCK ∧ q < StockAdjustmentFormValues.adjustmentQuantity data) →
  ∃ d,
    World.items w !! Item.id item = Some d
    ∧ HistoryEntry.quantityBefore e = q
    ∧ HistoryEntry.change e = delta
    ∧ HistoryEntry.quantityAfter e = Js.add q delta
    ∧ (Z.abs (q + delta) ≤ maxSafe →
       HistoryEntry.quantityAfter e = q + delta
       ∧ HistoryEntry.quantityAfter e = HistoryEntry.quantityBefore e + HistoryEntry.change e)
    ∧ HistoryEntry.timestamp e = now
    ∧ HistoryEntry.id e = pretty dateNow +:+ "-hist-adjust"
    ∧ (dateNow ∉ adjustmentClock evs →
       (∀ e', e' ∈ ItemDoc.history d → HistoryEntry.id e' ≠ HistoryEntry.id e)
       ∧ Firestore.arrayUnion [e] (ItemDoc.history d) = ItemDoc.history d ++ [e])
    ∧ World.writes w' =
        World.writes w ++
        [ updateDoc_item (Item.id item)
            [ quantity_is (Js.add q delta); updatedAt_serverTimestamp;
              history_arrayUnion [e] ];
          updateDoc_warehouse warehouseId [wh_updatedAt_serverTimestamp] ]
    ∧ World.items w' =
        <[Item.id item :=
            ItemDoc.mk (ItemDoc.warehouseId d) (ItemDoc.name d) (Js.add q delta)
              (ItemDoc.location d) (ItemDoc.createdAt d) serverTime
              (Firestore.arrayUnion [e] (ItemDoc.history d)) (ItemDoc.isArchived d)]>
          (World.items w).
Proof.
  intros s w delta q e w' Hopen Hitem Hty Hschema Hok.
  pose proof (Page_run warehouses warehouseId evs) as HP.
  pose proof (seen_run warehouseId warehouses evs) as Hseen.
  pose proof (ids_run warehouseId warehouses evs) as Hids.
  simpl in HP, Hseen. fold s w in HP, Hseen, Hids.
  assert (item ∈ visible s) as Hvis by (apply elem_of_visible; auto).
  rewrite Forall_forall in Hseen. destruct (Hseen _ Hvis) as (d0 & d & _ & Hd & _).
  destruct (Page_open _ _ _ _ _ HP Hvis) as (wh & Hwh).
  pose proof (Page_truthy _ _ _ _ _ HP Hwh) as Hid.
  pose proof (page_id _ _ _ _ HP) as Hwid.
  exists d. split; [done|]. split; [done|]. split; [done|]. split; [done|]. split.
  { intros Hsafe. subst e. simpl. fold q delta. rewrite (add_exact _ _ Hsafe). done. }
  split; [done|]. split; [done|]. split.
  { intros Hfresh.
    assert (∀ e', e' ∈ ItemDoc.history d → HistoryEntry.id e' ≠ HistoryEntry.id e) as Hnew.
    { by apply (newHistoryEntry_id_fresh (adjustmentClock evs)); [apply (Hids _ _ Hd)|]. }
    split; [done|]. apply arrayUnion_fresh. intros Hin. by apply (Hnew _ Hin). }
  subst w'. unfold dispatch. simpl. rewrite Hopen, Hschema. simpl.
  destruct (onStockAdjustmentSubmit_outcome now dateNow serverTime data s w)
    as (s2 & w2 & -> & Hout). simpl.
  destruct Hout as [Hnothing _ _|item' Hitem' Hty' Hlt _ _|item' type' Hitem' _ _ Hnone _ _
                    |item' type' d' Hitem' Hty' _ _ Hd' _ Hi (Hw & _)].
  - destruct Hnothing as [?|[?|?]]; congruence.
  - exfalso. apply Hok. assert (item' = item) as -> by congruence.
    split; [congruence|done].
  - assert (item' = item) as -> by congruence. congruence.
  - assert (item' = item) as -> by congruence.
    assert (type' = type) as -> by congruence.
    assert (d' = d) as -> by congruence.
    split; [by rewrite Hw, Hwid|].
    by rewrite Hi, applyItemFields_stockUpdate.
Qed.

(** C2.  After every sequence of events of the page in which no two
    submissions of the adjustment form take the same [Date.now()] reading,
    and every adjustment is submitted from a dialog that holds the stored
    quantity of its item and gives a sum of a magnitude of 2^53 at most,
    every item of the store reconciles with its ledger: replaying the
    ledger from 0, in the order of the store or in any other order (so in
    the order of the timestamps as well), gives the stored quantity. *)
Theorem replay_gives_quantity (warehouseId : string)
    (warehouses : gmap string WarehouseDoc.t) (evs : list Event)
    (docId : string) (d : ItemDoc.t) (ledger : list HistoryEntry.t) :
  NoDup (adjustmentClock evs) →
  every_step exact evs (initialState warehouseId, initialWorld warehouses) = true →
  World.items (run evs (initialState warehouseId, initialWorld warehouses)).2 !! docId
  = Some d →
  ledger ≡ₚ ItemDoc.history d →
  replay ledger = ItemDoc.quantity d.
Proof.
  intros Hclock Hexact Hd Hperm.
  rewrite (replay_Permutation _ _ Hperm).
  by apply (reconciled_run warehouseId warehouses evs Hclock Hexact docId).
Qed.

(** C9.  After every sequence of events of the page, the quantity of every
    item of the store is at least 0.  The forms let through a quantity
    of at least 0 for a new item and a positive amount for an adjustment,
    and the consume guard refuses an amount above the quantity. *)
Theorem quantity_never_negative (warehouseId : string)
    (warehouses : gmap string WarehouseDoc.t) (evs : list Event)
    (docId : string) (d : ItemDoc.t) :
  World.items (run evs (initialState warehouseId, initialWorld warehouses)).2 !! docId
  = Some d →
  0 ≤ ItemDoc.quantity d.
Proof.
  revert docId d.
  apply (documents_invariant warehouseId (λ d, 0 ≤ ItemDoc.quantity d)
           (λ item, 0 ≤ Item.quantity item)).
  - intros. done.
  - intros now dateNow serverTime data Hschema. simpl.
    apply andb_true_iff in Hschema as [_ Hq]. by apply bool_decide_eq_true in Hq.
  - intros now dateNow serverTime type item data d ledger _ Hq Hschema Hok _. simpl.
    apply add_nonneg. apply bool_decide_eq_true in Hschema.
    unfold quantityChange. destruct type; [lia|].
    destruct (decide (Item.quantity item
                      < StockAdjustmentFormValues.adjustmentQuantity data));
      [by destruct Hok|lia].
  - intros. done.
Qed.

End StockMutation.

Section Witnesses.
Import WarehouseDetailPage.


Lemma created_item_has_one_entry_witness :
  let opened := run [Mounted; ClickAddItem] Scenario.start in
  let result :=
    onAddItemSubmit 1000 1001 1002 "i1" (ItemFormValues.mk "Bolt" 10 None) opened.1 opened.2 in
  is_Some (warehouse opened.1)
  ∧ warehouseIdFromParams opened.1 ≠ ""
  ∧ World.items opened.2 !! "i1" = None
  ∧ result.1 = Ok (setIsAddItemDialogOpen false opened.1)
  ∧ World.toasts result.2 = World.toasts opened.2 ++ ["Item Added"]
  ∧ ∃ d e,
      World.items result.2 !! "i1" = Some d
      ∧ ItemDoc.quantity d = 10
      ∧ ItemDoc.history d = [e]
      ∧ HistoryEntry.type e = CREATE_ITEM
      ∧ HistoryEntry.quantityBefore e = 0
      ∧ HistoryEntry.quantityAfter e = 10
      ∧ HistoryEntry.change e = 10.
Proof.
  intros opened result.
  assert (is_Some (warehouse opened.1)) as H1 by (vm_compute; eexists; reflexivity).
  assert (warehouseIdFromParams opened.1 ≠ "") as H2 by (vm_compute; discriminate).
  assert (World.items opened.2 !! "i1" = None) as H3 by (vm_compute; reflexivity).
  split; [exact H1|]. split; [exact H2|]. split; [exact H3|].
  exact (proj1 (created_item_has_one_entry 1000 1001 1002 "i1"
                  (ItemFormValues.mk "Bolt" 10 None) opened.1 opened.2) H1 H2 H3).
Defined.

Lemma adjustment_is_one_update_witness :
  isStockAdjustmentDialogOpen (run Scenario.created Scenario.start).1 = true
  ∧ itemForAdjustment (run Scenario.created Scenario.start).1 = Some Scenario.bolt
  ∧ adjustmentType (run Scenario.created Scenario.start).1 = Some adj_ADD_STOCK
  ∧ stockAdjustmentFormSchema (StockAdjustmentFormValues.mk 5 None) = true
  ∧ ¬ (adj_ADD_STOCK = adj_CONSUME_STOCK ∧ Item.quantity Scenario.bolt < 5)
  ∧ World.writes (dispatch (run Scenario.created Scenario.start) Scenario.add5).2
    = World.writes (run Scenario.created Scenario.start).2 ++
      [ updateDoc_item "i1"
          [ quantity_is 15; updatedAt_serverTimestamp;
            history_arrayUnion [Scenario.entryAdd] ];
        updateDoc_warehouse "w1" [wh_updatedAt_serverTimestamp] ].
Proof.
  assert (isStockAdjustmentDialogOpen (run Scenario.created Scenario.start).1 = true) as H1
    by (vm_compute; reflexivity).
  assert (itemForAdjustment (run Scenario.created Scenario.start).1 = Some Scenario.bolt) as H2
    by (vm_compute; reflexivity).
  assert (adjustmentType (run Scenario.created Scenario.start).1 = Some adj_ADD_STOCK) as H3
    by (vm_compute; reflexivity).
  assert (stockAdjustmentFormSchema (StockAdjustmentFormValues.mk 5 None) = true) as H4
    by (vm_compute; reflexivity).
  assert (¬ (adj_ADD_STOCK = adj_CONSUME_STOCK ∧ Item.quantity Scenario.bolt < 5)) as H5
    by (intros [? _]; discriminate).
  repeat (split; [assumption|]).
  destruct (adjustment_is_one_update "w1" Scenario.warehouses Scenario.created
              (StockAdjustmentFormValues.mk 5 None) 2000 2001 2002 Scenario.bolt
              adj_ADD_STOCK H1 H2 H3 H4 H5)
    as (d & _ & _ & _ & _ & _ & _ & _ & _ & Hw & _).
  exact Hw.
Defined.

(** Against C3 as the claim states it: three adjustments that succeed.
    The first is made from a dialog that was opened before the reload had
    settled: the store holds 15 pieces, and the entry starts from the 10
    pieces of the dialog.  The second adds 1 piece to 2^53 pieces: the
    entry has quantityAfter 2^53, which is not quantityBefore + change.
    The third reads the millisecond that an earlier adjustment of the item
    has read: the id of its entry is the id of an entry of the ledger. *)
Lemma adjustment_is_one_update_counterexample :
  (ItemDoc.quantity
     <$> World.items (run (Scenario.created ++ [Scenario.add5]) Scenario.start).2 !! "i1"
   = Some 15
   ∧ ItemDoc.history <$> World.items (run Scenario.beforeReload Scenario.start).2 !! "i1"
     = Some [Scenario.entryCreate; Scenario.entryAdd; Scenario.entryConsumeStale]
   ∧ HistoryEntry.quantityBefore Scenario.entryConsumeStale = 10)
  ∧ (ItemDoc.history <$> World.items (run Scenario.large Scenario.start).2 !! "i1"
     = Some [HistoryEntry.mk "1001-hist-create" CREATE_ITEM (2 ^ 53) 0 (2 ^ 53)
               (Some "Initial item creation") 1000;
             Scenario.entryAddLarge]
     ∧ HistoryEntry.quantityAfter Scenario.entryAddLarge
       ≠ HistoryEntry.quantityBefore Scenario.entryAddLarge
         + HistoryEntry.change Scenario.entryAddLarge)
  ∧ (ItemDoc.history <$> World.items (run Scenario.sameId Scenario.start).2 !! "i1"
     = Some [Scenario.entryCreate; Scenario.entryAdd; Scenario.entryAddAgain]
     ∧ HistoryEntry.id Scenario.entryAddAgain = HistoryEntry.id Scenario.entryAdd).
Proof.
  split; [|split].
  - by vm_compute.
  - split; [by vm_compute|]. by vm_compute.
  - by vm_compute.
Qed.

Lemma replay_gives_quantity_witness :
  NoDup (adjustmentClock Scenario.adjusted)
  ∧ every_step exact Scenario.adjusted Scenario.start = true
  ∧ World.items (run Scenario.adjusted Scenario.start).2 !! "i1" = Some Scenario.boltDoc
  ∧ ([Scenario.entryConsume; Scenario.entryAdd; Scenario.entryCreate]
       ≡ₚ ItemDoc.history Scenario.boltDoc)
  ∧ replay [Scenario.entryConsume; Scenario.entryAdd; Scenario.entryCreate] = 12.
Proof.
  assert (NoDup (adjustmentClock Scenario.adjusted)) as H1
    by (apply (bool_decide_unpack (NoDup _)); vm_compute; exact I).
  assert (every_step exact Scenario.adjusted Scenario.start = true) as H0
    by (vm_compute; reflexivity).
  assert (World.items (run Scenario.adjusted Scenario.start).2 !! "i1"
          = Some Scenario.boltDoc) as H2 by (vm_compute; reflexivity).
  assert (([Scenario.entryConsume; Scenario.entryAdd; Scenario.entryCreate])
            ≡ₚ ItemDoc.history Scenario.boltDoc) as H3
    by (symmetry; apply (Permutation_rev (ItemDoc.history Scenario.boltDoc))).
  repeat (split; [assumption|]).
  exact (replay_gives_quantity "w1" Scenario.warehouses Scenario.adjusted "i1"
           Scenario.boltDoc _ H1 H0 H2 H3).
Defined.

(** Against C2 as the claim states it: three sequences of mutations.
    A consumption of 3 made from a dialog that was opened before the
    reload of an addition of 5 had settled: the ledger sums to 12 and the
    quantity is 7.  An addition of 1, a consumption of 1 and a second
    addition of 1 that read the same millisecond: the third entry is the
    first one again, [arrayUnion] does not add it, the ledger sums to 10
    and the quantity is 11.  An addition of 1 to 2^53 pieces: the ledger
    sums to 2^53 + 1 and the quantity is 2^53. *)
Lemma replay_gives_quantity_counterexample :
  (∃ d, World.items (run Scenario.beforeReload Scenario.start).2 !! "i1" = Some d
        ∧ replay (ItemDoc.history d) = 12
        ∧ ItemDoc.quantity d = 7)
  ∧ (∃ d, World.items (run Scenario.sameMillisecond Scenario.start).2 !! "i1" = Some d
          ∧ length (ItemDoc.history d) = 3%nat
          ∧ replay (ItemDoc.history d) = 10
          ∧ ItemDoc.quantity d = 11)
  ∧ (∃ d, World.items (run Scenario.large Scenario.start).2 !! "i1" = Some d
          ∧ replay (ItemDoc.history d) = 2 ^ 53 + 1
          ∧ ItemDoc.quantity d = 2 ^ 53).
Proof.
  split; [|split]; vm_compute; eexists; by repeat split.
Qed.

Lemma quantity_never_negative_witness :
  World.items (run Scenario.adjusted Scenario.start).2 !! "i1" = Some Scenario.boltDoc
  ∧ 0 ≤ ItemDoc.quantity Scenario.boltDoc.
Proof.
  assert (World.items (run Scenario.adjusted Scenario.start).2 !! "i1"
          = Some Scenario.boltDoc) as H1 by (vm_compute; reflexivity).
  split; [exact H1|].
  exact (quantity_never_negative "w1" Scenario.warehouses Scenario.adjusted "i1"
           Scenario.boltDoc H1).
Defined.

End Witnesses.

(** ** The reports page: flattening *)

Section Flattening.
Import ReportsPage.

Lemma forEach_push_entries item wh (ledger : list HistoryEntry.t)
    (flattened : list FlattenedHistoryEntry.t) :
  Js.forEach ledger
    (λ flattened entry,
       Js.push flattened
         {| FlattenedHistoryEntry.entry := entry;
            FlattenedHistoryEntry.itemName := Item.name item;
            FlattenedHistoryEntry.itemId := Item.id item;
            FlattenedHistoryEntry.warehouseName := Warehouse.name wh;
            FlattenedHistoryEntry.warehouseId := Warehouse.id wh |})
    flattened
  = flattened ++ (widen item wh <$> ledger).
Proof.
  unfold Js.forEach, Js.push. revert flattened.
  induction ledger as [|entry ledger IH]; intros flattened; simpl.
  - by rewrite app_nil_r.
  - rewrite IH, <- app_assoc. done.
Qed.

Lemma flatten_contributions warehouses (items : list Item.t) :
  flatten warehouses items = items ≫= contribution warehouses.
Proof.
  unfold flatten, Js.forEach.
  assert (∀ acc,
    foldl
      (λ flattened item,
         match
           Js.find (λ wh, String.eqb (Warehouse.id wh) (Item.warehouseId item)) warehouses
         with
         | Some warehouse =>
             foldl
               (λ flattened entry,
                  Js.push flattened
                    {| FlattenedHistoryEntry.entry := entry;
                       FlattenedHistoryEntry.itemName := Item.name item;
                       FlattenedHistoryEntry.itemId := Item.id item;
                       FlattenedHistoryEntry.warehouseName := Warehouse.name warehouse;
                       FlattenedHistoryEntry.warehouseId := Warehouse.id warehouse |})
               flattened (Item.history item)
         | None => flattened
         end) acc items
    = acc ++ (items ≫= contribution warehouses)) as H; [|by rewrite H].
  induction items as [|item items IH]; intros acc; simpl.
  - by rewrite app_nil_r.
  - rewrite IH. unfold contribution at 2, parent.
    destruct (Js.find _ warehouses) as [wh|].
    + pose proof (forEach_push_entries item wh (Item.history item) acc) as Hpush.
      unfold Js.forEach in Hpush. rewrite Hpush. by rewrite <- app_assoc.
    + done.
Qed.

Lemma find_Some {A} (p : A → bool) (l : list A) x :
  Js.find p l = Some x → x ∈ l ∧ p x = true.
Proof.
  induction l as [|y l IH]; simpl; [done|].
  destruct (p y) eqn:Hy.
  - intros [= ->]. split; [by left|done].
  - intros H. destruct (IH H). split; [by right|done].
Qed.



(** Two items in two warehouses, with 3 and 2 entries: 5 records, the most
    recent first. *)
Example flatten_two_items :
  let e (id : string) (t : Z) := HistoryEntry.mk id ADD_STOCK 1 0 1 None t in
  let whs := [ Warehouse.mk "w1" "Main" None false 0 0 "u";
               Warehouse.mk "w2" "Annex" None false 0 0 "u" ] in
  let items :=
    [ Item.mk "i1" "w1" "Bolt" 3 None 0 0 [e "a" 10; e "b" 30; e "c" 50] false None;
      Item.mk "i2" "w2" "Nut" 2 None 0 0 [e "d" 20; e "f" 40] false None ] in
  FlattenedHistoryEntry.timestamp <$> allFlattenedTransactions whs items = [50; 40; 30; 20; 10]
  ∧ FlattenedHistoryEntry.warehouseName <$> allFlattenedTransactions whs items
    = ["Main"; "Annex"; "Main"; "Annex"; "Main"].
Proof. split; reflexivity. Qed.

End Flattening.

(** ** The reports page: the date filter *)

Section DateFilter.
Import ReportsPage.
Variable LocalTZA : Z → bool → Z.

Lemma firstOfDay_le day x : firstOfDay day ≤ x ↔ day ≤ JsDate.Day x.
Proof.
  unfold firstOfDay, JsDate.MakeDate, JsDate.MakeTime, JsDate.Day, JsDate.msPerDay.
  pose proof (Z.div_mod x 86400000 ltac:(lia)).
  pose proof (Z.mod_pos_bound x 86400000 ltac:(lia)).
  nia.
Qed.

Lemma lastOfDay_ge day x : x ≤ lastOfDay day ↔ JsDate.Day x ≤ day.
Proof.
  unfold lastOfDay, JsDate.MakeDate, JsDate.MakeTime, JsDate.Day, JsDate.msPerDay.
  pose proof (Z.div_mod x 86400000 ltac:(lia)).
  pose proof (Z.mod_pos_bound x 86400000 ltac:(lia)).
  nia.
Qed.

Lemma setHours_start_le d t :
  opens LocalTZA (firstOfDay (localDay LocalTZA d)) →
  JsDate.setHours LocalTZA d 0 0 0 0 ≤ t ↔ localDay LocalTZA d ≤ localDay LocalTZA t.
Proof.
  intros Hopens. unfold JsDate.setHours.
  change (JsDate.MakeDate (JsDate.Day (JsDate.LocalTime LocalTZA d)) (JsDate.MakeTime 0 0 0 0))
    with (firstOfDay (localDay LocalTZA d)).
  rewrite (Hopens t). apply firstOfDay_le.
Qed.

Lemma setHours_end_ge d t :
  closes LocalTZA (lastOfDay (localDay LocalTZA d)) →
  t ≤ JsDate.setHours LocalTZA d 23 59 59 999 ↔ localDay LocalTZA t ≤ localDay LocalTZA d.
Proof.
  intros Hcloses. unfold JsDate.setHours.
  change (JsDate.MakeDate (JsDate.Day (JsDate.LocalTime LocalTZA d))
            (JsDate.MakeTime 23 59 59 999))
    with (lastOfDay (localDay LocalTZA d)).
  rewrite (Hcloses t). apply lastOfDay_ge.
Qed.



End DateFilter.

(** A zone that keeps one offset never sets its clock back. *)
Lemma fixedOffset_opens tza x : opens (JsDate.fixedOffset tza) x.
Proof. intros t. unfold JsDate.UTC, JsDate.LocalTime, JsDate.fixedOffset. lia. Qed.

Lemma fixedOffset_closes tza x : closes (JsDate.fixedOffset tza) x.
Proof. intros t. unfold JsDate.UTC, JsDate.LocalTime, JsDate.fixedOffset. lia. Qed.



(** On the day on which the clocks of America/New_York go forward, the
    two bounds are 05:00:00.000Z of 2024-03-10 and 03:59:59.999Z of
    2024-03-11, 23 hours apart, and the instants between them are those of
    that day of the local calendar. *)
Example spring_forward_day_is_whole :
  JsDate.setHours SpringForward.zone SpringForward.picked 0 0 0 0
  = JsDate.MakeDate (JsDate.MakeDay 2024 3 10) (JsDate.MakeTime 5 0 0 0)
  ∧ JsDate.setHours SpringForward.zone SpringForward.picked 23 59 59 999
    = JsDate.MakeDate (JsDate.MakeDay 2024 3 11) (JsDate.MakeTime 3 59 59 999)
  ∧ ∀ t,
      JsDate.setHours SpringForward.zone SpringForward.picked 0 0 0 0 ≤ t
      ∧ t ≤ JsDate.setHours SpringForward.zone SpringForward.picked 23 59 59 999
      ↔ localDay SpringForward.zone t = SpringForward.day.
Proof.
  split; [by vm_compute|]. split; [by vm_compute|].
  assert (localDay SpringForward.zone SpringForward.picked = SpringForward.day) as Hday
    by (by vm_compute).
  assert (opens SpringForward.zone (firstOfDay SpringForward.day)) as Hopens.
  { intros t. unfold JsDate.UTC, JsDate.LocalTime, SpringForward.zone, JsDate.oneTransition.
    change (firstOfDay SpringForward.day) with 1710028800000.
    change SpringForward.transition with 1710054000000.
    change (Z.max (-18000000) (-14400000)) with (-14400000).
    repeat case_match; lia. }
  assert (closes SpringForward.zone (lastOfDay SpringForward.day)) as Hcloses.
  { intros t. unfold JsDate.UTC, JsDate.LocalTime, SpringForward.zone, JsDate.oneTransition.
    change (lastOfDay SpringForward.day) with 1710115199999.
    change SpringForward.transition with 1710054000000.
    change (Z.max (-18000000) (-14400000)) with (-14400000).
    repeat case_match; lia. }
  intros t. rewrite <- Hday in Hopens, Hcloses.
  rewrite (setHours_start_le _ _ t Hopens), (setHours_end_ge _ _ t Hcloses), Hday. lia.
Qed.

(** ** The warehouse list page: archiving a warehouse *)

Section ArchiveWarehouse.
Import WarehousesPage.

Lemma applyBatch_lookup serverTime fields (l : list (string * ItemDoc.t))
    (m : gmap string ItemDoc.t) docId :
  NoDup l.*1 →
  Firestore.applyBatch serverTime m (map (λ itemDoc, (itemDoc.1, fields)) l) !! docId
  = if decide (docId ∈ l.*1)
    then Firestore.applyItemFields serverTime fields <$> m !! docId
    else m !! docId.
Proof.
  unfold Firestore.applyBatch. revert m.
  induction l as [|x l IH]; intros m Hnodup.
  - rewrite decide_False; [done|]. apply not_elem_of_nil.
  - rewrite fmap_cons in *. apply NoDup_cons in Hnodup as [Hx Hl].
    cbn [map foldl fst snd]. rewrite (IH _ Hl).
    destruct (decide (docId = x.1)) as [->|Hne].
    + rewrite decide_False by done. rewrite decide_True by (by left).
      by rewrite lookup_alter_eq.
    + rewrite lookup_alter_ne by done.
      destruct (decide (docId ∈ l.*1)) as [Hin|Hnin].
      * rewrite decide_True; [done|]. by right.
      * rewrite decide_False; [done|]. intros [?|?]%elem_of_cons; done.
Qed.

Lemma query_exists (where_ : ItemDoc.t → bool) fields (m : gmap string ItemDoc.t) :
  forallb (λ u : string * list ItemField, bool_decide (is_Some (m !! u.1)))
    (map (λ itemDoc : string * ItemDoc.t, (itemDoc.1, fields))
       (filter (λ p, where_ p.2 = true) (map_to_list m)))
  = true.
Proof.
  apply forallb_forall. intros u Hu.
  apply in_map_iff in Hu as ([docId d] & <- & Hin).
  apply list_elem_of_In, list_elem_of_filter in Hin as [_ Hin].
  apply elem_of_map_to_list in Hin. simpl. apply bool_decide_eq_true. by exists d.
Qed.

Lemma elem_of_query (where_ : ItemDoc.t → bool) (m : gmap string ItemDoc.t) docId :
  docId ∈ (filter (λ p, where_ p.2 = true) (map_to_list m)).*1
  ↔ ∃ d, m !! docId = Some d ∧ where_ d = true.
Proof.
  rewrite list_elem_of_fmap. split.
  - intros ([docId' d] & -> & Hin). apply list_elem_of_filter in Hin as [Hp Hin].
    apply elem_of_map_to_list in Hin. by exists d.
  - intros (d & Hd & Hp). exists (docId, d). split; [done|].
    apply list_elem_of_filter. split; [done|]. by apply elem_of_map_to_list.
Qed.

(** C8.  Archiving the selected warehouse sets its flag and, in the same
    run of the handler, archives every item that refers to it with one
    batch of updates: each of these documents gets [isArchived] and a new
    [updatedAt] and keeps its other fields; the documents of the items of
    other warehouses stay as they are, and so do the other warehouses; no
    document appears or disappears.  The handler issues two writes: the
    update of the warehouse, and the batch for the items. *)
Theorem archive_warehouse_cascades (serverTime : Z) (s : State) (w : World.t)
    (selected : Warehouse.t) (wd : WarehouseDoc.t) :
  selectedWarehouseForArchive s = Some selected →
  World.warehouses w !! Warehouse.id selected = Some wd →
  let w' := (handleArchiveWarehouse serverTime s w).2 in
  World.warehouses w' !! Warehouse.id selected = Some (archivedWarehouse serverTime wd)
  ∧ (∀ docId d,
       World.items w !! docId = Some d →
       ItemDoc.warehouseId d = Warehouse.id selected →
       World.items w' !! docId = Some (archivedItem serverTime d))
  ∧ (∀ docId d,
       World.items w !! docId = Some d →
       ItemDoc.warehouseId d ≠ Warehouse.id selected →
       World.items w' !! docId = Some d)
  ∧ (∀ docId, World.items w !! docId = None → World.items w' !! docId = None)
  ∧ (∀ docId, docId ≠ Warehouse.id selected →
              World.warehouses w' !! docId = World.warehouses w !! docId)
  ∧ ∃ batch,
      World.writes w' =
        World.writes w ++
        [ updateDoc_warehouse (Warehouse.id selected)
            [ wh_isArchived_is true; wh_updatedAt_serverTimestamp ];
          batch_commit batch ]
      ∧ Forall (λ u, u.2 = [ isArchived_is true; updatedAt_serverTimestamp ]) batch
      ∧ (∀ docId, docId ∈ batch.*1
                  ↔ ∃ d, World.items w !! docId = Some d
                         ∧ ItemDoc.warehouseId d = Warehouse.id selected).
Proof.
  intros Hsel Hwd w'. subst w'. unfold handleArchiveWarehouse, loadWarehouses.
  rewrite Hsel. eff_unfold. simpl. rewrite Hwd. simpl.
  rewrite (query_exists
             (λ d, String.eqb (ItemDoc.warehouseId d) (Warehouse.id selected))).
  simpl.
  set (hits := filter (λ p : string * ItemDoc.t,
                         String.eqb (ItemDoc.warehouseId p.2) (Warehouse.id selected) = true)
                 (map_to_list (World.items w))).
  assert (NoDup hits.*1) as Hnodup.
  { apply NoDup_fst_filter, NoDup_fst_map_to_list. }
  assert (∀ docId, docId ∈ hits.*1
                   ↔ ∃ d, World.items w !! docId = Some d
                          ∧ ItemDoc.warehouseId d = Warehouse.id selected) as Hhits.
  { intros docId. unfold hits.
    rewrite (elem_of_query
               (λ d, String.eqb (ItemDoc.warehouseId d) (Warehouse.id selected))).
    by setoid_rewrite String.eqb_eq. }
  split; [by rewrite lookup_insert_eq|].
  split; [|split; [|split; [|split]]].
  - intros docId d Hd Hin. rewrite applyBatch_lookup by done.
    rewrite decide_True by (apply Hhits; eauto). by rewrite Hd.
  - intros docId d Hd Hout. rewrite applyBatch_lookup by done.
    rewrite decide_False; [done|]. intros (d' & Hd' & Hin)%Hhits. congruence.
  - intros docId Hnone. rewrite applyBatch_lookup by done.
    rewrite Hnone. by destruct (decide _).
  - intros docId Hne. by rewrite lookup_insert_ne.
  - eexists. split; [by rewrite <- app_assoc|]. split.
    + apply Forall_forall. intros u Hu.
      apply list_elem_of_In, in_map_iff in Hu as (x & <- & _). done.
    + intros docId. rewrite <- Hhits.
      change (map (λ itemDoc : string * ItemDoc.t,
                     (itemDoc.1, [isArchived_is true; updatedAt_serverTimestamp])) hits)
        with ((λ itemDoc : string * ItemDoc.t,
                 (itemDoc.1, [isArchived_is true; updatedAt_serverTimestamp])) <$> hits).
      rewrite <- list_fmap_compose. done.
Qed.

End ArchiveWarehouse.

Lemma archive_warehouse_cascades_witness :
  WarehousesPage.selectedWarehouseForArchive ArchiveScenario.page = Some ArchiveScenario.main
  ∧ World.warehouses ArchiveScenario.world !! Warehouse.id ArchiveScenario.main
    = Some (WarehouseDoc.mk "Main" "" false 0 0 "u1")
  ∧ World.items (WarehousesPage.handleArchiveWarehouse 40 ArchiveScenario.page
                   ArchiveScenario.world).2 !! "i1"
    = Some (ItemDoc.mk "w1" "Bolt" 12 "" 10 40 [] true)
  ∧ World.items (WarehousesPage.handleArchiveWarehouse 40 ArchiveScenario.page
                   ArchiveScenario.world).2 !! "i3"
    = Some ArchiveScenario.gear.
Proof.
  assert (World.warehouses ArchiveScenario.world !! Warehouse.id ArchiveScenario.main
          = Some (WarehouseDoc.mk "Main" "" false 0 0 "u1")) as H2
    by (vm_compute; reflexivity).
  destruct (archive_warehouse_cascades 40 ArchiveScenario.page ArchiveScenario.world
              ArchiveScenario.main _ eq_refl H2) as (_ & Hin & Hout & _).
  split; [reflexivity|]. split; [exact H2|]. split.
  - apply (Hin "i1" ArchiveScenario.bolt); [vm_compute; reflexivity|reflexivity].
  - apply (Hout "i3" ArchiveScenario.gear); [vm_compute; reflexivity|discriminate].
Defined.

(** ** Archived reports *)

Section ArchivedReports.

(** C10.  Whatever the store holds, [handlePrintWarehouseReport] prints the
    report with no row and archives a WAREHOUSE report whose
    [itemsSnapshot] is the empty list; printing that report again gives a
    warehouse report with no row (or the error toast, when the id or the
    name of the warehouse is empty). *)
Theorem warehouse_report_has_no_items (printDate now : Z) (warehouseToPrint : Warehouse.t)
    (w : World.t) :
  let w' := (WarehousesPage.handlePrintWarehouseReport printDate now warehouseToPrint w).2 in
  ∃ report,
    World.archivedReports w' = World.archivedReports w ++ [report]
    ∧ ArchivedReport.reportType report = Some WAREHOUSE
    ∧ ArchivedReport.warehouseId report = Some (Warehouse.id warehouseToPrint)
    ∧ ArchivedReport.itemsSnapshot report = Some []
    ∧ World.printed w' =
        World.printed w ++ [PrintableWarehouseReport warehouseToPrint [] "Admin User" printDate]
    ∧ ∀ later,
        ReportsPage.reprint later report
        = if Js.truthy (Warehouse.id warehouseToPrint)
             && Js.truthy (Warehouse.name warehouseToPrint)
          then Some (PrintableWarehouseReport
                       (ReportsPage.warehouseForPrinting later report
                          (Warehouse.id warehouseToPrint) (Warehouse.name warehouseToPrint))
                       [] "Admin User" now)
          else None.
Proof.
  simpl. eexists. split; [reflexivity|]. repeat split.
Qed.

(** C7, at an input where the code departs from it.  The page has what
    printing needs: the element of the report is in the document,
    [html2pdf] is there and does not throw, and localStorage takes the
    report.  The item has 12 pieces in the store after the three
    mutations and the reload; the page prints its report (the report shows
    the item of the table, with 12 pieces) and archives it.  Printing the
    archived report again shows 10 pieces, the quantity after the oldest
    entry of the ledger, and gives the time of the newest entry as the
    creation time and the time of the oldest as the update time: the
    snapshot holds the ledger in the order of the store, oldest entry
    first, and the reconstruction reads it as newest first.  The same
    holds of every report with this snapshot, whatever has archived it. *)
Theorem reprint_reads_snapshot_backwards :
  let printedAndArchived :=
    WarehouseDetailPage.run
      (Scenario.adjusted
       ++ [WarehouseDetailPage.LoadSettled;
           WarehouseDetailPage.ClickPrintReport 0 Scenario.printing 4000 4001])
      Scenario.start in
  (∃ report original again,
     World.archivedReports printedAndArchived.2 = [report]
     ∧ ArchivedReport.historySnapshot report
       = Some [Scenario.entryCreate; Scenario.entryAdd; Scenario.entryConsume]
     ∧ World.items printedAndArchived.2 !! "i1" = Some Scenario.boltDoc
     ∧ ItemDoc.quantity Scenario.boltDoc = 12
     ∧ World.printed printedAndArchived.2 = [original]
     ∧ Item.quantity <$> printedItem original = Some 12
     ∧ ReportsPage.reprint 5000 report = Some again
     ∧ Item.quantity <$> printedItem again = Some 10
     ∧ Item.createdAt <$> printedItem again = Some 3000
     ∧ Item.updatedAt <$> printedItem again = Some 1000)
  ∧ (∀ report later,
       ArchivedReport.reportType report = Some ITEM →
       ArchivedReport.itemId report = Some "i1" →
       ArchivedReport.itemName report = Some "Bolt" →
       ArchivedReport.historySnapshot report
       = Some [Scenario.entryCreate; Scenario.entryAdd; Scenario.entryConsume] →
       ∃ again,
         ReportsPage.reprint later report = Some again
         ∧ Item.quantity <$> printedItem again = Some 10
         ∧ Item.createdAt <$> printedItem again = Some 3000
         ∧ Item.updatedAt <$> printedItem again = Some 1000).
Proof.
  split.
  - vm_compute. eexists _, _, _. repeat split.
  - intros report later Hty Hid Hname Hsnap. unfold ReportsPage.reprint.
    rewrite Hty, Hid, Hname, Hsnap. simpl. eexists. by repeat split.
Qed.

Lemma reprint_reads_snapshot_backwards_witness :
  let report :=
    ArchivedReport.mk "i1-4001" (Some ITEM) (Some "w1") (Some "Main") None (Some "i1")
      (Some "Bolt") "Admin User" 4001
      (Some [Scenario.entryCreate; Scenario.entryAdd; Scenario.entryConsume]) None None None in
  ∃ again,
    ReportsPage.reprint 5000 report = Some again
    ∧ Item.quantity <$> printedItem again = Some 10
    ∧ Item.createdAt <$> printedItem again = Some 3000
    ∧ Item.updatedAt <$> printedItem again = Some 1000.
Proof.
  intros report.
  exact (proj2 reprint_reads_snapshot_backwards report 5000 eq_refl eq_refl eq_refl eq_refl).
Defined.

End ArchivedReports.

(** * Further properties *)

(** ** The ledgers that the page writes *)

Section LedgerShape.
Import WarehouseDetailPage.

Lemma chained_snoc q ledger e :
  chained q (ledger ++ [e])
  ↔ chained q ledger ∧ HistoryEntry.quantityBefore e = closing q ledger.
Proof.
  revert q. induction ledger as [|e' ledger IH]; intros q; simpl.
  - unfold closing. simpl. tauto.
  - rewrite IH. unfold closing. simpl. tauto.
Qed.

Lemma closing_snoc q ledger e : closing q (ledger ++ [e]) = HistoryEntry.quantityAfter e.
Proof. unfold closing. by rewrite foldl_snoc. Qed.

Lemma closing_last q ledger e : last ledger = Some e → closing q ledger = HistoryEntry.quantityAfter e.
Proof.
  destruct ledger as [|e' ledger] using rev_ind; [done|].
  rewrite last_snoc. intros [= ->]. apply closing_snoc.
Qed.

(** X1.  In every state that the page reaches, the entry of a creation
    starts from 0 and leaves the quantity of its change, and the entry of
    an adjustment leaves the double nearest to quantityBefore + change.
    When every adjustment gives a sum of a magnitude of 2^53 at most, the
    quantities of every entry of every ledger add up: quantityAfter =
    quantityBefore + change. *)
Theorem ledger_entries_balanced (warehouseId : string)
    (warehouses : gmap string WarehouseDoc.t) (evs : list Event)
    (docId : string) (d : ItemDoc.t) (e : HistoryEntry.t) :
  World.items (run evs (initialState warehouseId, initialWorld warehouses)).2 !! docId
  = Some d →
  e ∈ ItemDoc.history d →
  (if decide (HistoryEntry.type e = CREATE_ITEM)
   then HistoryEntry.quantityBefore e = 0
        ∧ HistoryEntry.quantityAfter e = HistoryEntry.change e
   else balanced e)
  ∧ (every_step inSafeRange evs (initialState warehouseId, initialWorld warehouses) = true →
     HistoryEntry.quantityAfter e = HistoryEntry.quantityBefore e + HistoryEntry.change e).
Proof.
  intros Hd He. split.
  - set (shape := λ e : HistoryEntry.t,
                    if decide (HistoryEntry.type e = CREATE_ITEM)
                    then HistoryEntry.quantityBefore e = 0
                         ∧ HistoryEntry.quantityAfter e = HistoryEntry.change e
                    else balanced e).
    assert (documents (λ d, Forall shape (ItemDoc.history d))
              (run evs (initialState warehouseId, initialWorld warehouses)).2) as Hall.
    { apply (documents_invariant warehouseId _ (λ _, True)).
      - done.
      - intros. simpl. apply Forall_singleton. by unfold shape.
      - intros now dateNow serverTime type item data d0 ledger Hd0 _ _ _ [-> | ->]; simpl.
        + done.
        + apply Forall_app. split; [done|]. apply Forall_singleton.
          unfold shape, balanced. simpl. by destruct type.
      - intros. done. }
    pose proof (Hall _ _ Hd) as Hf. rewrite Forall_forall in Hf. by apply Hf.
  - intros Hsafe.
    set (sums := λ e : HistoryEntry.t,
                   HistoryEntry.quantityAfter e
                   = HistoryEntry.quantityBefore e + HistoryEntry.change e).
    assert (documents (λ d, Forall sums (ItemDoc.history d))
              (run evs (initialState warehouseId, initialWorld warehouses)).2) as Hall.
    { apply (checked_documents_invariant warehouseId _ (λ _, True) inSafeRange
               (λ item type data _,
                  Z.abs (Item.quantity item + quantityChange type data) ≤ maxSafe));
        [| | | | |done].
      - intros. by eapply inSafeRange_spec.
      - done.
      - intros. simpl. apply Forall_singleton. unfold sums. simpl. lia.
      - intros now dateNow serverTime type item data d0 ledger Hd0 _ Hrange _ _ [-> | ->];
          simpl.
        + done.
        + apply Forall_app. split; [done|]. apply Forall_singleton.
          unfold sums. simpl. by apply add_exact.
      - intros. done. }
    pose proof (Hall _ _ Hd) as Hf. rewrite Forall_forall in Hf. by apply Hf.
Qed.

(** X2.  In a state reached by submissions with distinct [Date.now()]
    readings, each made from a dialog that holds the stored quantity of
    its item, the ledger of every item is a chain that starts from 0:
    every entry starts from the quantity that the entry before it has
    left, and the stored quantity is the quantityAfter of the last
    entry. *)
Theorem ledger_is_a_chain (warehouseId : string)
    (warehouses : gmap string WarehouseDoc.t) (evs : list Event)
    (docId : string) (d : ItemDoc.t) :
  NoDup (adjustmentClock evs) →
  every_step inStep evs (initialState warehouseId, initialWorld warehouses) = true →
  World.items (run evs (initialState warehouseId, initialWorld warehouses)).2 !! docId
  = Some d →
  chained 0 (ItemDoc.history d)
  ∧ ∃ e, last (ItemDoc.history d) = Some e
         ∧ HistoryEntry.quantityAfter e = ItemDoc.quantity d.
Proof.
  intros Hclock Hstep Hd.
  apply (fresh_documents_invariant warehouseId
           (λ d, chained 0 (ItemDoc.history d)
                 ∧ ∃ e, last (ItemDoc.history d) = Some e
                        ∧ HistoryEntry.quantityAfter e = ItemDoc.quantity d)
           inStep (λ item _ _ d, ItemDoc.quantity d = Item.quantity item))
    with (warehouses := warehouses) (evs := evs) (docId := docId); [| | | |done..].
  - intros. by eapply inStep_spec.
  - intros. simpl. split; [done|]. eexists. by split.
  - intros now dateNow serverTime type item data d0 [Hch (e & Hlast & Hq)] Hqd _ _ _. simpl.
    split.
    + apply chained_snoc. split; [done|]. simpl.
      rewrite (closing_last _ _ _ Hlast). congruence.
    + eexists. rewrite last_snoc. by split.
  - intros. done.
Qed.

(** X3.  In a state reached by submissions with distinct [Date.now()] readings,
    no two entries of a ledger have the same id. *)
Theorem ledger_ids_unique (warehouseId : string)
    (warehouses : gmap string WarehouseDoc.t) (evs : list Event)
    (docId : string) (d : ItemDoc.t) :
  NoDup (adjustmentClock evs) →
  World.items (run evs (initialState warehouseId, initialWorld warehouses)).2 !! docId
  = Some d →
  NoDup (HistoryEntry.id <$> ItemDoc.history d).
Proof.
  intros Hclock Hd.
  apply (fresh_documents_invariant warehouseId
           (λ d, NoDup (HistoryEntry.id <$> ItemDoc.history d))
           (λ _ _, true) (λ _ _ _ _, True))
    with (warehouses := warehouses) (evs := evs) (docId := docId);
    [| | | |done|apply every_step_true|done].
  - done.
  - intros. simpl. apply NoDup_singleton.
  - intros now dateNow serverTime type item data d0 Hnd _ _ _ Hfresh. simpl.
    rewrite fmap_app. apply NoDup_app. split; [done|]. split; [|apply NoDup_singleton].
    intros i Hi [->|[]%elem_of_nil]%elem_of_cons.
    apply list_elem_of_fmap in Hi as (e' & Heq & He'). by apply (Hfresh e' He').
  - intros. done.
Qed.

Lemma page_documents (warehouseId : string) (warehouses : gmap string WarehouseDoc.t)
    (evs : list Event) :
  documents (λ d, ItemDoc.warehouseId d = warehouseId
                  ∧ created_then_adjusted (ItemDoc.history d))
    (run evs (initialState warehouseId, initialWorld warehouses)).2.
Proof.
  apply (documents_invariant warehouseId
           (λ d, ItemDoc.warehouseId d = warehouseId
                 ∧ created_then_adjusted (ItemDoc.history d)) (λ _, True)).
  - done.
  - intros. simpl. repeat split. eexists _, []. by repeat split.
  - intros now dateNow serverTime type item data d0 ledger (Hw & e & rest & Hh & Hty & Hrest)
      _ _ _ Hl. simpl. split; [done|].
    destruct Hl as [-> | ->]; [by exists e, rest|].
    exists e, (rest ++ [newHistoryEntry now dateNow type item data]).
    rewrite Hh. repeat split; [done|].
    apply Forall_app. split; [done|]. apply Forall_singleton. simpl. destruct type; auto.
  - intros. done.
Qed.

(** X4.  In every state that the page reaches, every item of the store
    belongs to the warehouse of the page, and its ledger is the entry of
    its creation followed by additions and consumptions. *)
Theorem items_of_the_page (warehouseId : string)
    (warehouses : gmap string WarehouseDoc.t) (evs : list Event)
    (docId : string) (d : ItemDoc.t) :
  World.items (run evs (initialState warehouseId, initialWorld warehouses)).2 !! docId
  = Some d →
  ItemDoc.warehouseId d = warehouseId
  ∧ created_then_adjusted (ItemDoc.history d).
Proof. apply page_documents. Qed.

Lemma run_extends more s w docId d :
  World.items w !! docId = Some d →
  ∃ d', World.items (run more (s, w)).2 !! docId = Some d' ∧ extends d d'.
Proof.
  revert s w d. induction more as [|ev more IH]; intros s w d Hd; simpl.
  - exists d. split; [done|apply extends_refl].
  - pose proof (dispatch_step ev s w) as Hstep.
    destruct (Step_extends _ _ _ _ _ _ _ Hstep Hd) as (d1 & Hd1 & Hext1).
    destruct (dispatch (s, w) ev) as [s1 w1]. simpl in *.
    destruct (IH s1 w1 d1 Hd1) as (d2 & Hd2 & Hext2).
    exists d2. split; [done|]. by eapply extends_trans.
Qed.

(** X5.  No event of the page removes a document or rewrites a ledger: a
    document that the store holds is still there after any further events,
    its ledger has grown at its end at most, and its warehouse, name,
    location and creation time are the same. *)
Theorem ledgers_only_grow (warehouseId : string)
    (warehouses : gmap string WarehouseDoc.t) (evs more : list Event)
    (docId : string) (d : ItemDoc.t) :
  World.items (run evs (initialState warehouseId, initialWorld warehouses)).2 !! docId
  = Some d →
  ∃ d',
    World.items (run (evs ++ more) (initialState warehouseId, initialWorld warehouses)).2
    !! docId = Some d'
    ∧ extends d d'.
Proof.
  intros Hd. rewrite run_app.
  destruct (run evs (initialState warehouseId, initialWorld warehouses)) as [s w].
  by eapply run_extends.
Qed.

End LedgerShape.

Section LedgerShapeWitnesses.
Import WarehouseDetailPage.

Lemma ledger_entries_balanced_witness :
  World.items (run Scenario.adjusted Scenario.start).2 !! "i1" = Some Scenario.boltDoc
  ∧ Scenario.entryConsume ∈ ItemDoc.history Scenario.boltDoc
  ∧ every_step inSafeRange Scenario.adjusted Scenario.start = true
  ∧ balanced Scenario.entryConsume
  ∧ HistoryEntry.quantityAfter Scenario.entryConsume
    = HistoryEntry.quantityBefore Scenario.entryConsume
      + HistoryEntry.change Scenario.entryConsume.
Proof.
  assert (World.items (run Scenario.adjusted Scenario.start).2 !! "i1"
          = Some Scenario.boltDoc) as H1 by (vm_compute; reflexivity).
  assert (Scenario.entryConsume ∈ ItemDoc.history Scenario.boltDoc) as H2
    by (simpl; right; right; left).
  assert (every_step inSafeRange Scenario.adjusted Scenario.start = true) as H3
    by (vm_compute; reflexivity).
  split; [exact H1|]. split; [exact H2|]. split; [exact H3|].
  destruct (ledger_entries_balanced "w1" Scenario.warehouses Scenario.adjusted "i1"
              Scenario.boltDoc Scenario.entryConsume H1 H2) as [Hshape Hsum].
  split; [exact Hshape|exact (Hsum H3)].
Defined.

Lemma ledger_is_a_chain_witness :
  NoDup (adjustmentClock Scenario.adjusted)
  ∧ every_step inStep Scenario.adjusted Scenario.start = true
  ∧ World.items (run Scenario.adjusted Scenario.start).2 !! "i1" = Some Scenario.boltDoc
  ∧ chained 0 (ItemDoc.history Scenario.boltDoc)
  ∧ ∃ e, last (ItemDoc.history Scenario.boltDoc) = Some e
         ∧ HistoryEntry.quantityAfter e = ItemDoc.quantity Scenario.boltDoc.
Proof.
  assert (NoDup (adjustmentClock Scenario.adjusted)) as H1
    by (apply (bool_decide_unpack (NoDup _)); vm_compute; exact I).
  assert (every_step inStep Scenario.adjusted Scenario.start = true) as H0
    by (vm_compute; reflexivity).
  assert (World.items (run Scenario.adjusted Scenario.start).2 !! "i1"
          = Some Scenario.boltDoc) as H2 by (vm_compute; reflexivity).
  split; [exact H1|]. split; [exact H0|]. split; [exact H2|].
  exact (ledger_is_a_chain "w1" Scenario.warehouses Scenario.adjusted "i1"
           Scenario.boltDoc H1 H0 H2).
Defined.

Lemma ledger_ids_unique_witness :
  NoDup (adjustmentClock Scenario.adjusted)
  ∧ World.items (run Scenario.adjusted Scenario.start).2 !! "i1" = Some Scenario.boltDoc
  ∧ NoDup (HistoryEntry.id <$> ItemDoc.history Scenario.boltDoc).
Proof.
  assert (NoDup (adjustmentClock Scenario.adjusted)) as H1
    by (apply (bool_decide_unpack (NoDup _)); vm_compute; exact I).
  assert (World.items (run Scenario.adjusted Scenario.start).2 !! "i1"
          = Some Scenario.boltDoc) as H2 by (vm_compute; reflexivity).
  split; [exact H1|]. split; [exact H2|].
  exact (ledger_ids_unique "w1" Scenario.warehouses Scenario.adjusted "i1"
           Scenario.boltDoc H1 H2).
Defined.

Lemma items_of_the_page_witness :
  World.items (run Scenario.adjusted Scenario.start).2 !! "i1" = Some Scenario.boltDoc
  ∧ ItemDoc.warehouseId Scenario.boltDoc = "w1"
  ∧ created_then_adjusted (ItemDoc.history Scenario.boltDoc).
Proof.
  assert (World.items (run Scenario.adjusted Scenario.start).2 !! "i1"
          = Some Scenario.boltDoc) as H1 by (vm_compute; reflexivity).
  split; [exact H1|].
  exact (items_of_the_page "w1" Scenario.warehouses Scenario.adjusted "i1"
           Scenario.boltDoc H1).
Defined.

Lemma ledgers_only_grow_witness :
  World.items (run Scenario.created Scenario.start).2 !! "i1"
  = Some (ItemDoc.mk "w1" "Bolt" 10 "" 1002 1002 [Scenario.entryCreate] false)
  ∧ ∃ d',
      World.items
        (run (Scenario.created
              ++ [Scenario.add5; ClickArchiveItem 0; ConfirmArchiveItem 2500])
           Scenario.start).2 !! "i1" = Some d'
      ∧ extends (ItemDoc.mk "w1" "Bolt" 10 "" 1002 1002 [Scenario.entryCreate] false) d'.
Proof.
  assert (World.items (run Scenario.created Scenario.start).2 !! "i1"
          = Some (ItemDoc.mk "w1" "Bolt" 10 "" 1002 1002 [Scenario.entryCreate] false)) as H1
    by (vm_compute; reflexivity).
  split; [exact H1|].
  exact (ledgers_only_grow "w1" Scenario.warehouses Scenario.created
           [Scenario.add5; ClickArchiveItem 0; ConfirmArchiveItem 2500]
           "i1" _ H1).
Defined.

End LedgerShapeWitnesses.

(** ** The table of the warehouse detail page *)

Section PageTable.
Import WarehouseDetailPage.

(** X6.  Loading the page of a warehouse reads the store and writes nothing.
    When the document of the warehouse exists and is not archived, the
    page holds the warehouse and the table lists its items that are not
    archived, each once and the one updated last first; the items of other
    warehouses and the archived items are left out.  When the document is
    missing or archived, the page holds no warehouse and no item and shows
    the toast "Warehouse Not Found".  The dialogs are left as they are. *)
Theorem page_load_lists_the_warehouse (idToLoad : string) (s : State) (w : World.t) :
  Js.truthy idToLoad = true →
  ∃ s' w', loadWarehouseAndItems idToLoad s w = (Ok s', w')
    ∧ same_but_toasts w w' ∧ same_dialogs s s'
    ∧ ((∃ wd, World.warehouses w !! idToLoad = Some wd
              ∧ WarehouseDoc.isArchived wd = false
              ∧ warehouse s' =
                  Some {| Warehouse.id := idToLoad;
                          Warehouse.name := WarehouseDoc.name wd;
                          Warehouse.description := Some (WarehouseDoc.description wd);
                          Warehouse.isArchived := false;
                          Warehouse.createdAt := WarehouseDoc.createdAt wd;
                          Warehouse.updatedAt := WarehouseDoc.updatedAt wd;
                          Warehouse.ownerId := "placeholder-owner-id" |}
              ∧ listing idToLoad w (items s')
              ∧ World.toasts w' = World.toasts w)
       ∨ ((∀ wd, World.warehouses w !! idToLoad = Some wd → WarehouseDoc.isArchived wd = true)
          ∧ warehouse s' = None ∧ items s' = []
          ∧ World.toasts w' = World.toasts w ++ ["Warehouse Not Found"])).
Proof. apply loadWarehouseAndItems_cases. Qed.

(** The reload of a page that has loaded its warehouse, when it settles. *)
Lemma Page_settled warehouses warehouseId s w wh :
  Page warehouses warehouseId s w →
  warehouse s = Some wh →
  ∃ s' w',
    dispatch (s, w) LoadSettled = (s', w')
    ∧ same_but_toasts w w'
    ∧ World.toasts w' = World.toasts w
    ∧ same_dialogs s s'
    ∧ is_Some (warehouse s')
    ∧ listing warehouseId w' (items s').
Proof.
  intros HP Hwh. pose proof HP as [P1 P2 P3 _ _].
  pose proof (Page_truthy _ _ _ _ _ HP Hwh) as Hid.
  destruct (P3 _ Hwh) as ((_ & wd & Hwd & Harch) & _).
  destruct (loadWarehouseAndItems_cases (warehouseIdFromParams s) s w Hid)
    as (s' & w' & Heq & Hsame & Hdlg & Hcases).
  exists s', w'. split.
  { apply dispatch_handle. simpl. by rewrite Hid. }
  split; [done|]. rewrite P1 in Hcases.
  destruct (same_but_updatedAt_lookup _ _ _ _ P2 Hwd) as (wd1 & Hwd1 & _ & Ha1).
  destruct Hcases as [(wd' & Hwd' & Harch' & Hwh' & Hlist & Ht)|(Hnot & _)].
  - split; [done|]. split; [done|]. split; [by rewrite Hwh'|].
    destruct Hsame as (Hi & _). by eapply listing_items.
  - specialize (Hnot _ Hwd1). congruence.
Qed.

(** X7.  In every state that the page reaches, the items that the page
    holds, in the rows of its table and in its dialogs, are views of
    documents of the store, taken now or earlier: the document of each one
    is in the store, its ledger starts with the ledger of the item, and
    its warehouse, name, location and creation time are those of the item.
    No two rows are of the same document, and the row updated last comes
    first.  When a reload settles on a page that has loaded its warehouse,
    the table lists the store: its rows are the views of the documents of
    the warehouse that are not archived, with their current quantities
    and ledgers. *)
Theorem table_shows_views_of_the_store (warehouseId : string)
    (warehouses : gmap string WarehouseDoc.t) (evs : list Event) :
  let sw := run evs (initialState warehouseId, initialWorld warehouses) in
  (∀ item,
     item ∈ items sw.1 ∨ itemForAdjustment sw.1 = Some item ∨ itemToArchive sw.1 = Some item →
     seen sw.2 item)
  ∧ latest_first (items sw.1)
  ∧ NoDup (Item.id <$> items sw.1)
  ∧ (is_Some (warehouse sw.1) →
     listing warehouseId (dispatch sw LoadSettled).2 (items (dispatch sw LoadSettled).1)
     ∧ same_but_toasts sw.2 (dispatch sw LoadSettled).2).
Proof.
  intros sw.
  pose proof (Page_run warehouses warehouseId evs) as HP.
  pose proof (seen_run warehouseId warehouses evs) as Hseen.
  simpl in HP, Hseen. fold sw in HP, Hseen.
  split; [|split; [|split]].
  - intros item Hin. rewrite Forall_forall in Hseen. by apply Hseen, elem_of_visible.
  - by destruct HP as [_ _ _ _ [? _]].
  - by destruct HP as [_ _ _ _ [_ ?]].
  - intros [wh Hwh]. destruct sw as [s w]. simpl in *.
    destruct (Page_settled _ _ _ _ _ HP Hwh) as (s' & w' & -> & Hsame & _ & _ & _ & Hl).
    done.
Qed.

(** X8.  On the page of a warehouse that is missing or archived, or of an empty
    id, no sequence of events creates an item, issues a write to the store,
    prints or archives a report: the page stays empty. *)
Theorem closed_page_writes_nothing (warehouseId : string)
    (warehouses : gmap string WarehouseDoc.t) (evs : list Event) :
  ¬ usable warehouses warehouseId →
  let sw := run evs (initialState warehouseId, initialWorld warehouses) in
  warehouse sw.1 = None
  ∧ items sw.1 = []
  ∧ World.items sw.2 = ∅
  ∧ World.writes sw.2 = []
  ∧ World.archivedReports sw.2 = []
  ∧ World.printed sw.2 = [].
Proof.
  intros Hnot sw. destruct (Page_run warehouses warehouseId evs) as [_ _ P3 P4 _].
  fold sw in P3, P4.
  assert (warehouse sw.1 = None) as Hnone.
  { destruct (warehouse sw.1) as [wh|]; [|done]. destruct (P3 _ eq_refl) as (Hu & _). done. }
  destruct (P4 Hnone) as (E0 & E1 & E2 & E3 & E4).
  apply visible_nil in E0 as (E0 & _). done.
Qed.

(** The name of the warehouse that the page holds, and the document of a
    row. *)
Lemma row_of_the_page (warehouseId : string) (warehouses : gmap string WarehouseDoc.t)
    (evs : list Event) (row : nat) (item : Item.t) :
  let sw := run evs (initialState warehouseId, initialWorld warehouses) in
  items sw.1 !! row = Some item →
  ∃ wh wd d,
    warehouse sw.1 = Some wh
    ∧ Warehouse.id wh = warehouseId
    ∧ warehouses !! warehouseId = Some wd
    ∧ Warehouse.name wh = WarehouseDoc.name wd
    ∧ World.items sw.2 !! Item.id item = Some d
    ∧ Item.history item `prefix_of` ItemDoc.history d
    ∧ Item.name item = ItemDoc.name d.
Proof.
  intros sw Hrow.
  pose proof (Page_run warehouses warehouseId evs) as HP.
  pose proof (seen_run warehouseId warehouses evs) as Hseen.
  simpl in HP, Hseen. fold sw in HP, Hseen.
  assert (item ∈ visible sw.1) as Hvis.
  { apply elem_of_visible. left. by eapply list_elem_of_lookup_2. }
  destruct (Page_open _ _ _ _ _ HP Hvis) as (wh & Hwh).
  destruct (page_warehouse _ _ _ _ HP _ Hwh) as (_ & Hwid & wd & Hwd & Hname).
  rewrite Forall_forall in Hseen.
  destruct (Hseen _ Hvis) as (d0 & d & Heq & Hd & Hpre & _ & Hn & _).
  exists wh, wd, d. repeat (split; [done|]).
  rewrite Heq. simpl. done.
Qed.

(** X9.  Printing the report of a row of the table, in any state that the
    page reaches and where the page has what printing needs (the element
    of the report is not in the document or [html2pdf] does not throw,
    and localStorage takes the report): the report is printed with the
    item of the row, and the report that is archived carries the name and
    the whole ledger of the row as its snapshot; the document of the item
    is in the store with that name, and its ledger starts with the ledger
    of the row.  The store is not written. *)
Theorem printed_report_snapshots_the_ledger (warehouseId : string)
    (warehouses : gmap string WarehouseDoc.t) (evs : list Event)
    (row : nat) (item : Item.t) (env : PrintEnv.t) (printDate now : Z) :
  let sw := run evs (initialState warehouseId, initialWorld warehouses) in
  let w' := (dispatch sw (ClickPrintReport row env printDate now)).2 in
  items sw.1 !! row = Some item →
  PrintEnv.element env && PrintEnv.html2pdfThrows env = false →
  PrintEnv.storageThrows env = false →
  ∃ d wd,
    World.items sw.2 !! Item.id item = Some d
    ∧ Item.history item `prefix_of` ItemDoc.history d
    ∧ Item.name item = ItemDoc.name d
    ∧ warehouses !! warehouseId = Some wd
    ∧ World.printed w' =
        World.printed sw.2 ++
        [PrintableItemReport (Some (WarehouseDoc.name wd)) item "Admin User" printDate]
    ∧ World.archivedReports w' =
        World.archivedReports sw.2 ++
        [ {| ArchivedReport.id := Item.id item +:+ "-" +:+ pretty now;
             ArchivedReport.reportType := Some ITEM;
             ArchivedReport.warehouseId := Some warehouseId;
             ArchivedReport.warehouseName := Some (WarehouseDoc.name wd);
             ArchivedReport.warehouseDescription := None;
             ArchivedReport.itemId := Some (Item.id item);
             ArchivedReport.itemName := Some (Item.name item);
             ArchivedReport.printedBy := "Admin User";
             ArchivedReport.printedAt := now;
             ArchivedReport.historySnapshot := Some (Item.history item);
             ArchivedReport.itemsSnapshot := None;
             ArchivedReport.transactionsSnapshot := None;
             ArchivedReport.reportTitleSnapshot := None |} ]
    ∧ World.toasts w' = World.toasts sw.2 ++ ["Report Archived"]
    ∧ World.items w' = World.items sw.2
    ∧ World.writes w' = World.writes sw.2.
Proof.
  intros sw w' Hrow Hpdf Hstore. subst w'.
  destruct (row_of_the_page warehouseId warehouses evs row item Hrow)
    as (wh & wd & d & Hwh & Hwid & Hwd & Hname & Hd & Hpre & Hn).
  fold sw in Hwh, Hd. exists d, wd. repeat (split; [done|]).
  destruct sw as [s w]. simpl in *.
  unfold dispatch. simpl. rewrite Hrow. unfold handlePrintReport. rewrite Hwh, Hpdf, Hstore.
  eff_unfold. simpl. by rewrite Hwid, Hname.
Qed.

(** X26.  Printing the report of a row where the page lacks what printing
    needs.  Where the element of the report is in the document and
    [html2pdf] throws, as it does where the page has no such global, the
    report is rendered and nothing else happens: no report is archived and
    no toast is shown.  Where localStorage throws, the report is rendered,
    no report is archived and the toast "Archiving Error" is shown.  In
    both, the store is not written. *)
Theorem print_without_its_environment (warehouseId : string)
    (warehouses : gmap string WarehouseDoc.t) (evs : list Event)
    (row : nat) (item : Item.t) (env : PrintEnv.t) (printDate now : Z) :
  let sw := run evs (initialState warehouseId, initialWorld warehouses) in
  let w' := (dispatch sw (ClickPrintReport row env printDate now)).2 in
  items sw.1 !! row = Some item →
  PrintEnv.element env && PrintEnv.html2pdfThrows env = true
  ∨ PrintEnv.storageThrows env = true →
  (∃ wd,
     warehouses !! warehouseId = Some wd
     ∧ World.printed w' =
         World.printed sw.2 ++
         [PrintableItemReport (Some (WarehouseDoc.name wd)) item "Admin User" printDate])
  ∧ World.archivedReports w' = World.archivedReports sw.2
  ∧ World.toasts w' =
      World.toasts sw.2 ++
      (if PrintEnv.element env && PrintEnv.html2pdfThrows env then [] else ["Archiving Error"])
  ∧ World.items w' = World.items sw.2
  ∧ World.writes w' = World.writes sw.2.
Proof.
  intros sw w' Hrow Henv. subst w'.
  destruct (row_of_the_page warehouseId warehouses evs row item Hrow)
    as (wh & wd & d & Hwh & Hwid & Hwd & Hname & _).
  fold sw in Hwh. destruct sw as [s w]. simpl in *.
  unfold dispatch. simpl. rewrite Hrow. unfold handlePrintReport. rewrite Hwh.
  eff_unfold. simpl.
  destruct (PrintEnv.element env && PrintEnv.html2pdfThrows env) eqn:Hpdf; simpl.
  - split; [exists wd; by rewrite Hname|]. by rewrite app_nil_r.
  - destruct Henv as [?|Hstore]; [done|]. rewrite Hstore. simpl.
    split; [exists wd; by rewrite Hname|]. done.
Qed.

Lemma page_names (warehouseId : string) (warehouses : gmap string WarehouseDoc.t)
    (evs : list Event) :
  Forall (λ item, Js.truthy (Item.name item) = true)
    (visible (run evs (initialState warehouseId, initialWorld warehouses)).1).
Proof.
  apply (documents_invariant warehouseId (λ d, Js.truthy (ItemDoc.name d) = true)
           (λ item, Js.truthy (Item.name item) = true)).
  - done.
  - intros now dateNow serverTime data Hschema. simpl.
    apply andb_true_iff in Hschema as [Hlen%bool_decide_eq_true _].
    destruct (ItemFormValues.name data); [simpl in Hlen; lia|done].
  - intros. done.
  - intros. done.
Qed.

(** X10.  A report of an item that the page has archived, where the page
    has what printing needs, can be printed again from the archive: the
    reports page renders it with the name of the warehouse, the name of
    the item and the ledger that were printed, under the date at which it
    was archived, and shows no error. *)
Theorem archived_item_report_prints_again (warehouseId : string)
    (warehouses : gmap string WarehouseDoc.t) (evs : list Event)
    (row : nat) (item : Item.t) (env : PrintEnv.t) (printDate now later : Z) :
  let sw := run evs (initialState warehouseId, initialWorld warehouses) in
  let w' := (dispatch sw (ClickPrintReport row env printDate now)).2 in
  items sw.1 !! row = Some item →
  PrintEnv.element env && PrintEnv.html2pdfThrows env = false →
  PrintEnv.storageThrows env = false →
  Js.truthy (Item.id item) = true →
  ∃ report wd again,
    last (World.archivedReports w') = Some report
    ∧ warehouses !! warehouseId = Some wd
    ∧ World.printed (ReportsPage.handlePrintArchivedReport later report w').2
      = World.printed w' ++
        [PrintableItemReport (Some (WarehouseDoc.name wd)) again "Admin User" now]
    ∧ Item.id again = Item.id item
    ∧ Item.name again = Item.name item
    ∧ Item.history again = Item.history item
    ∧ World.toasts (ReportsPage.handlePrintArchivedReport later report w').2
      = World.toasts w'.
Proof.
  intros sw w' Hrow Hpdf Hstore Hid. subst w'.
  destruct (row_of_the_page warehouseId warehouses evs row item Hrow)
    as (wh & wd & d & Hwh & Hwid & Hwd & Hwname & _).
  pose proof (page_names warehouseId warehouses evs) as Hnames.
  fold sw in Hwh, Hnames. rewrite Forall_forall in Hnames.
  assert (Js.truthy (Item.name item) = true) as Hname.
  { apply Hnames, elem_of_visible. left. by eapply list_elem_of_lookup_2. }
  destruct sw as [s w]. simpl in *.
  unfold dispatch. simpl. rewrite Hrow. unfold handlePrintReport. rewrite Hwh, Hpdf, Hstore.
  eff_unfold. simpl. unfold Js.push.
  eexists _, wd, _. split; [by rewrite last_snoc|]. split; [done|].
  unfold ReportsPage.handlePrintArchivedReport, ReportsPage.reprint. simpl.
  rewrite Hid, Hname. simpl. eff_unfold. simpl. rewrite Hwname.
  split; [done|]. done.
Qed.

(** A write of a handler and the reload that it has started, settled
    before anything else happens: the table lists the store. *)
Lemma written_then_settled warehouses warehouseId serverTime call title s w s1 w1 wh :
  Page warehouses warehouseId s w →
  warehouse s = Some wh →
  Page warehouses warehouseId s1 w1 →
  warehouse s1 = Some wh →
  written serverTime warehouseId call title w w1 →
  ∃ s2 w2,
    dispatch (s1, w1) LoadSettled = (s2, w2)
    ∧ same_dialogs s1 s2
    ∧ World.items w2 = World.items w1
    ∧ listing warehouseId w2 (items s2)
    ∧ World.toasts w2 = World.toasts w ++ [title]
    ∧ ∃ wd, World.warehouses w !! warehouseId = Some wd
            ∧ World.warehouses w2 !! warehouseId = Some (touched serverTime wd).
Proof.
  intros HP Hwh HP1 Hwh1 (_ & Ht & _ & _ & _ & Hstamp).
  destruct (Page_settled _ _ _ _ _ HP1 Hwh1)
    as (s2 & w2 & Heq & (Hi & Hw & _) & Ht2 & Hdlg & _ & Hl).
  exists s2, w2. repeat (split; [done || congruence|]).
  destruct (page_warehouse _ _ _ _ HP _ Hwh) as ((_ & wd & Hwd & _) & _).
  destruct (same_but_updatedAt_lookup _ _ _ _ (page_warehouses _ _ _ _ HP) Hwd)
    as (wd1 & Hwd1 & _).
  exists wd1. split; [done|]. rewrite Hw. by apply Hstamp.
Qed.

(** X11.  A stock adjustment that passes the guard, on an item that is not
    archived, in any state that the page reaches, and the reload that it
    has started, settled before anything else happens: the dialog is
    closed and its error cleared, the table lists the store and shows the
    item with its new quantity, the double nearest to the sum of the
    quantity of the dialog and the change; the toast "Stock Updated" is
    shown and the warehouse document carries the time of the write. *)
Theorem adjustment_refreshes_the_page (warehouseId : string)
    (warehouses : gmap string WarehouseDoc.t) (evs : list Event)
    (data : StockAdjustmentFormValues.t) (now dateNow serverTime : Z)
    (item : Item.t) (type : AdjustmentType) (d : ItemDoc.t) :
  let sw := run evs (initialState warehouseId, initialWorld warehouses) in
  let sw' :=
    dispatch (dispatch sw (SubmitStockAdjustmentForm data now dateNow serverTime))
      LoadSettled in
  isStockAdjustmentDialogOpen sw.1 = true →
  itemForAdjustment sw.1 = Some item →
  adjustmentType sw.1 = Some type →
  stockAdjustmentFormSchema data = true →
  ¬ (type = adj_CONSUME_STOCK
     ∧ Item.quantity item < StockAdjustmentFormValues.adjustmentQuantity data) →
  World.items sw.2 !! Item.id item = Some d →
  ItemDoc.isArchived d = false →
  isStockAdjustmentDialogOpen sw'.1 = false
  ∧ adjustmentQuantityError sw'.1 = None
  ∧ listing warehouseId sw'.2 (items sw'.1)
  ∧ (∃ item', item' ∈ items sw'.1
              ∧ Item.id item' = Item.id item
              ∧ Item.quantity item' = Js.add (Item.quantity item) (quantityChange type data)
              ∧ Item.updatedAt item' = serverTime)
  ∧ World.toasts sw'.2 = World.toasts sw.2 ++ ["Stock Updated"]
  ∧ (∃ wd, World.warehouses sw.2 !! warehouseId = Some wd
           ∧ World.warehouses sw'.2 !! warehouseId = Some (touched serverTime wd)).
Proof.
  intros sw sw' Hopen Hitem Htype Hschema Hok Hd Harch. subst sw'.
  pose proof (Page_run warehouses warehouseId evs) as HP.
  pose proof (Page_run warehouses warehouseId
                (evs ++ [SubmitStockAdjustmentForm data now dateNow serverTime])) as HP1.
  pose proof (page_documents warehouseId warehouses evs) as Hdocs.
  simpl in HP, HP1. rewrite run_snoc in HP1.
  fold sw in HP, HP1, Hdocs. destruct sw as [s w]. simpl in *.
  assert (item ∈ visible s) as Hvis by (apply elem_of_visible; auto).
  destruct (Page_open _ _ _ _ _ HP Hvis) as (wh & Hwh).
  pose proof (page_id _ _ _ _ HP) as Hwid.
  assert (dispatch (s, w) (SubmitStockAdjustmentForm data now dateNow serverTime)
          = (setAdjustmentQuantityError None (setIsStockAdjustmentDialogOpen false s),
             (handle (SubmitStockAdjustmentForm data now dateNow serverTime) s w).2)
          ∧ World.items
              (handle (SubmitStockAdjustmentForm data now dateNow serverTime) s w).2
            = <[Item.id item :=
                  Firestore.applyItemFields serverTime
                    (stockUpdate now dateNow type item data) d]> (World.items w)
          ∧ written serverTime warehouseId
              (updateDoc_item (Item.id item) (stockUpdate now dateNow type item data))
              "Stock Updated" w
              (handle (SubmitStockAdjustmentForm data now dateNow serverTime) s w).2)
    as (Hdisp & Hi & Hwr).
  { unfold dispatch. simpl. rewrite Hopen, Hschema. simpl.
    destruct (onStockAdjustmentSubmit_outcome now dateNow serverTime data s w)
      as (s2 & w2 & -> & Hout). simpl.
    destruct Hout as [Hnothing _ _|item' Hitem' Hty' Hlt _ _|item' type' Hitem' _ _ Hnone _ _
                      |item' type' d' Hitem' Hty' _ _ Hd' -> Hi Hwr].
    - pose proof (Page_truthy _ _ _ _ _ HP Hwh).
      destruct Hnothing as [?|[?|?]]; congruence.
    - exfalso. apply Hok. assert (item' = item) as -> by congruence.
      split; [congruence|done].
    - assert (item' = item) as -> by congruence. congruence.
    - assert (item' = item) as -> by congruence.
      assert (type' = type) as -> by congruence.
      assert (d' = d) as -> by congruence.
      rewrite Hwid in Hwr. done. }
  rewrite Hdisp in HP1 |- *. cbn [fst snd] in HP1.
  set (w1 := (handle (SubmitStockAdjustmentForm data now dateNow serverTime) s w).2) in *.
  destruct (written_then_settled warehouses warehouseId serverTime _ _ s w _ w1 wh
              HP Hwh HP1 Hwh Hwr)
    as (s2 & w2 & Heq & (_ & _ & D3 & _ & _ & D6 & _) & Hi2 & Hl & Ht & Hstamp).
  rewrite Heq. cbn [fst snd]. split; [by rewrite D3|]. split; [by rewrite D6|]. split; [done|].
  split; [|done].
  destruct (Hdocs _ _ Hd) as (Hw & _).
  exists (ItemDoc.toItem (Item.id item)
            (Firestore.applyItemFields serverTime (stockUpdate now dateNow type item data) d)).
  split; [|by rewrite applyItemFields_stockUpdate].
  apply Hl. eexists. simpl. rewrite Hi2, Hi, lookup_insert_eq. split; [done|].
  by rewrite applyItemFields_stockUpdate.
Qed.

(** X12.  The creation of an item under a fresh id, in any state of the page in
    which its warehouse is loaded and the dialog is open, and the reload
    that it has started, settled before anything else happens: the dialog
    is closed, the table shows the new item, the toast "Item Added" is
    shown and the warehouse document carries the time of the write. *)
Theorem created_item_is_listed (warehouseId : string)
    (warehouses : gmap string WarehouseDoc.t) (evs : list Event)
    (data : ItemFormValues.t) (now dateNow serverTime : Z) (autoId : string) :
  let sw := run evs (initialState warehouseId, initialWorld warehouses) in
  let sw' := dispatch (dispatch sw (SubmitItemForm data now dateNow serverTime autoId))
               LoadSettled in
  isAddItemDialogOpen sw.1 = true →
  is_Some (warehouse sw.1) →
  itemFormSchema data = true →
  World.items sw.2 !! autoId = None →
  isAddItemDialogOpen sw'.1 = false
  ∧ ItemDoc.toItem autoId (newItemData now dateNow serverTime warehouseId data) ∈ items sw'.1
  ∧ World.toasts sw'.2 = World.toasts sw.2 ++ ["Item Added"]
  ∧ (∃ wd, World.warehouses sw.2 !! warehouseId = Some wd
           ∧ World.warehouses sw'.2 !! warehouseId = Some (touched serverTime wd)).
Proof.
  intros sw sw' Hopen [wh Hwh] Hschema Hnone. subst sw'.
  pose proof (Page_run warehouses warehouseId evs) as HP.
  pose proof (Page_run warehouses warehouseId
                (evs ++ [SubmitItemForm data now dateNow serverTime autoId])) as HP1.
  simpl in HP, HP1. rewrite run_snoc in HP1.
  fold sw in HP, HP1. destruct sw as [s w]. simpl in *.
  pose proof (page_id _ _ _ _ HP) as Hwid.
  pose proof (Page_truthy _ _ _ _ _ HP Hwh) as Hid.
  assert (dispatch (s, w) (SubmitItemForm data now dateNow serverTime autoId)
          = (setIsAddItemDialogOpen false s,
             (handle (SubmitItemForm data now dateNow serverTime autoId) s w).2)
          ∧ World.items (handle (SubmitItemForm data now dateNow serverTime autoId) s w).2
            = <[autoId := newItemData now dateNow serverTime warehouseId data]> (World.items w)
          ∧ written serverTime warehouseId
              (addDoc_item autoId (newItemData now dateNow serverTime warehouseId data))
              "Item Added" w
              (handle (SubmitItemForm data now dateNow serverTime autoId) s w).2)
    as (Hdisp & Hi & Hwr).
  { unfold dispatch. simpl. rewrite Hopen, Hschema. simpl.
    destruct (onAddItemSubmit_outcome now dateNow serverTime autoId data s w)
      as (s2 & w2 & -> & Hout). simpl.
    destruct Hout as [[?|?] _ _|d0 _ Hd0 _ _|_ _ _ -> Hi Hwr]; [congruence..|].
    rewrite Hwid in Hi, Hwr. done. }
  rewrite Hdisp in HP1 |- *. cbn [fst snd] in HP1.
  set (w1 := (handle (SubmitItemForm data now dateNow serverTime autoId) s w).2) in *.
  destruct (written_then_settled warehouses warehouseId serverTime _ _ s w _ w1 wh
              HP Hwh HP1 Hwh Hwr)
    as (s2 & w2 & Heq & (_ & D2 & _) & Hi2 & Hl & Ht & Hstamp).
  rewrite Heq. cbn [fst snd]. split; [by rewrite D2|]. split; [|done].
  apply Hl. eexists. simpl. rewrite Hi2, Hi, lookup_insert_eq. done.
Qed.

End PageTable.

Section PageTableWitnesses.
Import WarehouseDetailPage.

Lemma page_load_lists_the_warehouse_witness :
  Js.truthy "w1" = true
  ∧ ∃ s' w',
      loadWarehouseAndItems "w1" (initialState "w1") ArchiveScenario.world = (Ok s', w')
      ∧ items s' = [ItemDoc.toItem "i1" ArchiveScenario.bolt].
Proof.
  assert (Js.truthy "w1" = true) as H1 by (vm_compute; reflexivity).
  split; [exact H1|].
  destruct (page_load_lists_the_warehouse "w1" (initialState "w1") ArchiveScenario.world H1)
    as (s' & w' & Heq & _).
  exists s', w'. split; [exact Heq|].
  assert (loadWarehouseAndItems "w1" (initialState "w1") ArchiveScenario.world
          = (Ok (setItems [ItemDoc.toItem "i1" ArchiveScenario.bolt]
                   (setWarehouse
                      (Some (Warehouse.mk "w1" "Main" (Some "") false 0 0 "placeholder-owner-id"))
                      (initialState "w1"))),
             ArchiveScenario.world)) as Hrun by (vm_compute; reflexivity).
  rewrite Hrun in Heq. injection Heq as <- _. reflexivity.
Defined.

Lemma table_shows_views_of_the_store_witness :
  is_Some (warehouse (run Scenario.beforeReload Scenario.start).1)
  ∧ Item.quantity <$> items (run Scenario.beforeReload Scenario.start).1 = [10]
  ∧ Item.quantity
      <$> items (dispatch (run Scenario.beforeReload Scenario.start) LoadSettled).1 = [7]
  ∧ listing "w1" (dispatch (run Scenario.beforeReload Scenario.start) LoadSettled).2
      (items (dispatch (run Scenario.beforeReload Scenario.start) LoadSettled).1).
Proof.
  assert (is_Some (warehouse (run Scenario.beforeReload Scenario.start).1)) as H1
    by (vm_compute; eexists; reflexivity).
  split; [exact H1|]. split; [by vm_compute|]. split; [by vm_compute|].
  destruct (table_shows_views_of_the_store "w1" Scenario.warehouses Scenario.beforeReload)
    as (_ & _ & _ & Hsettled).
  exact (proj1 (Hsettled H1)).
Defined.

Lemma closed_page_writes_nothing_witness :
  ¬ usable Scenario.warehouses "w9"
  ∧ warehouse (run Scenario.adjusted (initialState "w9", initialWorld Scenario.warehouses)).1
    = None
  ∧ World.writes (run Scenario.adjusted (initialState "w9", initialWorld Scenario.warehouses)).2
    = [].
Proof.
  assert (¬ usable Scenario.warehouses "w9") as H1.
  { intros (_ & wd & Hwd & _). vm_compute in Hwd. discriminate. }
  split; [exact H1|].
  destruct (closed_page_writes_nothing "w9" Scenario.warehouses Scenario.adjusted H1)
    as (H2 & _ & _ & H3 & _).
  exact (conj H2 H3).
Defined.

Lemma printed_report_snapshots_the_ledger_witness :
  items (run Scenario.beforeReload Scenario.start).1 !! 0%nat = Some Scenario.bolt
  ∧ PrintEnv.element Scenario.printing && PrintEnv.html2pdfThrows Scenario.printing = false
  ∧ PrintEnv.storageThrows Scenario.printing = false
  ∧ ∃ d,
      World.items (run Scenario.beforeReload Scenario.start).2 !! "i1" = Some d
      ∧ [Scenario.entryCreate] `prefix_of` ItemDoc.history d
      ∧ ArchivedReport.historySnapshot
          <$> World.archivedReports
                (dispatch (run Scenario.beforeReload Scenario.start)
                   (ClickPrintReport 0 Scenario.printing 5000 5001)).2
        = [Some [Scenario.entryCreate]].
Proof.
  assert (items (run Scenario.beforeReload Scenario.start).1 !! 0%nat = Some Scenario.bolt)
    as H1 by (vm_compute; reflexivity).
  assert (PrintEnv.element Scenario.printing && PrintEnv.html2pdfThrows Scenario.printing
          = false) as H2 by reflexivity.
  assert (PrintEnv.storageThrows Scenario.printing = false) as H3 by reflexivity.
  split; [exact H1|]. split; [exact H2|]. split; [exact H3|].
  destruct (printed_report_snapshots_the_ledger "w1" Scenario.warehouses Scenario.beforeReload
              0 Scenario.bolt Scenario.printing 5000 5001 H1 H2 H3)
    as (d & wd & Hd & Hpre & _ & _ & _ & Ha & _).
  exists d. split; [exact Hd|]. split; [exact Hpre|].
  unfold Scenario.start. rewrite Ha.
  assert (World.archivedReports
            (run Scenario.beforeReload (initialState "w1", initialWorld Scenario.warehouses)).2
          = []) as -> by (vm_compute; reflexivity).
  reflexivity.
Defined.

Lemma print_without_its_environment_witness :
  let env := PrintEnv.mk true true false in
  let sw := run Scenario.created Scenario.start in
  items sw.1 !! 0%nat = Some Scenario.bolt
  ∧ (PrintEnv.element env && PrintEnv.html2pdfThrows env = true
     ∨ PrintEnv.storageThrows env = true)
  ∧ World.archivedReports (dispatch sw (ClickPrintReport 0 env 5000 5001)).2
    = World.archivedReports sw.2
  ∧ World.toasts (dispatch sw (ClickPrintReport 0 env 5000 5001)).2 = World.toasts sw.2 ++ [].
Proof.
  intros env sw.
  assert (items sw.1 !! 0%nat = Some Scenario.bolt) as H1 by (vm_compute; reflexivity).
  assert (PrintEnv.element env && PrintEnv.html2pdfThrows env = true
          ∨ PrintEnv.storageThrows env = true) as H2 by (left; reflexivity).
  split; [exact H1|]. split; [exact H2|].
  destruct (print_without_its_environment "w1" Scenario.warehouses Scenario.created
              0 Scenario.bolt env 5000 5001 H1 H2) as (_ & Ha & Ht & _).
  exact (conj Ha Ht).
Defined.

Lemma archived_item_report_prints_again_witness :
  let printed :=
    (dispatch (run Scenario.created Scenario.start)
       (ClickPrintReport 0 Scenario.printing 5000 5001)).2 in
  items (run Scenario.created Scenario.start).1 !! 0%nat = Some Scenario.bolt
  ∧ PrintEnv.element Scenario.printing && PrintEnv.html2pdfThrows Scenario.printing = false
  ∧ PrintEnv.storageThrows Scenario.printing = false
  ∧ Js.truthy (Item.id Scenario.bolt) = true
  ∧ ∃ report wd again,
      last (World.archivedReports printed) = Some report
      ∧ Scenario.warehouses !! "w1" = Some wd
      ∧ World.printed (ReportsPage.handlePrintArchivedReport 9000 report printed).2
        = World.printed printed ++
          [PrintableItemReport (Some (WarehouseDoc.name wd)) again "Admin User" 5001]
      ∧ Item.id again = "i1"
      ∧ Item.name again = "Bolt"
      ∧ Item.history again = [Scenario.entryCreate]
      ∧ World.toasts (ReportsPage.handlePrintArchivedReport 9000 report printed).2
        = World.toasts printed.
Proof.
  intros printed.
  assert (items (run Scenario.created Scenario.start).1 !! 0%nat = Some Scenario.bolt) as H1
    by (vm_compute; reflexivity).
  assert (PrintEnv.element Scenario.printing && PrintEnv.html2pdfThrows Scenario.printing
          = false) as H2 by reflexivity.
  assert (PrintEnv.storageThrows Scenario.printing = false) as H3 by reflexivity.
  assert (Js.truthy (Item.id Scenario.bolt) = true) as H4 by (vm_compute; reflexivity).
  split; [exact H1|]. split; [exact H2|]. split; [exact H3|]. split; [exact H4|].
  exact (archived_item_report_prints_again "w1" Scenario.warehouses Scenario.created
           0 Scenario.bolt Scenario.printing 5000 5001 9000 H1 H2 H3 H4).
Defined.

Lemma adjustment_refreshes_the_page_witness :
  let sw := run Scenario.created Scenario.start in
  let sw' := dispatch (dispatch sw Scenario.add5) LoadSettled in
  isStockAdjustmentDialogOpen sw.1 = true
  ∧ itemForAdjustment sw.1 = Some Scenario.bolt
  ∧ adjustmentType sw.1 = Some adj_ADD_STOCK
  ∧ stockAdjustmentFormSchema (StockAdjustmentFormValues.mk 5 None) = true
  ∧ ¬ (adj_ADD_STOCK = adj_CONSUME_STOCK ∧ Item.quantity Scenario.bolt < 5)
  ∧ World.items sw.2 !! "i1"
    = Some (ItemDoc.mk "w1" "Bolt" 10 "" 1002 1002 [Scenario.entryCreate] false)
  ∧ isStockAdjustmentDialogOpen sw'.1 = false
  ∧ ∃ item', item' ∈ items sw'.1
             ∧ Item.id item' = "i1"
             ∧ Item.quantity item' = 15
             ∧ Item.updatedAt item' = 2002.
Proof.
  intros sw sw'.
  assert (isStockAdjustmentDialogOpen sw.1 = true) as H1 by (vm_compute; reflexivity).
  assert (itemForAdjustment sw.1 = Some Scenario.bolt) as H2 by (vm_compute; reflexivity).
  assert (adjustmentType sw.1 = Some adj_ADD_STOCK) as H3 by (vm_compute; reflexivity).
  assert (stockAdjustmentFormSchema (StockAdjustmentFormValues.mk 5 None) = true) as H4
    by (vm_compute; reflexivity).
  assert (¬ (adj_ADD_STOCK = adj_CONSUME_STOCK ∧ Item.quantity Scenario.bolt < 5)) as H5
    by (intros [? _]; discriminate).
  assert (World.items sw.2 !! "i1"
          = Some (ItemDoc.mk "w1" "Bolt" 10 "" 1002 1002 [Scenario.entryCreate] false)) as H6
    by (vm_compute; reflexivity).
  repeat (split; [assumption|]).
  destruct (adjustment_refreshes_the_page "w1" Scenario.warehouses Scenario.created
              (StockAdjustmentFormValues.mk 5 None) 2000 2001 2002 Scenario.bolt
              adj_ADD_STOCK _ H1 H2 H3 H4 H5 H6 eq_refl)
    as (Hc & _ & _ & Hrow & _).
  exact (conj Hc Hrow).
Defined.

Lemma created_item_is_listed_witness :
  isAddItemDialogOpen (run [Mounted; ClickAddItem] Scenario.start).1 = true
  ∧ is_Some (warehouse (run [Mounted; ClickAddItem] Scenario.start).1)
  ∧ itemFormSchema (ItemFormValues.mk "Bolt" 10 None) = true
  ∧ World.items (run [Mounted; ClickAddItem] Scenario.start).2 !! "i1" = None
  ∧ Scenario.bolt
    ∈ items (dispatch (dispatch (run [Mounted; ClickAddItem] Scenario.start)
                         Scenario.createBolt) LoadSettled).1.
Proof.
  assert (isAddItemDialogOpen (run [Mounted; ClickAddItem] Scenario.start).1 = true) as H1
    by (vm_compute; reflexivity).
  assert (is_Some (warehouse (run [Mounted; ClickAddItem] Scenario.start).1)) as H2
    by (vm_compute; eexists; reflexivity).
  assert (itemFormSchema (ItemFormValues.mk "Bolt" 10 None) = true) as H3
    by (vm_compute; reflexivity).
  assert (World.items (run [Mounted; ClickAddItem] Scenario.start).2 !! "i1" = None) as H4
    by (vm_compute; reflexivity).
  repeat (split; [assumption|]).
  exact (proj1 (proj2 (created_item_is_listed "w1" Scenario.warehouses [Mounted; ClickAddItem]
                         (ItemFormValues.mk "Bolt" 10 None) 1000 1001 1002 "i1"
                         H1 H2 H3 H4))).
Defined.

End PageTableWitnesses.

(** ** The printable report of an item *)

Section ItemReportTotals.
Import WarehouseDetailPage.

Lemma page_ledgers_signed (warehouseId : string) (warehouses : gmap string WarehouseDoc.t)
    (evs : list Event) :
  let sw := run evs (initialState warehouseId, initialWorld warehouses) in
  documents (λ d, Forall signed (ItemDoc.history d)) sw.2
  ∧ Forall (λ item, Forall signed (Item.history item)) (visible sw.1).
Proof.
  apply (documents_invariant warehouseId (λ d, Forall signed (ItemDoc.history d))
           (λ item, Forall signed (Item.history item))).
  - done.
  - intros now dateNow serverTime data Hschema. simpl. apply Forall_singleton.
    unfold signed. simpl. unfold itemFormSchema in Hschema.
    apply andb_true_iff in Hschema as [_ Hq%bool_decide_eq_true]. done.
  - intros now dateNow serverTime type item data d ledger Hd _ Hschema _ [-> | ->]; simpl.
    + done.
    + apply Forall_app. split; [done|]. apply Forall_singleton.
      unfold stockAdjustmentFormSchema in Hschema. apply bool_decide_eq_true in Hschema.
      unfold signed. destruct type; simpl; lia.
  - intros. done.
Qed.

Lemma foldl_volume (v : Z) (ledger : list HistoryEntry.t) :
  foldl (λ total e, total + Z.abs (HistoryEntry.change e)) v ledger = v + volume ledger.
Proof.
  unfold volume. revert v. induction ledger as [|e l IH] using rev_ind; intros v.
  - simpl. lia.
  - rewrite !foldl_snoc, IH. lia.
Qed.

Lemma volume_cons e ledger :
  volume (e :: ledger) = Z.abs (HistoryEntry.change e) + volume ledger.
Proof. unfold volume at 1. simpl. by rewrite foldl_volume. Qed.

Lemma volume_nonneg ledger : 0 ≤ volume ledger.
Proof.
  induction ledger as [|e l IH]; [done|]. rewrite volume_cons. lia.
Qed.

(** The loop of the report over a ledger whose changes have the signs of
    the engine and whose volume the totals can take: the two totals grow,
    and their difference grows by the sum of the changes. *)
Lemma totals_signed (ledger : list HistoryEntry.t) (acc : Z * Z) :
  Forall signed ledger →
  0 ≤ acc.1 → 0 ≤ acc.2 →
  acc.1 + acc.2 + volume ledger ≤ maxSafe →
  let r :=
    Js.forEach ledger
      (λ acc entry,
         let type := HistoryEntry.type entry in
         let change := HistoryEntry.change entry in
         if bool_decide (type = ADD_STOCK)
            || (bool_decide (type = CREATE_ITEM) && bool_decide (0 < change))
            || (bool_decide (type = ADJUST_STOCK) && bool_decide (0 < change))
         then (Js.add acc.1 change, acc.2)
         else if bool_decide (type = CONSUME_STOCK)
                 || (bool_decide (type = ADJUST_STOCK) && bool_decide (change < 0))
         then (acc.1, Js.add acc.2 (Z.abs change))
         else acc)
      acc in
  r.1 - r.2 = acc.1 - acc.2 + replay ledger ∧ acc.1 ≤ r.1 ∧ acc.2 ≤ r.2.
Proof.
  intros Hsigned. revert acc. induction Hsigned as [|e ledger He _ IH]; intros acc H1 H2 Hvol.
  - simpl. unfold replay. simpl. lia.
  - unfold Js.forEach in *. rewrite replay_cons. cbn [foldl]. cbv zeta in IH.
    rewrite volume_cons in Hvol. pose proof (volume_nonneg ledger) as Hv.
    unfold signed in He.
    destruct (HistoryEntry.type e) eqn:Hty; try done; simpl in *.
    + destruct (bool_decide (0 < HistoryEntry.change e)) eqn:Hpos; simpl in *.
      * apply bool_decide_eq_true in Hpos.
        rewrite (add_exact acc.1 (HistoryEntry.change e)) by (unfold maxSafe in *; lia).
        match goal with
        | |- context [foldl ?f ?a ledger] =>
            specialize (IH a); simpl in IH; destruct IH as (IH1 & IH2 & IH3); [lia..|]
        end.
        lia.
      * apply bool_decide_eq_false in Hpos.
        match goal with
        | |- context [foldl ?f ?a ledger] =>
            specialize (IH a); simpl in IH; destruct IH as (IH1 & IH2 & IH3); [lia..|]
        end.
        lia.
    + rewrite (add_exact acc.1 (HistoryEntry.change e)) by (unfold maxSafe in *; lia).
      match goal with
      | |- context [foldl ?f ?a ledger] =>
          specialize (IH a); simpl in IH; destruct IH as (IH1 & IH2 & IH3); [lia..|]
      end.
      lia.
    + rewrite (add_exact acc.2 (Z.abs (HistoryEntry.change e)))
        by (unfold maxSafe in *; lia).
      match goal with
      | |- context [foldl ?f ?a ledger] =>
          specialize (IH a); simpl in IH; destruct IH as (IH1 & IH2 & IH3); [lia..|]
      end.
      lia.
Qed.

(** X13.  The report of a row of the table, in a state reached by exact
    adjustments with distinct [Date.now()] readings (each made from a
    dialog that holds the stored quantity, with a sum of a magnitude of
    2^53 at most), for a ledger whose volume, the sum of the magnitudes of
    its changes, is 2^53 at most: the totals that the report shows are not
    negative and account for the quantity that it shows (total added minus
    total consumed), and its table holds the entries of the ledger, the
    most recent first. *)
Theorem report_totals_account_for_quantity (warehouseId : string)
    (warehouses : gmap string WarehouseDoc.t) (evs : list Event) (item : Item.t) :
  NoDup (adjustmentClock evs) →
  every_step exact evs (initialState warehouseId, initialWorld warehouses) = true →
  item ∈ items (run evs (initialState warehouseId, initialWorld warehouses)).1 →
  volume (Item.history item) ≤ maxSafe →
  ItemReport.totalAdded item - ItemReport.totalConsumed item = Item.quantity item
  ∧ 0 ≤ ItemReport.totalAdded item
  ∧ 0 ≤ ItemReport.totalConsumed item
  ∧ (ItemReport.sortedHistory item ≡ₚ Item.history item)
  ∧ StronglySorted (λ a b, HistoryEntry.timestamp b ≤ HistoryEntry.timestamp a)
      (ItemReport.sortedHistory item).
Proof.
  intros Hclock Hexact Hin Hvol.
  assert (item ∈ visible (run evs (initialState warehouseId, initialWorld warehouses)).1)
    as Hvis by (apply elem_of_visible; auto).
  pose proof (views_of_earlier_documents warehouseId warehouses evs) as Hviews.
  rewrite Forall_forall in Hviews. destruct (Hviews _ Hvis) as (pre & d0 & Hpre & Hd0 & Heq).
  pose proof (reconciled_run warehouseId warehouses pre
                (NoDup_adjustmentClock_prefix _ _ Hpre Hclock)
                (every_step_prefix _ _ _ _ Hpre Hexact) _ _ Hd0) as Hq.
  unfold reconciled in Hq.
  destruct (page_ledgers_signed warehouseId warehouses evs) as [_ Hsigned].
  rewrite Forall_forall in Hsigned. specialize (Hsigned _ Hvis).
  destruct (totals_signed (Item.history item) (0, 0) Hsigned) as (H1 & H2 & H3);
    [done|done|simpl; lia|].
  unfold ItemReport.totalAdded, ItemReport.totalConsumed, ItemReport.totals,
    ItemReport.sortedHistory.
  simpl in *. split; [rewrite H1, Heq; simpl; lia|]. split; [done|]. split; [done|].
  split; [apply sort_Permutation|].
  eapply StronglySorted_weaken; [|apply sort_StronglySorted].
  - intros a b. unfold before. lia.
  - intros a b. unfold before. lia.
  - intros a b c. unfold before. lia.
Qed.

End ItemReportTotals.

Lemma report_totals_account_for_quantity_witness :
  let settled := Scenario.adjusted ++ [WarehouseDetailPage.LoadSettled] in
  NoDup (WarehouseDetailPage.adjustmentClock settled)
  ∧ every_step exact settled Scenario.start = true
  ∧ ItemDoc.toItem "i1" Scenario.boltDoc
    ∈ WarehouseDetailPage.items (WarehouseDetailPage.run settled Scenario.start).1
  ∧ volume (Item.history (ItemDoc.toItem "i1" Scenario.boltDoc)) ≤ maxSafe
  ∧ ItemReport.totalAdded (ItemDoc.toItem "i1" Scenario.boltDoc)
    - ItemReport.totalConsumed (ItemDoc.toItem "i1" Scenario.boltDoc) = 12.
Proof.
  intros settled.
  assert (NoDup (WarehouseDetailPage.adjustmentClock settled)) as H1
    by (apply (bool_decide_unpack (NoDup _)); vm_compute; exact I).
  assert (every_step exact settled Scenario.start = true) as H0
    by (vm_compute; reflexivity).
  assert (ItemDoc.toItem "i1" Scenario.boltDoc
          ∈ WarehouseDetailPage.items
              (WarehouseDetailPage.run settled Scenario.start).1) as H2
    by (vm_compute; left).
  assert (volume (Item.history (ItemDoc.toItem "i1" Scenario.boltDoc)) ≤ maxSafe) as H3
    by (by vm_compute).
  split; [exact H1|]. split; [exact H0|]. split; [exact H2|]. split; [exact H3|].
  exact (proj1 (report_totals_account_for_quantity "w1" Scenario.warehouses
                  settled _ H1 H0 H2 H3)).
Defined.

(** ** The archive page *)

Section Archive.

Lemma loadArchivedData_shows s w :
  ∃ s', ArchivePage.loadArchivedData s w = (Ok s', w) ∧ shows_the_archive w s'.
Proof.
  unfold ArchivePage.loadArchivedData. eff_unfold. eexists. split; [done|].
  unfold shows_the_archive. simpl.
  split; [|split; [|split; [|split; [|split; [|split]]]]].
  - intros item. rewrite list_elem_of_In, in_map_iff. split.
    + intros ([docId d] & <- & Hin).
      apply list_elem_of_In, elem_of_sort, list_elem_of_filter in Hin as [Hp Hin].
      simpl in *. apply elem_of_map_to_list in Hin. by exists d.
    + intros (d & Hd & Ha & ->). exists (Item.id item, d). split; [done|].
      apply list_elem_of_In, elem_of_sort, list_elem_of_filter. split; [done|].
      by apply elem_of_map_to_list.
  - apply (StronglySorted_map (λ a b, Item.updatedAt b ≤ Item.updatedAt a)
             (λ docSnap : string * ItemDoc.t, ItemDoc.toItem docSnap.1 docSnap.2)).
    simpl. eapply StronglySorted_weaken; [|apply sort_StronglySorted].
    + intros a b. unfold before. lia.
    + intros a b. unfold before. lia.
    + intros a b c. unfold before. lia.
  - change (map ?f ?l) with (f <$> l). rewrite <- list_fmap_compose.
    rewrite sort_Permutation. apply (NoDup_fst_filter _). apply NoDup_fst_map_to_list.
  - intros row. rewrite list_elem_of_In, in_map_iff. split.
    + intros ([docId wd] & <- & Hin).
      apply list_elem_of_In, elem_of_sort, list_elem_of_filter in Hin as [Hp Hin].
      simpl in *. apply elem_of_map_to_list in Hin. by exists wd.
    + intros (wd & Hwd & Ha & ->). exists (ArchivePage.ArchivedWarehouse.id row, wd).
      split; [done|].
      apply list_elem_of_In, elem_of_sort, list_elem_of_filter. split; [done|].
      by apply elem_of_map_to_list.
  - apply (StronglySorted_map
             (λ a b, ArchivePage.ArchivedWarehouse.updatedAt b
                     ≤ ArchivePage.ArchivedWarehouse.updatedAt a)
             (λ docSnap : string * WarehouseDoc.t, archiveRow docSnap.1 docSnap.2)).
    simpl. eapply StronglySorted_weaken; [|apply sort_StronglySorted].
    + intros a b. unfold before. lia.
    + intros a b. unfold before. lia.
    + intros a b c. unfold before. lia.
  - change (map ?f ?l) with (f <$> l). rewrite <- list_fmap_compose.
    rewrite sort_Permutation. apply (NoDup_fst_filter _). apply NoDup_fst_map_to_list.
  - done.
Qed.

Local Opaque ArchivePage.loadArchivedData.

Lemma handleRestoreItem_written serverTime itemId s w d :
  World.items w !! itemId = Some d →
  ∃ s' w',
    ArchivePage.handleRestoreItem serverTime itemId s w = (Ok s', w')
    ∧ World.items w' = <[itemId := restoredItem serverTime d]> (World.items w)
    ∧ same_but_updatedAt (World.warehouses w) (World.warehouses w')
    ∧ (∀ wd, Js.truthy (ItemDoc.warehouseId d) = true →
             World.warehouses w !! ItemDoc.warehouseId d = Some wd →
             World.warehouses w' !! ItemDoc.warehouseId d = Some (touched serverTime wd))
    ∧ World.toasts w' = World.toasts w ++ ["Item Restored"]
    ∧ World.archivedReports w' = World.archivedReports w
    ∧ shows_the_archive w' s'.
Proof.
  intros Hd. unfold ArchivePage.handleRestoreItem. eff_unfold. simpl. rewrite Hd. simpl.
  destruct (Js.truthy (ItemDoc.warehouseId d)) eqn:Hid.
  - unfold ArchivePage.updateWarehouseTimestampInFirestore. eff_unfold. simpl.
    destruct (World.warehouses w !! ItemDoc.warehouseId d) as [wd|] eqn:Hwd; simpl.
    + match goal with
      | |- context [ArchivePage.loadArchivedData ?s0 ?w0] =>
          destruct (loadArchivedData_shows s0 w0) as (s' & -> & Hshows)
      end.
      eexists _, _. split; [done|]. simpl. split; [done|].
      split; [|split; [|by repeat (split; [done|])]].
      * intros docId. destruct (decide (ItemDoc.warehouseId d = docId)) as [<-|Hne].
        -- by rewrite lookup_insert_eq, Hwd.
        -- rewrite lookup_insert_ne by done. by destruct (World.warehouses w !! docId).
      * intros wd' _ [= <-]. by rewrite lookup_insert_eq.
    + match goal with
      | |- context [ArchivePage.loadArchivedData ?s0 ?w0] =>
          destruct (loadArchivedData_shows s0 w0) as (s' & -> & Hshows)
      end.
      eexists _, _. split; [done|]. simpl. split; [done|].
      split; [apply same_but_updatedAt_refl|]. split; [intros wd' _ Hwd'; congruence|].
      by repeat (split; [done|]).
  - match goal with
    | |- context [ArchivePage.loadArchivedData ?s0 ?w0] =>
        destruct (loadArchivedData_shows s0 w0) as (s' & -> & Hshows)
    end.
    eexists _, _. split; [done|]. simpl. split; [done|].
    split; [apply same_but_updatedAt_refl|]. split; [intros wd' Hid'; congruence|].
    by repeat (split; [done|]).
Qed.

Lemma handleRestoreWarehouse_written serverTime warehouseId s w wd :
  World.warehouses w !! warehouseId = Some wd →
  ∃ s' w',
    ArchivePage.handleRestoreWarehouse serverTime warehouseId s w = (Ok s', w')
    ∧ World.warehouses w' = <[warehouseId := restoredWarehouse serverTime wd]> (World.warehouses w)
    ∧ World.items w' = World.items w
    ∧ World.toasts w' = World.toasts w ++ ["Warehouse Restored"]
    ∧ World.archivedReports w' = World.archivedReports w
    ∧ shows_the_archive w' s'.
Proof.
  intros Hwd. unfold ArchivePage.handleRestoreWarehouse. eff_unfold. simpl.
  rewrite Hwd. simpl.
  match goal with
  | |- context [ArchivePage.loadArchivedData ?s0 ?w0] =>
      destruct (loadArchivedData_shows s0 w0) as (s' & -> & Hshows)
  end.
  eexists _, _. split; [done|]. simpl. by repeat (split; [done|]).
Qed.

(** [handleArchiveItem] and the reload that it starts, settled before
    anything else happens. *)
Lemma handleArchiveItem_written serverTime item s w d :
  WarehouseDetailPage.itemToArchive s = Some item →
  Js.truthy (WarehouseDetailPage.warehouseIdFromParams s) = true →
  World.items w !! Item.id item = Some d →
  ∃ s' w',
    (let* s1 := WarehouseDetailPage.handleArchiveItem serverTime s in
     WarehouseDetailPage.loadWarehouseAndItems (WarehouseDetailPage.warehouseIdFromParams s) s1)
      w
    = (Ok s', w')
    ∧ (WarehouseDetailPage.handleArchiveItem serverTime s w).1
      = Ok (WarehouseDetailPage.setItemToArchive None s)
    ∧ World.items (WarehouseDetailPage.handleArchiveItem serverTime s w).2 = World.items w'
    ∧ World.warehouses (WarehouseDetailPage.handleArchiveItem serverTime s w).2
      = World.warehouses w'
    ∧ World.archivedReports (WarehouseDetailPage.handleArchiveItem serverTime s w).2
      = World.archivedReports w'
    ∧ World.items w' = <[Item.id item := archivedItem serverTime d]> (World.items w)
    ∧ same_but_updatedAt (World.warehouses w) (World.warehouses w')
    ∧ same_dialogs (WarehouseDetailPage.setItemToArchive None s) s'
    ∧ World.archivedReports w' = World.archivedReports w
    ∧ (∃ rest, World.toasts w' = World.toasts w ++ "Item Archived" :: rest)
    ∧ ((∃ wd, World.warehouses w !! WarehouseDetailPage.warehouseIdFromParams s = Some wd
              ∧ WarehouseDoc.isArchived wd = false
              ∧ World.warehouses w' !! WarehouseDetailPage.warehouseIdFromParams s
                = Some (touched serverTime wd)
              ∧ listing (WarehouseDetailPage.warehouseIdFromParams s) w'
                  (WarehouseDetailPage.items s'))
       ∨ ((∀ wd, World.warehouses w !! WarehouseDetailPage.warehouseIdFromParams s = Some wd →
                 WarehouseDoc.isArchived wd = true)
          ∧ WarehouseDetailPage.warehouse s' = None
          ∧ WarehouseDetailPage.items s' = [])).
Proof.
  intros Hitem Hid Hd. unfold bind.
  destruct (handleArchiveItem_outcome serverTime s w) as (s1 & w1 & Heq & Hout).
  rewrite Heq. simpl.
  destruct Hout as [[?|?] _ _|item' Hitem' Hnone _ _
                    |item' d' Hitem' _ Hd' -> Hi1 (_ & Ht1 & Ha1 & _ & Hsame & Hstamp)];
    [congruence..| |].
  { assert (item' = item) as -> by congruence. congruence. }
  assert (item' = item) as -> by congruence.
  assert (d' = d) as -> by congruence.
  destruct (loadWarehouseAndItems_cases (WarehouseDetailPage.warehouseIdFromParams s)
              (WarehouseDetailPage.setItemToArchive None s) w1 Hid)
    as (s2 & w2 & -> & (Hi2 & Hw2 & Ha2 & Hwr2 & Hp2) & Hdlg & Hcases).
  exists s2, w2. split; [done|]. split; [done|]. split; [done|]. split; [done|].
  split; [done|]. split; [congruence|]. split; [by rewrite Hw2|]. split; [done|].
  split; [congruence|].
  destruct Hcases as [(wd1 & Hwd1 & Harch & Hwh & Hlist & Ht2)|(Hnot & Hnone & Hnil & Ht2)].
  - split; [exists []; by rewrite Ht2, Ht1|]. left.
    destruct (same_but_updatedAt_lookup_r _ _ _ _ Hsame Hwd1) as (wd & Hwd & _ & Harch').
    exists wd. split; [done|]. split; [congruence|]. split.
    + rewrite Hw2. by apply Hstamp.
    + by eapply listing_items.
  - split; [exists ["Warehouse Not Found"]; rewrite Ht2, Ht1; by rewrite <- app_assoc|].
    right. split; [|done]. intros wd Hwd.
    destruct (same_but_updatedAt_lookup _ _ _ _ Hsame Hwd) as (wd1 & Hwd1 & _ & Harch').
    rewrite <- Harch'. by apply Hnot.
Qed.

(** X14.  The archive page after [loadArchivedData]: its tables hold the
    archived items and the archived warehouses of the store, each once and
    the one updated last first, and nothing of the store is changed; the
    name shown for the warehouse of an item is the name of the warehouse
    document, or "Unknown Warehouse" when the document is missing or its
    name is empty. *)
Theorem archive_page_shows_the_archive (s : ArchivePage.State) (w : World.t) :
  ∃ s',
    ArchivePage.loadArchivedData s w = (Ok s', w)
    ∧ shows_the_archive w s'
    ∧ ∀ warehouseId,
        ArchivePage.getWarehouseName s' warehouseId
        = match World.warehouses w !! warehouseId with
          | Some wd =>
              if Js.truthy (WarehouseDoc.name wd) then WarehouseDoc.name wd
              else "Unknown Warehouse"
          | None => "Unknown Warehouse"
          end.
Proof.
  destruct (loadArchivedData_shows s w) as (s' & Heq & Hshows).
  exists s'. split; [done|]. split; [done|].
  intros warehouseId. unfold ArchivePage.getWarehouseName.
  destruct Hshows as (_ & _ & _ & _ & _ & _ & ->). rewrite lookup_fmap.
  by destruct (World.warehouses w !! warehouseId).
Qed.

(** X15.  Archiving an item of the page, and the reload that the handler
    starts, settled before anything else happens: only the document of the
    item is written, it gets the flag and the time of the write and keeps
    its quantity and its ledger; the dialog is done with and the table,
    loaded again, has no row for the item. *)
Theorem archived_item_leaves_the_table (serverTime : Z) (item : Item.t)
    (s : WarehouseDetailPage.State) (w : World.t) (d : ItemDoc.t) :
  WarehouseDetailPage.itemToArchive s = Some item →
  Js.truthy (WarehouseDetailPage.warehouseIdFromParams s) = true →
  World.items w !! Item.id item = Some d →
  ∃ s' w',
    (let* s1 := WarehouseDetailPage.handleArchiveItem serverTime s in
     WarehouseDetailPage.loadWarehouseAndItems (WarehouseDetailPage.warehouseIdFromParams s) s1)
      w
    = (Ok s', w')
    ∧ World.items w' = <[Item.id item := archivedItem serverTime d]> (World.items w)
    ∧ (∀ item', item' ∈ WarehouseDetailPage.items s' → Item.id item' ≠ Item.id item)
    ∧ (∀ item', item' ∈ WarehouseDetailPage.items s' → mirrors w' item')
    ∧ WarehouseDetailPage.itemToArchive s' = None
    ∧ same_dialogs (WarehouseDetailPage.setItemToArchive None s) s'
    ∧ World.archivedReports w' = World.archivedReports w
    ∧ ∃ rest, World.toasts w' = World.toasts w ++ "Item Archived" :: rest.
Proof.
  intros Hitem Hid Hd.
  destruct (handleArchiveItem_written serverTime item s w d Hitem Hid Hd)
    as (s' & w' & Heq & _ & _ & _ & _ & Hi & _ & Hdlg & Ha & Ht & Hcases).
  exists s', w'. split; [done|]. split; [done|].
  split; [|split; [|split; [|done]]].
  - intros item' Hin Heqid.
    destruct Hcases as [(wd & _ & _ & _ & Hl & _)|(_ & _ & Hnil)].
    + apply Hl in Hin as (d' & Hd' & _ & Harch & _).
      rewrite Hi, Heqid, lookup_insert_eq in Hd'. injection Hd' as <-. done.
    + rewrite Hnil in Hin. by apply elem_of_nil in Hin.
  - intros item' Hin.
    destruct Hcases as [(wd & _ & _ & _ & Hl & _)|(_ & _ & Hnil)].
    + apply Hl in Hin as (d' & Hd' & _ & _ & Heq'). by exists d'.
    + rewrite Hnil in Hin. by apply elem_of_nil in Hin.
  - by destruct Hdlg as (_ & _ & _ & _ & _ & _ & ->).
Qed.

(** X16.  Restoring an archived item: only the document of the item is written,
    it loses the flag, gets the time of the write and keeps its quantity
    and its ledger; the warehouse that it names gets the time of the
    write; the archive page, loaded again, shows the archive without the
    item. *)
Theorem restored_item_leaves_the_archive (serverTime : Z) (itemId : string)
    (s : ArchivePage.State) (w : World.t) (d : ItemDoc.t) :
  World.items w !! itemId = Some d →
  ∃ s' w',
    ArchivePage.handleRestoreItem serverTime itemId s w = (Ok s', w')
    ∧ World.items w' = <[itemId := restoredItem serverTime d]> (World.items w)
    ∧ same_but_updatedAt (World.warehouses w) (World.warehouses w')
    ∧ (∀ wd, Js.truthy (ItemDoc.warehouseId d) = true →
             World.warehouses w !! ItemDoc.warehouseId d = Some wd →
             World.warehouses w' !! ItemDoc.warehouseId d = Some (touched serverTime wd))
    ∧ shows_the_archive w' s'
    ∧ (∀ item, item ∈ ArchivePage.archivedItems s' → Item.id item ≠ itemId)
    ∧ World.toasts w' = World.toasts w ++ ["Item Restored"].
Proof.
  intros Hd.
  destruct (handleRestoreItem_written serverTime itemId s w d Hd)
    as (s' & w' & Heq & Hi & Hw & Hstamp & Ht & _ & Hshows).
  exists s', w'. repeat (split; [done|]). split; [|done].
  intros item Hin <-. destruct Hshows as (Hl & _).
  apply Hl in Hin as (d' & Hd' & Harch & _).
  rewrite Hi, lookup_insert_eq in Hd'. injection Hd' as <-. done.
Qed.

(** X17.  Archiving an item and restoring it gives the document back: the store
    holds the items that it held, the item with the time of the second
    write as [updatedAt] and without the flag. *)
Theorem archive_then_restore_item (archiveTime restoreTime : Z) (item : Item.t)
    (s : WarehouseDetailPage.State) (archive : ArchivePage.State) (w : World.t)
    (d : ItemDoc.t) :
  WarehouseDetailPage.itemToArchive s = Some item →
  Js.truthy (WarehouseDetailPage.warehouseIdFromParams s) = true →
  World.items w !! Item.id item = Some d →
  let w1 := (WarehouseDetailPage.handleArchiveItem archiveTime s w).2 in
  let w2 := (ArchivePage.handleRestoreItem restoreTime (Item.id item) archive w1).2 in
  World.items w2 = <[Item.id item := restoredItem restoreTime d]> (World.items w)
  ∧ same_but_updatedAt (World.warehouses w) (World.warehouses w2)
  ∧ World.archivedReports w2 = World.archivedReports w.
Proof.
  intros Hitem Hid Hd w1 w2. subst w2.
  destruct (handleArchiveItem_written archiveTime item s w d Hitem Hid Hd)
    as (s' & w' & _ & _ & Hi0 & Hw0 & Ha0 & Hi1 & Hw1 & _ & Ha1 & _).
  fold w1 in Hi0, Hw0, Ha0.
  assert (World.items w1 !! Item.id item = Some (archivedItem archiveTime d)) as Hd1
    by (by rewrite Hi0, Hi1, lookup_insert_eq).
  destruct (handleRestoreItem_written restoreTime (Item.id item) archive w1 _ Hd1)
    as (s2 & w2 & -> & Hi2 & Hw2 & _ & _ & Ha2 & _).
  simpl. split; [|split].
  - rewrite Hi2, Hi0, Hi1. apply insert_insert_eq.
  - eapply same_but_updatedAt_trans; [exact Hw1|]. by rewrite <- Hw0.
  - congruence.
Qed.

(** X18.  Restoring an archived warehouse: only the document of the warehouse
    is written; no item is restored with it, so that the items that were
    archived with the warehouse stay archived and stay in the table of the
    archive page. *)
Theorem restored_warehouse_leaves_items_archived (serverTime : Z) (warehouseId : string)
    (s : ArchivePage.State) (w : World.t) (wd : WarehouseDoc.t) :
  World.warehouses w !! warehouseId = Some wd →
  ∃ s' w',
    ArchivePage.handleRestoreWarehouse serverTime warehouseId s w = (Ok s', w')
    ∧ World.warehouses w' = <[warehouseId := restoredWarehouse serverTime wd]> (World.warehouses w)
    ∧ World.items w' = World.items w
    ∧ shows_the_archive w' s'
    ∧ (∀ row, row ∈ ArchivePage.archivedWarehouses s' →
              ArchivePage.ArchivedWarehouse.id row ≠ warehouseId)
    ∧ (∀ docId d, World.items w !! docId = Some d → ItemDoc.isArchived d = true →
                  ItemDoc.toItem docId d ∈ ArchivePage.archivedItems s')
    ∧ World.toasts w' = World.toasts w ++ ["Warehouse Restored"].
Proof.
  intros Hwd.
  destruct (handleRestoreWarehouse_written serverTime warehouseId s w wd Hwd)
    as (s' & w' & Heq & Hw & Hi & Ht & _ & Hshows).
  exists s', w'. repeat (split; [done|]). split; [|split; [|done]].
  - intros row Hin <-. destruct Hshows as (_ & _ & _ & Hl & _).
    apply Hl in Hin as (wd' & Hwd' & Harch & _).
    rewrite Hw, lookup_insert_eq in Hwd'. injection Hwd' as <-. done.
  - intros docId d Hd Harch. destruct Hshows as (Hl & _). apply Hl.
    exists d. simpl. by rewrite Hi.
Qed.

End Archive.

(** ** The list of the warehouses *)

Section WarehouseList.
Import WarehousesPage.

Lemma loadWarehouses_shows s w :
  ∃ s', loadWarehouses s w = (Ok s', w)
        ∧ selectedWarehouseForArchive s' = selectedWarehouseForArchive s
        ∧ shows_the_warehouses w (allActiveWarehouses s').
Proof.
  unfold loadWarehouses. eff_unfold. eexists. split; [done|]. split; [done|].
  unfold shows_the_warehouses. simpl. split; [|split].
  - intros wh. rewrite list_elem_of_In, in_map_iff. split.
    + intros ([docId wd] & <- & Hin).
      apply list_elem_of_In, elem_of_sort, list_elem_of_filter in Hin as [Hp Hin].
      simpl in *. apply elem_of_map_to_list in Hin. by exists wd.
    + intros (wd & Hwd & Ha & ->). exists (Warehouse.id wh, wd). split; [done|].
      apply list_elem_of_In, elem_of_sort, list_elem_of_filter. split; [done|].
      by apply elem_of_map_to_list.
  - apply (StronglySorted_map (λ a b, Warehouse.updatedAt b ≤ Warehouse.updatedAt a)
             (λ docSnap : string * WarehouseDoc.t, warehouseRow docSnap.1 docSnap.2)).
    simpl. eapply StronglySorted_weaken; [|apply sort_StronglySorted].
    + intros a b. unfold before. lia.
    + intros a b. unfold before. lia.
    + intros a b c. unfold before. lia.
  - change (map ?f ?l) with (f <$> l). rewrite <- list_fmap_compose.
    rewrite sort_Permutation. apply (NoDup_fst_filter _). apply NoDup_fst_map_to_list.
Qed.

Local Opaque loadWarehouses.

(** What [handleArchiveWarehouse] does when the document of the selected
    warehouse exists. *)
Lemma handleArchiveWarehouse_written serverTime s w selected wd :
  selectedWarehouseForArchive s = Some selected →
  World.warehouses w !! Warehouse.id selected = Some wd →
  ∃ s' w',
    handleArchiveWarehouse serverTime s w = (Ok s', w')
    ∧ World.warehouses w'
      = <[Warehouse.id selected := archivedWarehouse serverTime wd]> (World.warehouses w)
    ∧ (∀ docId,
         World.items w' !! docId
         = (λ d, if decide (ItemDoc.warehouseId d = Warehouse.id selected)
                 then archivedItem serverTime d else d) <$> World.items w !! docId)
    ∧ selectedWarehouseForArchive s' = None
    ∧ shows_the_warehouses w' (allActiveWarehouses s')
    ∧ World.toasts w' = World.toasts w ++ ["Warehouse Archived"]
    ∧ World.archivedReports w' = World.archivedReports w.
Proof.
  intros Hsel Hwd. unfold handleArchiveWarehouse. rewrite Hsel. eff_unfold. simpl.
  rewrite Hwd. simpl.
  rewrite (query_exists
             (λ d, String.eqb (ItemDoc.warehouseId d) (Warehouse.id selected))).
  simpl.
  match goal with
  | |- context [loadWarehouses ?s0 ?w0] =>
      destruct (loadWarehouses_shows s0 w0) as (s' & -> & Hsel' & Hshows)
  end.
  eexists _, _. split; [done|]. simpl. split; [done|]. split; [|done].
  intros docId.
  set (hits := filter (λ p : string * ItemDoc.t,
                         String.eqb (ItemDoc.warehouseId p.2) (Warehouse.id selected) = true)
                 (map_to_list (World.items w))).
  assert (NoDup hits.*1) as Hnodup.
  { apply NoDup_fst_filter, NoDup_fst_map_to_list. }
  rewrite applyBatch_lookup by done.
  destruct (World.items w !! docId) as [d|] eqn:Hd; simpl.
  - destruct (decide (ItemDoc.warehouseId d = Warehouse.id selected)) as [Heq|Hne].
    + rewrite decide_True; [done|]. unfold hits.
      apply (elem_of_query
               (λ d, String.eqb (ItemDoc.warehouseId d) (Warehouse.id selected))).
      exists d. split; [done|]. by apply String.eqb_eq.
    + rewrite decide_False; [done|]. unfold hits.
      intros (d' & Hd' & Hp)%(elem_of_query
               (λ d, String.eqb (ItemDoc.warehouseId d) (Warehouse.id selected))).
      apply String.eqb_eq in Hp. congruence.
  - by destruct (decide _).
Qed.

(** X19.  Archiving the selected warehouse: the selection is cleared and the
    list, loaded again, shows the warehouses that are left; the archived
    warehouse is not among them. *)
Theorem archived_warehouse_leaves_the_list (serverTime : Z) (s : State) (w : World.t)
    (selected : Warehouse.t) (wd : WarehouseDoc.t) :
  selectedWarehouseForArchive s = Some selected →
  World.warehouses w !! Warehouse.id selected = Some wd →
  ∃ s' w',
    handleArchiveWarehouse serverTime s w = (Ok s', w')
    ∧ selectedWarehouseForArchive s' = None
    ∧ shows_the_warehouses w' (allActiveWarehouses s')
    ∧ (∀ wh, wh ∈ allActiveWarehouses s' → Warehouse.id wh ≠ Warehouse.id selected)
    ∧ (∀ docId wd', docId ≠ Warehouse.id selected →
                    World.warehouses w !! docId = Some wd' →
                    WarehouseDoc.isArchived wd' = false →
                    warehouseRow docId wd' ∈ allActiveWarehouses s')
    ∧ World.toasts w' = World.toasts w ++ ["Warehouse Archived"].
Proof.
  intros Hsel Hwd.
  destruct (handleArchiveWarehouse_written serverTime s w selected wd Hsel Hwd)
    as (s' & w' & Heq & Hw & _ & Hsel' & Hshows & Ht & _).
  exists s', w'. repeat (split; [done|]). split; [|split; [|done]].
  - intros wh Hin Heqid. destruct Hshows as (Hl & _).
    apply Hl in Hin as (wd' & Hwd' & Harch & _).
    rewrite Hw, Heqid, lookup_insert_eq in Hwd'. injection Hwd' as <-. done.
  - intros docId wd' Hne Hwd' Harch. destruct Hshows as (Hl & _). apply Hl.
    exists wd'. simpl. rewrite Hw, lookup_insert_ne by done. done.
Qed.

(** X20.  Archiving a warehouse and restoring it does not give the items back:
    the warehouse is in use again, but every item that referred to it when
    it was archived is archived still, whether it was archived before or
    not; the other items are as they were. *)
Theorem archive_then_restore_warehouse (archiveTime restoreTime : Z) (s : State)
    (archive : ArchivePage.State) (w : World.t) (selected : Warehouse.t)
    (wd : WarehouseDoc.t) :
  selectedWarehouseForArchive s = Some selected →
  World.warehouses w !! Warehouse.id selected = Some wd →
  let w1 := (handleArchiveWarehouse archiveTime s w).2 in
  let w2 :=
    (ArchivePage.handleRestoreWarehouse restoreTime (Warehouse.id selected) archive w1).2 in
  World.warehouses w2
  = <[Warehouse.id selected := restoredWarehouse restoreTime wd]> (World.warehouses w)
  ∧ (∀ docId d,
       World.items w !! docId = Some d →
       ItemDoc.warehouseId d = Warehouse.id selected →
       World.items w2 !! docId = Some (archivedItem archiveTime d))
  ∧ (∀ docId d,
       World.items w !! docId = Some d →
       ItemDoc.warehouseId d ≠ Warehouse.id selected →
       World.items w2 !! docId = Some d).
Proof.
  intros Hsel Hwd w1 w2. subst w1 w2.
  destruct (handleArchiveWarehouse_written archiveTime s w selected wd Hsel Hwd)
    as (s1 & w1 & -> & Hw1 & Hi1 & _).
  simpl.
  assert (World.warehouses w1 !! Warehouse.id selected
          = Some (archivedWarehouse archiveTime wd)) as Hwd1
    by (by rewrite Hw1, lookup_insert_eq).
  destruct (handleRestoreWarehouse_written restoreTime (Warehouse.id selected) archive w1
              _ Hwd1)
    as (s2 & w2 & -> & Hw2 & Hi2 & _).
  simpl. split; [|split].
  - rewrite Hw2, Hw1. apply insert_insert_eq.
  - intros docId d Hd Hin. rewrite Hi2, Hi1, Hd. simpl. by rewrite decide_True.
  - intros docId d Hd Hout. rewrite Hi2, Hi1, Hd. simpl. by rewrite decide_False.
Qed.

End WarehouseList.

(** ** Writes to documents that are missing *)

(** X21.  A handler whose first write names a document that the store does not
    hold shows the toast "Error" and leaves the store and the state of its
    page as they were: archiving a warehouse, archiving an item, restoring
    a warehouse and restoring an item. *)
Theorem writes_to_missing_documents_fail (serverTime : Z) (w : World.t)
    (selected : Warehouse.t) (item : Item.t)
    (list : WarehousesPage.State) (page : WarehouseDetailPage.State)
    (archive : ArchivePage.State) :
  World.warehouses w !! Warehouse.id selected = None →
  World.items w !! Item.id item = None →
  WarehousesPage.selectedWarehouseForArchive list = Some selected →
  WarehouseDetailPage.itemToArchive page = Some item →
  Js.truthy (WarehouseDetailPage.warehouseIdFromParams page) = true →
  fails_unchanged w (WarehousesPage.handleArchiveWarehouse serverTime list w) list
  ∧ fails_unchanged w (WarehouseDetailPage.handleArchiveItem serverTime page w) page
  ∧ fails_unchanged w
      (ArchivePage.handleRestoreWarehouse serverTime (Warehouse.id selected) archive w) archive
  ∧ fails_unchanged w (ArchivePage.handleRestoreItem serverTime (Item.id item) archive w)
      archive.
Proof.
  intros Hwd Hd Hsel Hitem Hid. unfold fails_unchanged.
  split; [|split; [|split]].
  - unfold WarehousesPage.handleArchiveWarehouse. rewrite Hsel. eff_unfold. simpl.
    rewrite Hwd. simpl. done.
  - unfold WarehouseDetailPage.handleArchiveItem. rewrite Hitem, Hid. simpl.
    eff_unfold. simpl. rewrite Hd. simpl. done.
  - unfold ArchivePage.handleRestoreWarehouse. eff_unfold. simpl.
    rewrite Hwd. simpl. done.
  - unfold ArchivePage.handleRestoreItem. eff_unfold. simpl.
    rewrite Hd. simpl. done.
Qed.

(** ** The reports page *)

Section Reports.
Import ReportsPage.

Lemma selection_filter_elem LocalTZA f all t :
  t ∈ filteredTransactions LocalTZA (withoutDates f) all
  ↔ t ∈ all
    ∧ (∀ warehouseId, selection (selectedWarehouseId f) all_warehouses = Some warehouseId →
                      FlattenedHistoryEntry.warehouseId t = warehouseId)
    ∧ (∀ itemId, selection (selectedItemId f) all_items = Some itemId →
                 FlattenedHistoryEntry.itemId t = itemId).
Proof.
  unfold filteredTransactions, withoutDates.
  cbn [selectedWarehouseId selectedItemId startDate endDate].
  destruct (selection (selectedWarehouseId f) all_warehouses) as [warehouseId|],
    (selection (selectedItemId f) all_items) as [itemId|];
    rewrite ?list_elem_of_filter; split.
  - intros (Hi & Hw & Hin). split; [done|]. split; intros ? [= <-]; done.
  - intros (Hin & Hw & Hi). split; [by apply Hi|]. split; [by apply Hw|done].
  - intros (Hw & Hin). split; [done|]. split; [intros ? [= <-]; done|done].
  - intros (Hin & Hw & _). split; [by apply Hw|done].
  - intros (Hi & Hin). split; [done|]. split; [done|intros ? [= <-]; done].
  - intros (Hin & _ & Hi). split; [by apply Hi|done].
  - intros Hin. by repeat split.
  - by intros (Hin & _).
Qed.

Lemma filteredTransactions_sublist LocalTZA f all :
  filteredTransactions LocalTZA f all `sublist_of` all.
Proof.
  unfold filteredTransactions.
  repeat match goal with
         | |- context [match ?o with Some _ => _ | None => _ end] => destruct o
         end;
    repeat (etrans; [apply sublist_filter|]); done.
Qed.

(** X22.  The filters of the reports page keep the order of the transactions and
    invent none: the filtered list is the full list with entries left out,
    so that it is sorted, the most recent entry first, when the full list
    is.  The selections keep the entries of the selected warehouse and of
    the selected item; the placeholders for all the warehouses and all the
    items, like no selection, keep every entry. *)
Theorem filters_keep_the_order (LocalTZA : Z → bool → Z) (f : Filters) (all : list FlattenedHistoryEntry.t) :
  filteredTransactions LocalTZA f all `sublist_of` all
  ∧ (StronglySorted newest_first all →
     StronglySorted newest_first (filteredTransactions LocalTZA f all))
  ∧ (∀ t,
       t ∈ filteredTransactions LocalTZA (withoutDates f) all
       ↔ t ∈ all
         ∧ (∀ warehouseId,
              selection (selectedWarehouseId f) all_warehouses = Some warehouseId →
              FlattenedHistoryEntry.warehouseId t = warehouseId)
         ∧ (∀ itemId,
              selection (selectedItemId f) all_items = Some itemId →
              FlattenedHistoryEntry.itemId t = itemId))
  ∧ selection (Some all_warehouses) all_warehouses = None
  ∧ selection (Some all_items) all_items = None.
Proof.
  split; [apply filteredTransactions_sublist|]. split; [|split; [|done]].
  - apply StronglySorted_sublist, filteredTransactions_sublist.
  - apply selection_filter_elem.
Qed.

(** X23.  Choosing a warehouse in the filter clears the selected item: without
    dates, the list then shows every transaction of that warehouse, and
    every transaction when the choice is the entry for all the
    warehouses. *)
Theorem warehouse_change_clears_the_item (LocalTZA : Z → bool → Z) (warehouseId : string) (f : Filters)
    (all : list FlattenedHistoryEntry.t) (t : FlattenedHistoryEntry.t) :
  t ∈ filteredTransactions LocalTZA (withoutDates (ReportsData.handleWarehouseChange warehouseId f))
        all
  ↔ t ∈ all
    ∧ (warehouseId = all_warehouses ∨ warehouseId = ""
       ∨ FlattenedHistoryEntry.warehouseId t = warehouseId).
Proof.
  rewrite selection_filter_elem. unfold ReportsData.handleWarehouseChange.
  cbn [selectedWarehouseId selectedItemId].
  destruct (String.eqb warehouseId all_warehouses) eqn:Hall.
  - apply String.eqb_eq in Hall. simpl. split.
    + intros (Hin & _). auto.
    + intros (Hin & _). by repeat split.
  - unfold selection, Js.truthy. rewrite Hall.
    destruct (String.eqb warehouseId "") eqn:Hempty; simpl.
    + apply String.eqb_eq in Hempty. split.
      * intros (Hin & _). auto.
      * intros (Hin & _). by repeat split.
    + apply String.eqb_neq in Hall, Hempty. split.
      * intros (Hin & Hw & _). split; [done|]. right. right. by apply Hw.
      * intros (Hin & [?|[?|Hw]]); try done. split; [done|]. split; [|done].
        by intros ? [= <-].
Qed.

Lemma parent_lookup (warehouses : list Warehouse.t) (item : Item.t) (wh : Warehouse.t) :
  NoDup (Warehouse.id <$> warehouses) →
  wh ∈ warehouses →
  Warehouse.id wh = Item.warehouseId item →
  parent warehouses item = Some wh.
Proof.
  unfold parent. induction warehouses as [|wh' l IH]; intros Hnd Hin Hid.
  - by apply elem_of_nil in Hin.
  - rewrite fmap_cons, NoDup_cons in Hnd. destruct Hnd as [Hnotin Hnd]. simpl.
    destruct (String.eqb (Warehouse.id wh') (Item.warehouseId item)) eqn:Heq.
    + apply String.eqb_eq in Heq. apply elem_of_cons in Hin as [->|Hin]; [done|].
      exfalso. apply Hnotin. apply list_elem_of_fmap. exists wh. split; [congruence|done].
    + apply String.eqb_neq in Heq. apply elem_of_cons in Hin as [->|Hin]; [done|].
      by apply IH.
Qed.

(** X24.  What the reports page loads when it is mounted.  A transaction is
    listed iff it is an entry of the ledger of an item that is not
    archived and whose warehouse exists and is not archived; it carries
    the names and the ids of the two documents.  The list is sorted, the
    most recent entry first, and shown unfiltered; the archived reports
    are those of localStorage; the store is not changed. *)
Theorem reports_page_loads_the_active_ledgers (w : World.t) :
  ∃ s,
    ReportsData.loadData w = (Ok s, w)
    ∧ (∀ t,
         t ∈ ReportsData.allFlattenedTransactions s
         ↔ ∃ docId d wd e,
             World.items w !! docId = Some d
             ∧ ItemDoc.isArchived d = false
             ∧ World.warehouses w !! ItemDoc.warehouseId d = Some wd
             ∧ WarehouseDoc.isArchived wd = false
             ∧ e ∈ ItemDoc.history d
             ∧ t = FlattenedHistoryEntry.mk e (ItemDoc.name d) (WarehouseDoc.name wd)
                     docId (ItemDoc.warehouseId d))
    ∧ StronglySorted newest_first (ReportsData.allFlattenedTransactions s)
    ∧ ReportsData.filteredTransactions s = ReportsData.allFlattenedTransactions s
    ∧ ReportsData.archivedReports s = World.archivedReports w.
Proof.
  unfold ReportsData.loadData. eff_unfold. eexists. split; [done|]. simpl.
  split; [|split; [|done]].
  - intros t.
    set (row := λ doc : string * WarehouseDoc.t,
                  {| Warehouse.id := doc.1;
                     Warehouse.name := WarehouseDoc.name doc.2;
                     Warehouse.description := Some (WarehouseDoc.description doc.2);
                     Warehouse.isArchived := WarehouseDoc.isArchived doc.2;
                     Warehouse.createdAt := WarehouseDoc.createdAt doc.2;
                     Warehouse.updatedAt := WarehouseDoc.updatedAt doc.2;
                     Warehouse.ownerId := WarehouseDoc.ownerId doc.2 |}).
    set (whs := map row _).
    set (its := map _ _).
    assert (NoDup (Warehouse.id <$> whs)) as Hnd.
    { unfold whs. change (map row ?l) with (row <$> l). rewrite <- list_fmap_compose.
      rewrite sort_Permutation. apply (NoDup_fst_filter _). apply NoDup_fst_map_to_list. }
    assert (∀ wh, wh ∈ whs
                  ↔ ∃ wd, World.warehouses w !! Warehouse.id wh = Some wd
                          ∧ WarehouseDoc.isArchived wd = false
                          ∧ wh = row (Warehouse.id wh, wd)) as Hwhs.
    { intros wh. unfold whs. rewrite list_elem_of_In, in_map_iff. split.
      - intros ([docId wd] & <- & Hin).
        apply list_elem_of_In, elem_of_sort, list_elem_of_filter in Hin as [Hp Hin].
        simpl in *. apply elem_of_map_to_list in Hin. by exists wd.
      - intros (wd & Hwd & Ha & ->). exists (Warehouse.id wh, wd). split; [done|].
        apply list_elem_of_In, elem_of_sort, list_elem_of_filter. split; [done|].
        by apply elem_of_map_to_list. }
    assert (∀ item, item ∈ its
                    ↔ ∃ d, World.items w !! Item.id item = Some d
                           ∧ ItemDoc.isArchived d = false
                           ∧ item = ItemDoc.toItem (Item.id item) d) as Hits.
    { intros item. unfold its. rewrite list_elem_of_In, in_map_iff. split.
      - intros ([docId d] & <- & Hin).
        apply list_elem_of_In, list_elem_of_filter in Hin as [Hp Hin].
        simpl in *. apply elem_of_map_to_list in Hin. by exists d.
      - intros (d & Hd & Ha & ->). exists (Item.id item, d). split; [done|].
        apply list_elem_of_In, list_elem_of_filter. split; [done|].
        by apply elem_of_map_to_list. }
    unfold allFlattenedTransactions. rewrite elem_of_sort, flatten_contributions.
    rewrite list_elem_of_bind. split.
    + intros (item & Ht & Hitem). apply Hits in Hitem as (d & Hd & Ha & Heq).
      unfold contribution in Ht.
      destruct (parent whs item) as [wh|] eqn:Hwh; [|by apply elem_of_nil in Ht].
      apply list_elem_of_fmap in Ht as (e & -> & He).
      apply find_Some in Hwh as [Hin Hid]. apply String.eqb_eq in Hid.
      apply Hwhs in Hin as (wd & Hwd & Hwa & Hrow).
      exists (Item.id item), d, wd, e.
      assert (Item.warehouseId item = ItemDoc.warehouseId d) as Hw by (by rewrite Heq).
      split; [done|]. split; [done|]. split; [congruence|]. split; [done|].
      split; [by rewrite Heq in He|].
      unfold widen. rewrite Hid, Hw. rewrite Hrow. simpl. by rewrite Heq.
    + intros (docId & d & wd & e & Hd & Ha & Hwd & Hwa & He & ->).
      exists (ItemDoc.toItem docId d). split; [|apply Hits; by exists d].
      unfold contribution.
      rewrite (parent_lookup whs (ItemDoc.toItem docId d) (row (ItemDoc.warehouseId d, wd)));
        [| done | apply Hwhs; by exists wd | done].
      apply list_elem_of_fmap. by exists e.
  - unfold allFlattenedTransactions.
    eapply StronglySorted_weaken; [|apply sort_StronglySorted].
    + intros a b. unfold before, newest_first. lia.
    + intros a b. unfold before. lia.
    + intros a b c. unfold before. lia.
Qed.

End Reports.

(** ** The archived reports *)

Section ArchivedReportsKept.

Lemma keeps_pure {A} (a : A) : keeps_reports (pure a).
Proof. by intros w. Qed.

Lemma keeps_throw {A} e : keeps_reports (@throw A e).
Proof. by intros w. Qed.

Lemma keeps_get : keeps_reports get.
Proof. by intros w. Qed.

Lemma keeps_modify f :
  (∀ w, World.archivedReports w `prefix_of` World.archivedReports (f w)) →
  keeps_reports (modify f).
Proof. intros Hf w. apply Hf. Qed.

Lemma keeps_bind {A B} (m : Eff A) (k : A → Eff B) :
  keeps_reports m → (∀ a, keeps_reports (k a)) → keeps_reports (bind m k).
Proof.
  intros Hm Hk w. unfold bind. specialize (Hm w).
  destruct (m w) as [[a|e] w']; simpl in *; [|done].
  etrans; [exact Hm|apply Hk].
Qed.

Lemma keeps_try_catch {A} (body : Eff A) (handler : string → Eff A) :
  keeps_reports body → (∀ e, keeps_reports (handler e)) → keeps_reports (try_catch body handler).
Proof.
  intros Hm Hk w. unfold try_catch. specialize (Hm w).
  destruct (body w) as [[a|e] w']; simpl in *; [done|].
  etrans; [exact Hm|apply Hk].
Qed.

Ltac keeps :=
  cbv zeta;
  repeat first
    [ apply keeps_pure
    | apply keeps_throw
    | apply keeps_get
    | apply keeps_bind; [|intros ?]
    | apply keeps_try_catch; [|intros ?]
    | apply keeps_modify; intros ?; simpl; first [done | by apply prefix_app_r]
    | match goal with
      | |- keeps_reports (match ?x with _ => _ end) => destruct x
      end ].

Lemma keeps_toast title : keeps_reports (toast title).
Proof. unfold toast. keeps. Qed.

Lemma keeps_render p : keeps_reports (render p).
Proof. unfold render. keeps. Qed.

Lemma keeps_updateItem serverTime docId fields :
  keeps_reports (Firestore.updateItem serverTime docId fields).
Proof. unfold Firestore.updateItem, Firestore.logWrite. keeps. Qed.

Lemma keeps_updateWarehouse serverTime docId fields :
  keeps_reports (Firestore.updateWarehouse serverTime docId fields).
Proof. unfold Firestore.updateWarehouse, Firestore.logWrite. keeps. Qed.

Lemma keeps_addItem docId data : keeps_reports (Firestore.addItem docId data).
Proof. unfold Firestore.addItem, Firestore.logWrite. keeps. Qed.

Lemma keeps_commitBatch serverTime updates :
  keeps_reports (Firestore.commitBatch serverTime updates).
Proof. unfold Firestore.commitBatch, Firestore.logWrite. keeps. Qed.

Lemma keeps_getWarehouse docId : keeps_reports (Firestore.getWarehouse docId).
Proof. unfold Firestore.getWarehouse. keeps. Qed.

Lemma keeps_queryItems where_ : keeps_reports (Firestore.queryItems where_).
Proof. unfold Firestore.queryItems. keeps. Qed.

Ltac keeps_all :=
  cbv zeta;
  repeat first
    [ apply keeps_toast
    | apply keeps_render
    | apply keeps_updateItem
    | apply keeps_updateWarehouse
    | apply keeps_addItem
    | apply keeps_commitBatch
    | apply keeps_getWarehouse
    | apply keeps_queryItems
    | apply keeps_pure
    | apply keeps_throw
    | apply keeps_get
    | apply keeps_bind; [|intros ?]
    | apply keeps_try_catch; [|intros ?]
    | apply keeps_modify; intros ?; simpl; first [done | by apply prefix_app_r]
    | match goal with
      | |- keeps_reports (match ?x with _ => _ end) => destruct x
      end ].

Lemma keeps_loadWarehouseAndItems idToLoad s :
  keeps_reports (WarehouseDetailPage.loadWarehouseAndItems idToLoad s).
Proof. unfold WarehouseDetailPage.loadWarehouseAndItems. keeps_all. Qed.

Lemma keeps_updateWarehouseTimestamp serverTime warehouseId :
  keeps_reports (WarehouseDetailPage.updateWarehouseTimestampInFirestore serverTime warehouseId).
Proof. unfold WarehouseDetailPage.updateWarehouseTimestampInFirestore. keeps_all. Qed.

Lemma keeps_handle ev s : keeps_reports (WarehouseDetailPage.handle ev s).
Proof.
  destruct ev; simpl;
    unfold WarehouseDetailPage.onAddItemSubmit, WarehouseDetailPage.onStockAdjustmentSubmit,
      WarehouseDetailPage.handlePrintReport, WarehouseDetailPage.handleArchiveItem;
    cbv zeta;
    repeat first
      [ apply keeps_loadWarehouseAndItems
      | apply keeps_updateWarehouseTimestamp
      | progress keeps_all ].
Qed.

Lemma keeps_dispatch ev sw :
  World.archivedReports sw.2
  `prefix_of` World.archivedReports (WarehouseDetailPage.dispatch sw ev).2.
Proof.
  unfold WarehouseDetailPage.dispatch. pose proof (keeps_handle ev sw.1 sw.2) as H.
  by destruct (WarehouseDetailPage.handle ev sw.1 sw.2) as [[s'|e] w'].
Qed.

(** X25.  No operation of the application removes or rewrites an archived
    report: after any events of the warehouse detail page, and after any of
    the other handlers, whether it succeeds or fails, localStorage holds
    the reports that it held, in their order, with new reports after them
    at most. *)
Theorem archived_reports_only_grow :
  (∀ evs more sw,
     World.archivedReports (WarehouseDetailPage.run evs sw).2
     `prefix_of` World.archivedReports (WarehouseDetailPage.run (evs ++ more) sw).2)
  ∧ (∀ serverTime s, keeps_reports (WarehouseDetailPage.handleArchiveItem serverTime s))
  ∧ (∀ serverTime s, keeps_reports (WarehousesPage.handleArchiveWarehouse serverTime s))
  ∧ (∀ printDate now warehouseToPrint,
       keeps_reports (WarehousesPage.handlePrintWarehouseReport printDate now warehouseToPrint))
  ∧ (∀ serverTime warehouseId s,
       keeps_reports (ArchivePage.handleRestoreWarehouse serverTime warehouseId s))
  ∧ (∀ serverTime itemId s,
       keeps_reports (ArchivePage.handleRestoreItem serverTime itemId s))
  ∧ (∀ now report, keeps_reports (ReportsPage.handlePrintArchivedReport now report))
  ∧ keeps_reports ReportsData.loadData.
Proof.
  split; [|split; [|split; [|split; [|split; [|split; [|split]]]]]].
  - intros evs more sw. rewrite run_app.
    generalize (WarehouseDetailPage.run evs sw). clear evs sw.
    induction more as [|ev more IH]; intros sw; simpl; [done|].
    etrans; [apply (keeps_dispatch ev)|apply IH].
  - intros. unfold WarehouseDetailPage.handleArchiveItem.
    repeat first
      [ apply keeps_loadWarehouseAndItems
      | apply keeps_updateWarehouseTimestamp
      | progress keeps_all ].
  - intros. unfold WarehousesPage.handleArchiveWarehouse, WarehousesPage.loadWarehouses.
    keeps_all.
  - intros. unfold WarehousesPage.handlePrintWarehouseReport. keeps_all.
  - intros. unfold ArchivePage.handleRestoreWarehouse, ArchivePage.loadArchivedData.
    keeps_all.
  - intros. unfold ArchivePage.handleRestoreItem, ArchivePage.loadArchivedData,
      ArchivePage.updateWarehouseTimestampInFirestore.
    keeps_all.
  - intros. unfold ReportsPage.handlePrintArchivedReport. keeps_all.
  - unfold ReportsData.loadData. keeps_all.
Qed.

End ArchivedReportsKept.

(** ** The archive of a warehouse with three items *)

Section ArchiveWitnesses.

Lemma archived_item_leaves_the_table_witness :
  WarehouseDetailPage.itemToArchive ArchiveScenario.confirming
  = Some (ItemDoc.toItem "i1" ArchiveScenario.bolt)
  ∧ Js.truthy (WarehouseDetailPage.warehouseIdFromParams ArchiveScenario.confirming) = true
  ∧ World.items ArchiveScenario.world !! "i1" = Some ArchiveScenario.bolt
  ∧ ∃ s' w',
      (let* s1 := WarehouseDetailPage.handleArchiveItem 50 ArchiveScenario.confirming in
       WarehouseDetailPage.loadWarehouseAndItems
         (WarehouseDetailPage.warehouseIdFromParams ArchiveScenario.confirming) s1)
        ArchiveScenario.world
      = (Ok s', w')
      ∧ World.items w' !! "i1" = Some (archivedItem 50 ArchiveScenario.bolt)
      ∧ ∀ item', item' ∈ WarehouseDetailPage.items s' → Item.id item' ≠ "i1".
Proof.
  assert (WarehouseDetailPage.itemToArchive ArchiveScenario.confirming
          = Some (ItemDoc.toItem "i1" ArchiveScenario.bolt)) as H0 by reflexivity.
  assert (Js.truthy (WarehouseDetailPage.warehouseIdFromParams ArchiveScenario.confirming)
          = true) as H1 by (vm_compute; reflexivity).
  assert (World.items ArchiveScenario.world !! "i1" = Some ArchiveScenario.bolt) as H2
    by (vm_compute; reflexivity).
  split; [exact H0|]. split; [exact H1|]. split; [exact H2|].
  destruct (archived_item_leaves_the_table 50 (ItemDoc.toItem "i1" ArchiveScenario.bolt)
              ArchiveScenario.confirming ArchiveScenario.world
              ArchiveScenario.bolt H0 H1 H2)
    as (s' & w' & Heq & Hi & Hrows & _).
  exists s', w'. split; [exact Heq|]. split; [|exact Hrows].
  rewrite Hi. apply lookup_insert_eq.
Defined.

Lemma restored_item_leaves_the_archive_witness :
  World.items ArchiveScenario.world !! "i2" = Some ArchiveScenario.nut
  ∧ ∃ s' w',
      ArchivePage.handleRestoreItem 50 "i2" ArchivePage.initialState ArchiveScenario.world
      = (Ok s', w')
      ∧ World.items w' !! "i2" = Some (restoredItem 50 ArchiveScenario.nut)
      ∧ ∀ item, item ∈ ArchivePage.archivedItems s' → Item.id item ≠ "i2".
Proof.
  assert (World.items ArchiveScenario.world !! "i2" = Some ArchiveScenario.nut) as H1
    by (vm_compute; reflexivity).
  split; [exact H1|].
  destruct (restored_item_leaves_the_archive 50 "i2" ArchivePage.initialState
              ArchiveScenario.world ArchiveScenario.nut H1)
    as (s' & w' & Heq & Hi & _ & _ & _ & Hrows & _).
  exists s', w'. split; [exact Heq|]. split; [|exact Hrows].
  rewrite Hi. apply lookup_insert_eq.
Defined.

Lemma archive_then_restore_item_witness :
  WarehouseDetailPage.itemToArchive ArchiveScenario.confirming
  = Some (ItemDoc.toItem "i1" ArchiveScenario.bolt)
  ∧ Js.truthy (WarehouseDetailPage.warehouseIdFromParams ArchiveScenario.confirming) = true
  ∧ World.items ArchiveScenario.world !! "i1" = Some ArchiveScenario.bolt
  ∧ World.items
      (ArchivePage.handleRestoreItem 60 "i1" ArchivePage.initialState
         (WarehouseDetailPage.handleArchiveItem 50 ArchiveScenario.confirming
            ArchiveScenario.world).2).2
    = <["i1" := restoredItem 60 ArchiveScenario.bolt]> (World.items ArchiveScenario.world).
Proof.
  assert (WarehouseDetailPage.itemToArchive ArchiveScenario.confirming
          = Some (ItemDoc.toItem "i1" ArchiveScenario.bolt)) as H0 by reflexivity.
  assert (Js.truthy (WarehouseDetailPage.warehouseIdFromParams ArchiveScenario.confirming)
          = true) as H1 by (vm_compute; reflexivity).
  assert (World.items ArchiveScenario.world !! "i1" = Some ArchiveScenario.bolt) as H2
    by (vm_compute; reflexivity).
  split; [exact H0|]. split; [exact H1|]. split; [exact H2|].
  exact (proj1 (archive_then_restore_item 50 60 (ItemDoc.toItem "i1" ArchiveScenario.bolt)
                  ArchiveScenario.confirming ArchivePage.initialState
                  ArchiveScenario.world ArchiveScenario.bolt H0 H1 H2)).
Defined.

Lemma restored_warehouse_leaves_items_archived_witness :
  World.warehouses ArchiveScenario.world !! "w1" = Some (WarehouseDoc.mk "Main" "" false 0 0 "u1")
  ∧ ∃ s' w',
      ArchivePage.handleRestoreWarehouse 50 "w1" ArchivePage.initialState ArchiveScenario.world
      = (Ok s', w')
      ∧ World.items w' = World.items ArchiveScenario.world
      ∧ ItemDoc.toItem "i2" ArchiveScenario.nut ∈ ArchivePage.archivedItems s'.
Proof.
  assert (World.warehouses ArchiveScenario.world !! "w1"
          = Some (WarehouseDoc.mk "Main" "" false 0 0 "u1")) as H1
    by (vm_compute; reflexivity).
  assert (World.items ArchiveScenario.world !! "i2" = Some ArchiveScenario.nut) as H2
    by (vm_compute; reflexivity).
  split; [exact H1|].
  destruct (restored_warehouse_leaves_items_archived 50 "w1" ArchivePage.initialState
              ArchiveScenario.world _ H1)
    as (s' & w' & Heq & _ & Hi & _ & _ & Hkept & _).
  exists s', w'. split; [exact Heq|]. split; [exact Hi|].
  exact (Hkept "i2" ArchiveScenario.nut H2 eq_refl).
Defined.

Lemma archived_warehouse_leaves_the_list_witness :
  WarehousesPage.selectedWarehouseForArchive ArchiveScenario.page = Some ArchiveScenario.main
  ∧ World.warehouses ArchiveScenario.world !! Warehouse.id ArchiveScenario.main
    = Some (WarehouseDoc.mk "Main" "" false 0 0 "u1")
  ∧ ∃ s' w',
      WarehousesPage.handleArchiveWarehouse 50 ArchiveScenario.page ArchiveScenario.world
      = (Ok s', w')
      ∧ WarehousesPage.selectedWarehouseForArchive s' = None
      ∧ ∀ wh, wh ∈ WarehousesPage.allActiveWarehouses s' → Warehouse.id wh ≠ "w1".
Proof.
  assert (WarehousesPage.selectedWarehouseForArchive ArchiveScenario.page
          = Some ArchiveScenario.main) as H1 by reflexivity.
  assert (World.warehouses ArchiveScenario.world !! Warehouse.id ArchiveScenario.main
          = Some (WarehouseDoc.mk "Main" "" false 0 0 "u1")) as H2
    by (vm_compute; reflexivity).
  split; [exact H1|]. split; [exact H2|].
  destruct (archived_warehouse_leaves_the_list 50 ArchiveScenario.page ArchiveScenario.world
              ArchiveScenario.main _ H1 H2)
    as (s' & w' & Heq & Hsel & _ & Hrows & _).
  exists s', w'. split; [exact Heq|]. split; [exact Hsel|exact Hrows].
Defined.

Lemma archive_then_restore_warehouse_witness :
  WarehousesPage.selectedWarehouseForArchive ArchiveScenario.page = Some ArchiveScenario.main
  ∧ World.warehouses ArchiveScenario.world !! Warehouse.id ArchiveScenario.main
    = Some (WarehouseDoc.mk "Main" "" false 0 0 "u1")
  ∧ World.items ArchiveScenario.world !! "i1" = Some ArchiveScenario.bolt
  ∧ ItemDoc.warehouseId ArchiveScenario.bolt = Warehouse.id ArchiveScenario.main
  ∧ World.items
      (ArchivePage.handleRestoreWarehouse 60 "w1" ArchivePage.initialState
         (WarehousesPage.handleArchiveWarehouse 50 ArchiveScenario.page
            ArchiveScenario.world).2).2 !! "i1"
    = Some (archivedItem 50 ArchiveScenario.bolt).
Proof.
  assert (WarehousesPage.selectedWarehouseForArchive ArchiveScenario.page
          = Some ArchiveScenario.main) as H1 by reflexivity.
  assert (World.warehouses ArchiveScenario.world !! Warehouse.id ArchiveScenario.main
          = Some (WarehouseDoc.mk "Main" "" false 0 0 "u1")) as H2
    by (vm_compute; reflexivity).
  assert (World.items ArchiveScenario.world !! "i1" = Some ArchiveScenario.bolt) as H3
    by (vm_compute; reflexivity).
  assert (ItemDoc.warehouseId ArchiveScenario.bolt = Warehouse.id ArchiveScenario.main) as H4
    by reflexivity.
  repeat (split; [assumption|]).
  exact (proj1 (proj2 (archive_then_restore_warehouse 50 60 ArchiveScenario.page
                         ArchivePage.initialState ArchiveScenario.world ArchiveScenario.main
                         _ H1 H2))
           "i1" ArchiveScenario.bolt H3 H4).
Defined.

Lemma writes_to_missing_documents_fail_witness :
  World.warehouses ArchiveScenario.world
  !! Warehouse.id (Warehouse.mk "w9" "Gone" None false 0 0 "placeholder-owner-id") = None
  ∧ World.items ArchiveScenario.world !! Item.id (ItemDoc.toItem "i9" ArchiveScenario.bolt)
    = None
  ∧ WarehousesPage.selectedWarehouseForArchive
      (WarehousesPage.mkState []
         (Some (Warehouse.mk "w9" "Gone" None false 0 0 "placeholder-owner-id")))
    = Some (Warehouse.mk "w9" "Gone" None false 0 0 "placeholder-owner-id")
  ∧ WarehouseDetailPage.itemToArchive ArchiveScenario.confirmingMissing
    = Some (ItemDoc.toItem "i9" ArchiveScenario.bolt)
  ∧ Js.truthy (WarehouseDetailPage.warehouseIdFromParams ArchiveScenario.confirmingMissing)
    = true
  ∧ World.toasts
      (WarehouseDetailPage.handleArchiveItem 50 ArchiveScenario.confirmingMissing
         ArchiveScenario.world).2
    = World.toasts ArchiveScenario.world ++ ["Error"]
  ∧ World.toasts
      (ArchivePage.handleRestoreItem 50 "i9" ArchivePage.initialState ArchiveScenario.world).2
    = World.toasts ArchiveScenario.world ++ ["Error"].
Proof.
  assert (World.warehouses ArchiveScenario.world
          !! Warehouse.id (Warehouse.mk "w9" "Gone" None false 0 0 "placeholder-owner-id")
          = None) as H1 by (vm_compute; reflexivity).
  assert (World.items ArchiveScenario.world
          !! Item.id (ItemDoc.toItem "i9" ArchiveScenario.bolt) = None) as H2
    by (vm_compute; reflexivity).
  assert (WarehousesPage.selectedWarehouseForArchive
            (WarehousesPage.mkState []
               (Some (Warehouse.mk "w9" "Gone" None false 0 0 "placeholder-owner-id")))
          = Some (Warehouse.mk "w9" "Gone" None false 0 0 "placeholder-owner-id")) as H3
    by reflexivity.
  assert (WarehouseDetailPage.itemToArchive ArchiveScenario.confirmingMissing
          = Some (ItemDoc.toItem "i9" ArchiveScenario.bolt)) as H4 by reflexivity.
  assert (Js.truthy (WarehouseDetailPage.warehouseIdFromParams
                       ArchiveScenario.confirmingMissing) = true) as H5
    by (vm_compute; reflexivity).
  repeat (split; [assumption|]).
  destruct (writes_to_missing_documents_fail 50 ArchiveScenario.world _ _ _ _
              ArchivePage.initialState H1 H2 H3 H4 H5)
    as (_ & (_ & _ & _ & _ & Ht1) & _ & (_ & _ & _ & _ & Ht2)).
  exact (conj Ht1 Ht2).
Defined.

End ArchiveWitnesses.
